(** * Interview coach: question selection, session progression and
      answer analysis

    A shallow embedding of the TypeScript sources of the interview coach
    (the Interviewer, Analyzer and Master agents, the frontend
    [InterviewService] and the [analyze-answer] edge function), and the
    properties of them that the specification states.

    Conventions of the embedding:
    - a JavaScript [number] is embedded twice. In the modules of the
      agents and of the service it is an exact rational ([Q]), and
      [Math.floor], [Math.round], [Math.min] and [Math.max] are the
      exact operations: the arithmetic of the properties that do not
      depend on rounding. In [Double] and [Binary64] it is an IEEE 754
      binary64 float ([spec_float] at precision 53), with the correctly
      rounded operations of the language: the arithmetic of the
      properties of the random index, of the averages and of the trend,
      which depend on it;
    - [Math.random()] and [new Date()] / [Date.now()] are inputs of the
      function that calls them (a number [r] and an integer clock);
    - [null] and [undefined] are both [None];
    - a handler returns the new state of its agent and the list of the
      events it emitted, in order. *)

From Stdlib Require Import ZArith QArith Qround Lia Lqa Ascii SpecFloat.
From stdpp Require Import gmap strings list pretty sorting.

Set Warnings "-register-all".

Local Open Scope string_scope.
Local Open Scope list_scope.
Local Open Scope Z_scope.

(** ** JavaScript primitives *)

Module JS.

Definition Math_floor (x : Q) : Z := Qfloor x.

(** [Math.round] rounds to the nearest integer, halves upwards. *)
Definition Math_round (x : Q) : Z := Qfloor (x + (1 # 2)).

Definition Math_min (x y : Q) : Q := if Qle_bool x y then x else y.
Definition Math_max (x y : Q) : Q := if Qle_bool x y then y else x.

(** [x > y] and [x < y] on numbers *)
Definition gt (x y : Q) : bool := negb (Qle_bool x y).
Definition lt (x y : Q) : bool := negb (Qle_bool y x).

Definition ofZ (n : Z) : Q := inject_Z n.
Definition ofNat (n : nat) : Q := inject_Z (Z.of_nat n).

(** Truthiness of a number: every number but zero. *)
Definition truthy (x : Q) : bool := negb (Qeq_bool x 0).

(** Truthiness of a string: every string but the empty one. *)
Definition truthy_string (s : string) : bool :=
  match s with EmptyString => false | _ => true end.

(** [arr[i]] for an integer [i]: [undefined] out of range. *)
Definition index {A} (arr : list A) (i : Z) : option A :=
  if i <? 0 then None else arr !! Z.to_nat i.

(** [arr[Math.floor(Math.random() * arr.length)]] at [Math.random() = r]. *)
Definition randomIndex (r : Q) (len : nat) : Z :=
  Math_floor (r * ofNat len).

(** [Math.round(x * 10) / 10] *)
Definition round1 (x : Q) : Q := ofZ (Math_round (x * 10)) / 10.

(** [arr.reduce((sum, x) => sum + x, 0)] *)
Definition sum (arr : list Q) : Q := fold_left Qplus arr 0%Q.

(** The properties that every object literal inherits from
    [Object.prototype]: reading one of them on an object that has no
    property of that name of its own yields a function (an object for
    [__proto__]), not [undefined]. *)
Definition objectPrototype : list string := [
  "constructor"; "__defineGetter__"; "__defineSetter__"; "hasOwnProperty";
  "__lookupGetter__"; "__lookupSetter__"; "isPrototypeOf";
  "propertyIsEnumerable"; "toString"; "valueOf"; "__proto__";
  "toLocaleString"
].

(** The array index that a property name denotes, if any: the name is
    the decimal notation, without superfluous zero, of an integer below
    [2^32 - 1]. [Object.keys] lists such names first, by value. *)
Definition digit (c : ascii) : option N :=
  let n := N_of_ascii c in
  if ((48 <=? n) && (n <=? 57))%N then Some (n - 48)%N else None.

Fixpoint decimal (acc : N) (s : string) : option N :=
  match s with
  | EmptyString => Some acc
  | String c s => d ← digit c; decimal (10 * acc + d)%N s
  end.

Definition arrayIndex (name : string) : option N :=
  match name with
  | EmptyString => None
  | String c rest =>
      if Ascii.eqb c "0" && negb (String.eqb rest "") then None
      else n ← decimal 0 name; if (n <? 4294967295)%N then Some n else None
  end.

End JS.

Inductive Difficulty := easy | medium | hard.

#[global] Instance Difficulty_eq_dec : EqDecision Difficulty.
Proof. solve_decision. Defined.

Record InterviewQuestion := {
  q_id : string;
  q_category : string;
  q_difficulty : Difficulty;
  q_question : string;
  q_context : string;
  q_expectedElements : list string
}.

(** ** The Interviewer agent *)

Module InterviewerAgent.

Record TTSConfig := {
  voiceId : string;
  modelId : string;
  stability : Q;
  similarityBoost : Q
}.

(** The object pushed on [questionsAsked] by [handleCandidateAnswer]:
    it has these four properties and no other. *)
Record AskedEntry := {
  questionId : string;
  question : option string;
  answer : string;
  timestamp : Z
}.

(** [entry.category]: the entries have no such property, so that
    reading it yields [undefined]. *)
Definition entry_category (e : AskedEntry) : option string := None.

Record SessionContext := {
  currentQuestionIndex : nat;
  questionsAsked : list AskedEntry;
  candidateProfile : string;
  startTime : Z;
  difficulty : Difficulty
}.

Record State := {
  elevenLabsApiKey : string;
  sessionContext : gmap string SessionContext;
  questionBank : list InterviewQuestion;
  defaultTTSConfig : TTSConfig
}.

Definition initialQuestionBank : list InterviewQuestion := [
  {| q_id := "intro-1"; q_category := "introduction"; q_difficulty := easy;
     q_question := "Tell me about yourself and why you're interested in this position. I'm looking for insights into your background, motivations, and how your experience aligns with the role.";
     q_context := "Opening question to assess communication skills and self-awareness";
     q_expectedElements := ["background summary"; "relevant experience"; "motivation"; "role connection"] |};
  {| q_id := "experience-1"; q_category := "experience"; q_difficulty := medium;
     q_question := "Can you describe a challenging project you've worked on and how you overcame obstacles? I'm particularly interested in your problem-solving approach and collaboration skills.";
     q_context := "Behavioral question to assess problem-solving and teamwork";
     q_expectedElements := ["specific example"; "challenges identified"; "actions taken"; "results achieved"; "lessons learned"] |};
  {| q_id := "technical-1"; q_category := "technical"; q_difficulty := medium;
     q_question := "Walk me through your approach to debugging a complex technical issue. What tools and methodologies do you use?";
     q_context := "Technical competency and systematic thinking assessment";
     q_expectedElements := ["systematic approach"; "tools mentioned"; "debugging strategies"; "documentation practices"] |};
  {| q_id := "leadership-1"; q_category := "leadership"; q_difficulty := hard;
     q_question := "Describe a time when you had to lead a team through a difficult situation or major change. How did you ensure everyone stayed motivated and aligned?";
     q_context := "Leadership and change management capabilities";
     q_expectedElements := ["leadership style"; "communication strategies"; "team motivation"; "change management"; "outcomes"] |};
  {| q_id := "conflict-1"; q_category := "behavioral"; q_difficulty := hard;
     q_question := "Tell me about a time when you disagreed with your manager or team lead on an important decision. How did you handle the situation?";
     q_context := "Conflict resolution and professional maturity assessment";
     q_expectedElements := ["specific situation"; "communication approach"; "compromise or resolution"; "relationship preservation"] |};
  {| q_id := "growth-1"; q_category := "development"; q_difficulty := medium;
     q_question := "What's the most significant skill or knowledge area you've developed in the past year? How did you approach learning it?";
     q_context := "Continuous learning and growth mindset evaluation";
     q_expectedElements := ["specific skill/knowledge"; "learning approach"; "application examples"; "impact on work"] |}
].

(** The constructor: key, default voice settings, question bank. *)
Definition new (elevenLabsApiKey : string) : State :=
  {| elevenLabsApiKey := elevenLabsApiKey;
     sessionContext := ∅;
     questionBank := initialQuestionBank;
     defaultTTSConfig :=
       {| voiceId := "9BWtsMINqrJLrRacOk9x";
          modelId := "eleven_multilingual_v2";
          stability := 1 # 2;
          similarityBoost := 3 # 4 |} |}.

(** *** selectNextQuestion *)

Definition askedQuestionIds (ctx : SessionContext) : list string :=
  questionId <$> questionsAsked ctx.

Definition availableQuestions (bank : list InterviewQuestion)
    (ctx : SessionContext) : list InterviewQuestion :=
  filter (λ q, (q_id q ∉ askedQuestionIds ctx)
               ∧ (q_difficulty q = difficulty ctx
                  ∨ length (questionsAsked ctx) = 0%nat)) bank.

Definition remainingQuestions (bank : list InterviewQuestion)
    (ctx : SessionContext) : list InterviewQuestion :=
  filter (λ q, (q_id q ∉ askedQuestionIds ctx)) bank.

Definition lastCategory (ctx : SessionContext) : option string :=
  match last (questionsAsked ctx) with
  | Some e => entry_category e
  | None => None
  end.

(** [q.category !== lastCategory]: a string differs from [null] and
    from [undefined]. *)
Definition differsFrom (lastCategory : option string)
    (q : InterviewQuestion) : Prop :=
  match lastCategory with
  | Some c => q_category q ≠ c
  | None => True
  end.

#[global] Instance differsFrom_dec lc q : Decision (differsFrom lc q).
Proof. destruct lc; simpl; apply _. Defined.

Definition differentCategoryQuestions (bank : list InterviewQuestion)
    (ctx : SessionContext) : list InterviewQuestion :=
  filter (differsFrom (lastCategory ctx)) (availableQuestions bank ctx).

Definition selectedQuestions (bank : list InterviewQuestion)
    (ctx : SessionContext) : list InterviewQuestion :=
  if decide (0 < length (differentCategoryQuestions bank ctx))%nat
  then differentCategoryQuestions bank ctx
  else availableQuestions bank ctx.

Definition selectNextQuestion (st : State) (sessionId : string) (r : Q)
    : option InterviewQuestion :=
  match sessionContext st !! sessionId with
  | None => None
  | Some ctx =>
      let bank := questionBank st in
      if decide (length (availableQuestions bank ctx) = 0%nat) then
        if decide (length (remainingQuestions bank ctx) = 0%nat) then None
        else JS.index (remainingQuestions bank ctx) 0
      else
        let selected := selectedQuestions bank ctx in
        JS.index selected (JS.randomIndex r (length selected))
  end.

(** *** Messages and events *)

Record Summary := {
  s_sessionId : string;
  s_totalQuestions : nat;
  s_duration : Z;
  s_categoriesCovered : list (option string);
  s_finalDifficulty : Difficulty
}.

Inductive Content :=
| QuestionContent (questionId question category audioUrl context : string)
| AnswerContent (questionId : string) (question : option string)
    (answer : string) (expectedElements : option (list string))
    (category : option string) (questionsAsked : nat)
    (currentDifficulty : Difficulty)
| InterviewComplete (summary : option Summary)
| AudioGenerated (audioUrl originalText : string).

(** The identifier of a message is a prefix followed by [Date.now()]. *)
Record Message := {
  m_id : string * Z;
  m_from : string;
  m_to : string;
  m_type : string;
  m_content : Content;
  m_sessionId : string;
  m_timestamp : Z
}.

Inductive Emitted :=
| SendMessage (m : Message)
| EmitError (type sessionId : string).

(** What a handler reads from outside the agent: the clock, the value
    of [Math.random()], and the text-to-speech service ([None] when the
    request fails). *)
Record Env := {
  now : Z;
  random : Q;
  tts : string → option string
}.

(** [[...new Set(arr)]]: the distinct elements, in order of first
    occurrence. *)
Fixpoint distinct {A} `{EqDecision A} (seen arr : list A) : list A :=
  match arr with
  | [] => []
  | x :: arr =>
      if decide (x ∈ seen) then distinct seen arr
      else x :: distinct (x :: seen) arr
  end.

Definition generateQuestionAudio (env : Env) (st : State)
    (questionText : string) : string :=
  if negb (JS.truthy_string (elevenLabsApiKey st)) then ""
  else match tts env questionText with
       | Some audioUrl => audioUrl
       | None => ""
       end.

Definition generateInterviewSummary (env : Env) (st : State)
    (sessionId : string) : option Summary :=
  match sessionContext st !! sessionId with
  | None => None
  | Some ctx =>
      Some {| s_sessionId := sessionId;
              s_totalQuestions := length (questionsAsked ctx);
              s_duration := now env - startTime ctx;
              s_categoriesCovered :=
                distinct [] (entry_category <$> questionsAsked ctx);
              s_finalDifficulty := difficulty ctx |}
  end.

Definition questionMessage (env : Env) (st : State) (sessionId : string)
    (q : InterviewQuestion) : Message :=
  {| m_id := ("q-", now env);
     m_from := "interviewer-agent";
     m_to := "frontend-agent";
     m_type := "question";
     m_content :=
       QuestionContent (q_id q) (q_question q) (q_category q)
         (generateQuestionAudio env st (q_question q)) (q_context q);
     m_sessionId := sessionId;
     m_timestamp := now env |}.

(** *** handleGenerateAudio *)

Definition handleGenerateAudio (env : Env) (st : State)
    (sessionId text : string) : State * list Emitted :=
  (st, [SendMessage
          {| m_id := ("audio-", now env);
             m_from := "interviewer-agent";
             m_to := "frontend-agent";
             m_type := "command";
             m_content :=
               AudioGenerated (generateQuestionAudio env st text) text;
             m_sessionId := sessionId;
             m_timestamp := now env |}]).

(** *** handleStartSession *)

Definition setContext (st : State) (sessionId : string)
    (ctx : SessionContext) : State :=
  {| elevenLabsApiKey := elevenLabsApiKey st;
     sessionContext := <[sessionId := ctx]> (sessionContext st);
     questionBank := questionBank st;
     defaultTTSConfig := defaultTTSConfig st |}.

Definition handleStartSession (env : Env) (st : State)
    (sessionId candidateProfile : string) : State * list Emitted :=
  let st' :=
    setContext st sessionId
      {| currentQuestionIndex := 0;
         questionsAsked := [];
         candidateProfile := candidateProfile;
         startTime := now env;
         difficulty := easy |} in
  match selectNextQuestion st' sessionId (random env) with
  | Some firstQuestion =>
      (st', [SendMessage (questionMessage env st' sessionId firstQuestion)])
  | None =>
      (* reading [firstQuestion.question] throws *)
      (st', [EmitError "session-start" sessionId])
  end.

(** *** handleCandidateAnswer *)

Definition pushAsked (ctx : SessionContext) (e : AskedEntry)
    : SessionContext :=
  {| currentQuestionIndex := currentQuestionIndex ctx;
     questionsAsked := questionsAsked ctx ++ [e];
     candidateProfile := candidateProfile ctx;
     startTime := startTime ctx;
     difficulty := difficulty ctx |}.

Definition handleCandidateAnswer (env : Env) (st : State)
    (sessionId answer questionId : string) : State * list Emitted :=
  match sessionContext st !! sessionId with
  | None => (st, [EmitError "answer-handling" sessionId])
  | Some context =>
      let question :=
        List.find (λ q, bool_decide (q_id q = questionId))
          (questionBank st) in
      let message :=
        {| m_id := ("a-", now env);
           m_from := "interviewer-agent";
           m_to := "analyzer-agent";
           m_type := "answer";
           m_content :=
             AnswerContent questionId (q_question <$> question) answer
               (q_expectedElements <$> question) (q_category <$> question)
               (length (questionsAsked context)) (difficulty context);
           m_sessionId := sessionId;
           m_timestamp := now env |} in
      (setContext st sessionId
         (pushAsked context
            {| questionId := questionId;
               question := q_question <$> question;
               answer := answer;
               timestamp := now env |}),
       [SendMessage message])
  end.

(** *** handleNextQuestion *)

(** The feedback of the previous answer, of which only [score] is
    read; [pf_score] is [None] when it has no such property. *)
Record PreviousFeedback := { pf_score : option Q }.

Record NextQuestionRequest := {
  rq_sessionId : string;
  previousFeedback : option PreviousFeedback
}.

Definition setDifficulty (ctx : SessionContext) (d : Difficulty)
    : SessionContext :=
  {| currentQuestionIndex := currentQuestionIndex ctx;
     questionsAsked := questionsAsked ctx;
     candidateProfile := candidateProfile ctx;
     startTime := startTime ctx;
     difficulty := d |}.

(** The difficulty after the adjustment at the head of
    [handleNextQuestion]; [previousFeedback?.score] is tested for
    truthiness first. *)
Definition adjustDifficulty (previousFeedback : option PreviousFeedback)
    (current : Difficulty) : Difficulty :=
  match previousFeedback ≫= pf_score with
  | Some s =>
      if JS.truthy s then
        if Qle_bool 8 s then hard
        else if Qle_bool 6 s then medium
        else easy
      else current
  | None => current
  end.

Definition handleNextQuestion (env : Env) (st : State)
    (requestData : NextQuestionRequest) : State * list Emitted :=
  let sessionId := rq_sessionId requestData in
  match sessionContext st !! sessionId with
  | None => (st, [EmitError "next-question" sessionId])
  | Some context =>
      let st' :=
        setContext st sessionId
          (setDifficulty context
             (adjustDifficulty (previousFeedback requestData)
                (difficulty context))) in
      match selectNextQuestion st' sessionId (random env) with
      | None =>
          (st', [SendMessage
                   {| m_id := ("end-", now env);
                      m_from := "interviewer-agent";
                      m_to := "frontend-agent";
                      m_type := "command";
                      m_content :=
                        InterviewComplete
                          (generateInterviewSummary env st' sessionId);
                      m_sessionId := sessionId;
                      m_timestamp := now env |}])
      | Some nextQuestion =>
          (st', [SendMessage (questionMessage env st' sessionId nextQuestion)])
      end
  end.

(** *** The remaining public methods *)

Record PartialTTSConfig := {
  p_voiceId : option string;
  p_modelId : option string;
  p_stability : option Q;
  p_similarityBoost : option Q
}.

Definition updateTTSConfig (st : State) (config : PartialTTSConfig)
    : State :=
  {| elevenLabsApiKey := elevenLabsApiKey st;
     sessionContext := sessionContext st;
     questionBank := questionBank st;
     defaultTTSConfig :=
       {| voiceId := default (voiceId (defaultTTSConfig st)) (p_voiceId config);
          modelId := default (modelId (defaultTTSConfig st)) (p_modelId config);
          stability :=
            default (stability (defaultTTSConfig st)) (p_stability config);
          similarityBoost :=
            default (similarityBoost (defaultTTSConfig st))
              (p_similarityBoost config) |} |}.

(** [addCustomQuestion]: [generated] stands for the text
    [`${Date.now()}-${Math.random().toString(36).substr(2, 9)}`]; the
    [id] of the argument is replaced. *)
Definition addCustomQuestion (st : State) (generated : string)
    (question : InterviewQuestion) : State :=
  {| elevenLabsApiKey := elevenLabsApiKey st;
     sessionContext := sessionContext st;
     questionBank :=
       questionBank st ++
         [{| q_id := "custom-" +:+ generated;
             q_category := q_category question;
             q_difficulty := q_difficulty question;
             q_question := q_question question;
             q_context := q_context question;
             q_expectedElements := q_expectedElements question |}];
     defaultTTSConfig := defaultTTSConfig st |}.

Record Health := {
  h_status : string;
  h_questionsAvailable : nat;
  h_activeSessions : nat;
  h_elevenLabsConfigured : bool;
  h_timestamp : Z
}.

Definition healthCheck (env : Env) (st : State) : Health :=
  {| h_status := "healthy";
     h_questionsAvailable := length (questionBank st);
     h_activeSessions := size (sessionContext st);
     h_elevenLabsConfigured := JS.truthy_string (elevenLabsApiKey st);
     h_timestamp := now env |}.

(** Every way in which the agent is driven from outside: the four
    events it listens to and its public methods. *)
Inductive Op :=
| StartSession (sessionId candidateProfile : string)
| CandidateAnswer (sessionId answer questionId : string)
| NextQuestion (requestData : NextQuestionRequest)
| GenerateAudio (sessionId text : string)
| UpdateTTSConfig (config : PartialTTSConfig)
| AddCustomQuestion (generated : string) (question : InterviewQuestion)
| HealthCheck.

Definition step (env : Env) (st : State) (op : Op) : State * list Emitted :=
  match op with
  | StartSession sessionId candidateProfile =>
      handleStartSession env st sessionId candidateProfile
  | CandidateAnswer sessionId answer questionId =>
      handleCandidateAnswer env st sessionId answer questionId
  | NextQuestion requestData => handleNextQuestion env st requestData
  | GenerateAudio sessionId text => handleGenerateAudio env st sessionId text
  | UpdateTTSConfig config => (updateTTSConfig st config, [])
  | AddCustomQuestion generated question =>
      (addCustomQuestion st generated question, [])
  | HealthCheck => (st, [])
  end.

(** The agent after a sequence of operations, each with the environment
    it ran in. *)
Definition run (st : State) (ops : list (Env * Op)) : State :=
  fold_left (λ st eo, fst (step eo.1 st eo.2)) ops st.

End InterviewerAgent.

(** ** The Analyzer agent *)

Record AnalysisResult := {
  score : Q;
  strengths : list string;
  weaknesses : list string;
  tips : list string;
  detailedFeedback : string;
  categoryScore : Q;
  improvementAreas : list string
}.

Module AnalyzerAgent.

Record State := {
  mistralApiKey : string;
  analysisHistory : gmap string (list AnalysisResult)
}.

Record SessionStats := {
  averageScore : Q;
  totalQuestions : nat;
  strongestArea : string;
  weakestArea : string;
  overallTrend : string
}.

(** [countOccurrences(arr)[item]] for an array none of whose items
    names a property of [Object.prototype] ([JS.objectPrototype]): the
    count of such an item starts at [undefined], that is at 0. (For the
    names that are inherited the count starts at the inherited value,
    and is a text.) *)
Definition countOccurrences (arr : list string) (item : string) : nat :=
  length (filter (λ x, x = item) arr).

(** [Object.keys(countOccurrences(arr))]: the names that are array
    indices come first, by value, and the other names follow in the
    order in which they were added. *)
Definition isIndex (name : string) : Prop := is_Some (JS.arrayIndex name).

Definition indexLe (a b : string) : Prop :=
  (default 0 (JS.arrayIndex a) <= default 0 (JS.arrayIndex b))%N.

#[global] Instance indexLe_dec a b : Decision (indexLe a b).
Proof. unfold indexLe. apply _. Defined.

Definition keys (arr : list string) : list string :=
  let own := InterviewerAgent.distinct [] arr in
  merge_sort indexLe (filter isIndex own)
  ++ filter (λ name, ¬ isIndex name) own.

(** [Object.keys(counts).reduce((a, b) => counts[a] > counts[b] ? a : b, init)] *)
Definition mostCommon (arr : list string) (init : string) : string :=
  fold_left
    (λ a b, if (countOccurrences arr b <? countOccurrences arr a)%nat
            then a else b)
    (keys arr) init.

(** [arr.reduce((sum, score) => sum + score, 0) / arr.length] *)
Definition average (arr : list Q) : Q := JS.sum arr / JS.ofNat (length arr).

(** The trend computed in the second half of [getSessionStats]. *)
Definition trendOf (scores : list Q) : string :=
  if (3 <=? length scores)%nat then
    let firstHalf := take (length scores / 2) scores in
    let secondHalf := drop (length scores / 2) scores in
    let firstAvg := average firstHalf in
    let secondAvg := average secondHalf in
    if JS.gt secondAvg (firstAvg + (1 # 2)) then "improving"
    else if JS.lt secondAvg (firstAvg - (1 # 2)) then "declining"
    else "stable"
  else "stable".

Definition getSessionStats (st : State) (sessionId : string)
    : SessionStats :=
  let analyses := default [] (analysisHistory st !! sessionId) in
  if decide (length analyses = 0%nat) then
    {| averageScore := 0;
       totalQuestions := 0;
       strongestArea := "N/A";
       weakestArea := "N/A";
       overallTrend := "N/A" |}
  else
    let scores := score <$> analyses in
    {| averageScore := JS.round1 (average scores);
       totalQuestions := length analyses;
       strongestArea :=
         mostCommon (analyses ≫= strengths) "Communication";
       weakestArea :=
         mostCommon (analyses ≫= weaknesses) "Specificity";
       overallTrend := trendOf scores |}.

(** [handleAnalyzeAnswer], given the result of [analyzeWithMistral]
    (which never throws: it answers with the remote analysis or with a
    mock one): the result is appended to the history of the session and
    sent back together with the statistics of the session. *)
Definition handleAnalyzeAnswer (st : State) (sessionId : string)
    (analysisResult : AnalysisResult)
    : State * (AnalysisResult * SessionStats) :=
  let st' :=
    {| mistralApiKey := mistralApiKey st;
       analysisHistory :=
         <[sessionId :=
             (default [] (analysisHistory st !! sessionId)
                ++ [analysisResult])%list]> (analysisHistory st) |} in
  (st', (analysisResult, getSessionStats st' sessionId)).

End AnalyzerAgent.

(** ** The frontend interview service *)

Module InterviewService.

(** *** Strings *)

(** [s.toLowerCase()], on the ASCII letters. *)
Definition lowerChar (c : ascii) : ascii :=
  let n := nat_of_ascii c in
  if ((65 <=? n) && (n <=? 90))%nat then ascii_of_nat (n + 32) else c.

Fixpoint toLowerCase (s : string) : string :=
  match s with
  | EmptyString => EmptyString
  | String c s => String (lowerChar c) (toLowerCase s)
  end.

(** The strings of ASCII characters: on them [toLowerCase] above is
    the method of JavaScript, which lowers other letters as well (the
    Kelvin sign to [k], for one). *)
Fixpoint isASCII (s : string) : bool :=
  match s with
  | EmptyString => true
  | String c s => (nat_of_ascii c <? 128)%nat && isASCII s
  end.

(** [s.split(sep)] for a separator of one character. *)
Fixpoint split (sep : ascii) (s : string) : list string :=
  match s with
  | EmptyString => [EmptyString]
  | String c s =>
      if Ascii.eqb c sep then EmptyString :: split sep s
      else match split sep s with
           | piece :: pieces => String c piece :: pieces
           | [] => [String c EmptyString]
           end
  end.

(** [s.includes(sub)] *)
Fixpoint includes (s sub : string) : bool :=
  String.prefix sub s
  || match s with
     | EmptyString => false
     | String _ s => includes s sub
     end.

Definition space : ascii := Ascii.ascii_of_nat 32.

(** *** The service *)

Inductive MessageType := question | answer | feedback.

#[global] Instance MessageType_eq_dec : EqDecision MessageType.
Proof. solve_decision. Defined.

Record InterviewMessage := {
  im_id : string;
  im_type : MessageType;
  im_content : string;
  im_timestamp : Z;
  im_feedback : option AnalysisResult
}.

Record State := {
  sessionId : option string;
  messageHistory : list InterviewMessage;
  currentQuestionIndex : nat;
  questionBank : list InterviewQuestion
}.

Definition initialQuestionBank : list InterviewQuestion :=
  (InterviewerAgent.initialQuestionBank ++ [
  {| q_id := "innovation-1"; q_category := "innovation"; q_difficulty := hard;
     q_question := "Describe a time when you had to think outside the box to solve a problem. What was your creative process and what was the outcome?";
     q_context := "Creative thinking and innovation capabilities";
     q_expectedElements := ["creative problem-solving"; "process description"; "innovative solution"; "measurable outcome"] |};
  {| q_id := "pressure-1"; q_category := "behavioral"; q_difficulty := medium;
     q_question := "Tell me about a time when you had to work under significant pressure or tight deadlines. How did you manage the stress and ensure quality?";
     q_context := "Stress management and performance under pressure";
     q_expectedElements := ["pressure situation"; "stress management"; "quality maintenance"; "time management"] |}
  ])%list.

Definition new : State :=
  {| sessionId := None;
     messageHistory := [];
     currentQuestionIndex := 0;
     questionBank := initialQuestionBank |}.

Record Summary := {
  s_sessionId : option string;
  s_totalQuestions : nat;
  s_totalAnswers : nat;
  s_averageScore : Q;
  s_completedAt : Z
}.

Inductive Event :=
| AnswerSubmitted (m : InterviewMessage)
| AnalysisStarted
| FeedbackReceived (m : InterviewMessage)
| QuestionAsked (m : InterviewMessage) (q : InterviewQuestion)
| InterviewCompleted (summary : Summary).

(** *** calculateScore *)

Definition calculateScore (answer : string) (expectedKeywords : list string)
    : Q :=
  let answerLower := toLowerCase answer in
  let wordCount := length (split space answer) in
  let score0 := JS.Math_min 5 (JS.ofNat wordCount / 20) in
  let score1 :=
    fold_left
      (λ score keyword,
         if includes answerLower (toLowerCase keyword) then (score + 1)%Q
         else score)
      expectedKeywords score0 in
  let score2 := if (100 <? wordCount)%nat then (score1 + (1 # 2))%Q else score1 in
  let score3 := if (200 <? wordCount)%nat then (score2 + (1 # 2))%Q else score2 in
  JS.Math_min 9 score3.

(** *** generateFeedback *)

Record Template := {
  t_score : Q;
  t_strengths : list string;
  t_weaknesses : list string;
  t_tips : list string
}.

Definition introductionTemplate (answer : string) : Template :=
  {| t_score := calculateScore answer ["background"; "experience"; "motivation"];
     t_strengths := [
       "Clear structure and logical flow";
       "Relevant experience mentioned";
       "Confident tone and enthusiasm"];
     t_weaknesses := [
       "Could provide more specific examples";
       "Consider mentioning quantifiable achievements";
       "Opportunity to better connect experience to role"];
     t_tips := [
       "Use the STAR method (Situation, Task, Action, Result) for stronger examples";
       "Quantify your achievements with numbers and metrics when possible";
       "Research the company more deeply to show specific interest"] |}.

Definition analysisTemplates (answer : string) : list (string * Template) := [
  ("introduction", introductionTemplate answer);
  ("experience",
   {| t_score := calculateScore answer ["challenge"; "solution"; "result"; "collaboration"];
      t_strengths := [
        "Specific project example provided";
        "Clear problem identification";
        "Good demonstration of problem-solving skills";
        "Mentioned collaboration effectively"];
      t_weaknesses := [
        "Could elaborate more on the results achieved";
        "Missing discussion of lessons learned";
        "Limited mention of stakeholder management"];
      t_tips := [
        "Always conclude with measurable results and impact";
        "Include what you learned from the experience";
        "Mention how you managed different stakeholders during challenges"] |});
  ("technical",
   {| t_score := calculateScore answer ["systematic"; "tools"; "process"; "testing"];
      t_strengths := [
        "Methodical approach to problem-solving";
        "Good understanding of debugging tools";
        "Clear explanation of technical concepts"];
      t_weaknesses := [
        "Could provide more specific tool examples";
        "Missing discussion of prevention strategies";
        "Limited mention of documentation practices"];
      t_tips := [
        "Name specific debugging tools and their use cases";
        "Discuss how you prevent similar issues in the future";
        "Mention the importance of documenting solutions for team knowledge"] |});
  ("leadership",
   {| t_score := calculateScore answer ["leadership"; "communication"; "motivation"; "change"];
      t_strengths := [
        "Strong leadership qualities demonstrated";
        "Effective communication strategies mentioned";
        "Good understanding of change management"];
      t_weaknesses := [
        "Could provide more specific examples of team motivation";
        "Missing discussion of individual team member needs";
        "Limited mention of measuring success"];
      t_tips := [
        "Describe specific techniques for motivating different personality types";
        "Explain how you adapt your leadership style to individual needs";
        "Include metrics or indicators you use to measure team success"] |})
].

(** [obj[key]] on an object literal given by its entries. *)
Fixpoint property {A} (obj : list (string * A)) (key : string) : option A :=
  match obj with
  | [] => None
  | (k, v) :: obj => if String.eqb k key then Some v else property obj key
  end.

Definition detailedFeedbackTemplates : list (string * string) := [
  ("introduction", "Your response shows good self-awareness and enthusiasm. The structure is logical and flows well. To strengthen your answer, consider adding more specific examples of your achievements with quantifiable results.");
  ("experience", "Excellent use of a specific example to demonstrate your experience. You clearly articulated the challenge and your approach. To make this even stronger, emphasize the concrete results and lessons learned.");
  ("technical", "Your technical explanation demonstrates solid understanding. The methodical approach you described is valuable. Consider adding more details about specific tools and prevention strategies.");
  ("leadership", "Strong demonstration of leadership capabilities. Your communication strategies are well-thought-out. To enhance this further, include specific examples of how you measure team success.");
  ("general", "Good overall response with clear communication. Your answer shows relevant experience and understanding. Focus on providing more specific examples and quantifiable outcomes.")
].

Definition generateDetailedFeedback (answer category : string) : string :=
  default
    "Good overall response with clear communication. Your answer shows relevant experience and understanding. Focus on providing more specific examples and quantifiable outcomes."
    (property detailedFeedbackTemplates category).

(** The template chosen for an answer: that of the category of the
    question, the introduction one for any other category. *)
Definition templateFor (st : State) (questionId answer : string)
    : string * Template :=
  let question :=
    List.find (λ q, bool_decide (q_id q = questionId)) (questionBank st) in
  let category :=
    match q_category <$> question with
    | Some c => if JS.truthy_string c then c else "general"
    | None => "general"
    end in
  (category,
   default (introductionTemplate answer)
     (property (analysisTemplates answer) category)).

(** [generateFeedback] at [Math.random() = r]. *)
Definition generateFeedback (st : State) (r : Q)
    (questionId answer : string) : AnalysisResult :=
  let '(category, template) := templateFor st questionId answer in
  let scoreVariation := ((r - (1 # 2)) * (3 # 2))%Q in
  let finalScore :=
    JS.Math_max 1 (JS.Math_min 10 (t_score template + scoreVariation)%Q) in
  {| score := JS.round1 finalScore;
     strengths := t_strengths template;
     weaknesses := t_weaknesses template;
     tips := t_tips template;
     detailedFeedback := generateDetailedFeedback answer category;
     categoryScore := JS.round1 finalScore;
     improvementAreas :=
       (λ w, default EmptyString (head (split space w)))
         <$> t_weaknesses template |}.

(** *** calculateAverageScore *)

Definition feedbackMessages (st : State) : list InterviewMessage :=
  filter (λ m, im_type m = feedback ∧ is_Some (im_feedback m))
    (messageHistory st).

(** [msg.feedback?.score || 0] *)
Definition scoreOrZero (m : InterviewMessage) : Q :=
  match im_feedback m with
  | Some f => if JS.truthy (score f) then score f else 0
  | None => 0
  end.

Definition calculateAverageScore (st : State) : Q :=
  let messages := feedbackMessages st in
  if decide (length messages = 0%nat) then 0
  else
    let totalScore :=
      fold_left (λ sum msg, (sum + scoreOrZero msg)%Q) messages 0%Q in
    JS.round1 (totalScore / JS.ofNat (length messages))%Q.

(** *** Session progression *)

Definition countType (t : MessageType) (st : State) : nat :=
  length (filter (λ m, im_type m = t) (messageHistory st)).

Definition endInterview (now : Z) (st : State) : State * list Event :=
  (st, [InterviewCompleted
          {| s_sessionId := sessionId st;
             s_totalQuestions := countType question st;
             s_totalAnswers := countType answer st;
             s_averageScore := calculateAverageScore st;
             s_completedAt := now |}]).

Definition askNextQuestion (now : Z) (st : State) : State * list Event :=
  if (length (questionBank st) <=? currentQuestionIndex st)%nat then
    endInterview now st
  else
    match questionBank st !! currentQuestionIndex st with
    | None => (st, [])
    | Some q =>
        let questionMessage :=
          {| im_id := q_id q;
             im_type := question;
             im_content := q_question q;
             im_timestamp := now;
             im_feedback := None |} in
        ({| sessionId := sessionId st;
            messageHistory := messageHistory st ++ [questionMessage];
            currentQuestionIndex := S (currentQuestionIndex st);
            questionBank := questionBank st |},
         [QuestionAsked questionMessage q])
    end.

(** [startSession]: [generated] stands for the generated identifier. *)
Definition startSession (generated : string) (st : State) : State :=
  {| sessionId := Some generated;
     messageHistory := [];
     currentQuestionIndex := 0;
     questionBank := questionBank st |}.

(** [submitAnswer] up to the feedback ([None]: it throws for want of a
    session); the next question is asked by a timer afterwards. *)
Definition submitAnswer (now : Z) (r : Q) (st : State)
    (questionId answerText : string) : option (State * list Event) :=
  match sessionId st with
  | None => None
  | Some _ =>
      let userMessage :=
        {| im_id := "answer-"; im_type := answer; im_content := answerText;
           im_timestamp := now; im_feedback := None |} in
      let feedbackMessage :=
        {| im_id := "feedback-"; im_type := feedback;
           im_content := "Analysis complete"; im_timestamp := now;
           im_feedback := Some (generateFeedback st r questionId answerText) |} in
      Some ({| sessionId := sessionId st;
               messageHistory :=
                 messageHistory st ++ [userMessage; feedbackMessage];
               currentQuestionIndex := currentQuestionIndex st;
               questionBank := questionBank st |},
            [AnswerSubmitted userMessage; AnalysisStarted;
             FeedbackReceived feedbackMessage])
  end.

(** The score recorded by a message, when it is a feedback message
    that carries a feedback (used to state the properties of
    [calculateAverageScore]). *)
Definition feedbackScore (m : InterviewMessage) : option Q :=
  if decide (im_type m = feedback) then score <$> im_feedback m else None.

End InterviewService.

(** ** The [analyze-answer] edge function *)

Module AnalyzeAnswer.

(** A JavaScript value as [JSON.parse] builds it and [JSON.stringify]
    prints it; a property of value [JUndefined] is left out when
    printed. *)
Inductive JSValue :=
| JUndefined
| JNull
| JBool (b : bool)
| JNumber (x : Q)
| JString (s : string)
| JArray (items : list JSValue)
| JObject (properties : list (string * JSValue)).

Definition strings (l : list string) : JSValue := JArray (JString <$> l).

Definition optString (s : option string) : JSValue :=
  match s with Some s => JString s | None => JUndefined end.

(** The body of a request, once destructured. *)
Record RequestBody := {
  question : option string;
  answer : option string;
  category : option string;
  expectedElements : option (list string)
}.

(** [req.json()] yields [None] when it rejects. *)
Record Request := {
  method : string;
  json : option RequestBody
}.

(** What [fetch] of the chat-completions endpoint yields.
    - [NetworkError message]: the request fails.
    - [HttpResponse ok status content]: a response; when it is [ok],
      its body is JSON and [data.choices[0].message] can be read.
      [content] is [None] when that message has no [content]
      ([undefined]), and otherwise the text that [JSON.parse] reads:
      the content itself when it is a string, and its conversion to a
      string when it is not (a [null] content reads as the text
      [null]). It is not read when the response is not [ok].
    - [HttpUnreadable status message]: an [ok] response whose body is
      not JSON, or has no message at [data.choices[0]]: reading it
      throws an error with that message. *)
Inductive FetchResult :=
| NetworkError (message : string)
| HttpResponse (ok : bool) (status : Z) (content : option string)
| HttpUnreadable (status : Z) (message : string).

Record Env := {
  MISTRAL_API_KEY : option string;
  fetch : FetchResult;
  (** [JSON.parse]: [None] when it throws. *)
  JSON_parse : string → option JSValue
}.

Inductive ResponseBody :=
| NoBody
| Success (analysis : JSValue)
| Failure (error : string).

Record Response := {
  status : Z;
  headers : list (string * string);
  body : ResponseBody
}.

Definition corsHeaders : list (string * string) := [
  ("Access-Control-Allow-Origin", "*");
  ("Access-Control-Allow-Headers",
   "authorization, x-client-info, apikey, content-type")
].

Definition jsonHeaders : list (string * string) :=
  (corsHeaders ++ [("Content-Type", "application/json")])%list.

(** The analysis used when the answer of the model does not parse. *)
Definition fallbackAnalysis (category : option string) : JSValue :=
  JObject [
    ("score", JNumber 7);
    ("strengths",
     strings ["Clear communication"; "Relevant experience mentioned"]);
    ("weaknesses",
     strings ["Could provide more specific examples";
              "Answer could be more structured"]);
    ("improvements",
     strings ["Use the STAR method (Situation, Task, Action, Result)";
              "Practice providing concrete examples"]);
    ("category", optString category);
    ("overall_feedback",
     JString "Good foundation but could be more detailed and structured.")
  ].

(** The [try] block: a value or the message of the error thrown. *)
Inductive Result (A : Type) :=
| Ok (a : A)
| Throw (message : string).
Arguments Ok {A} a.
Arguments Throw {A} message.

#[global] Instance Result_bind : MBind Result := λ A B k m,
  match m with
  | Ok a => k a
  | Throw message => Throw message
  end.

Definition truthyOpt (s : option string) : bool :=
  match s with Some s => JS.truthy_string s | None => false end.

(** [String(status)] for the status of a response. *)
Definition showStatus (status : Z) : string := pretty status.

Definition analyze (env : Env) (req : Request) : Result JSValue :=
  request ← match json req with
            | Some b => Ok b
            | None => Throw "Unexpected end of JSON input"
            end;
  _ ← (if negb (truthyOpt (question request))
          || negb (truthyOpt (answer request))
       then Throw "Question and answer are required" else Ok ());
  _ ← (if negb (truthyOpt (MISTRAL_API_KEY env))
       then Throw "Mistral API key not found" else Ok ());
  content ← match fetch env with
            | NetworkError message => Throw message
            | HttpResponse ok status content =>
                if negb ok then
                  Throw ("Mistral API error: " +:+ showStatus status)
                else Ok content
            | HttpUnreadable status message => Throw message
            end;
  (* the inner [try]: [JSON.parse(undefined)] throws as the parsing of
     a text that is not JSON does *)
  Ok match content ≫= JSON_parse env with
     | Some analysis => analysis
     | None => fallbackAnalysis (category request)
     end.

Definition serve (env : Env) (req : Request) : Response :=
  if String.eqb (method req) "OPTIONS" then
    {| status := 200; headers := corsHeaders; body := NoBody |}
  else
    match analyze env req with
    | Ok analysis =>
        {| status := 200; headers := jsonHeaders; body := Success analysis |}
    | Throw message =>
        {| status := 500; headers := jsonHeaders; body := Failure message |}
    end.

End AnalyzeAnswer.

(** ** The Master agent *)

Module MasterAgent.

Record AgentMessage := {
  am_id : string;
  am_from : string;
  am_to : string;
  am_type : string;
  am_content : string;
  am_sessionId : string;
  am_timestamp : Z
}.

#[global] Instance AgentMessage_eq_dec : EqDecision AgentMessage.
Proof. solve_decision. Defined.

Record AgentDescriptor := {
  d_id : string;
  d_name : string;
  d_description : string;
  d_capabilities : list string;
  d_endpoints : list string
}.

Record Session := {
  s_id : string;
  s_status : string;
  s_startTime : Z;
  s_config : string;
  s_participants : list string;
  s_messageHistory : list AgentMessage
}.

(** [routing] tells whether [setupMessageRouting] has run, that is
    whether the listeners of ['agent-message'] and ['routing-error']
    are registered; [timers] counts the retries scheduled with
    [setTimeout] that have not fired yet (they all run the same
    callback after the same delay). *)
Record State := {
  routing : bool;
  agents : gmap string AgentDescriptor;
  sessions : gmap string Session;
  messageQueue : list AgentMessage;
  timers : nat
}.

(** The state once the constructor has finished. *)
Definition new : State :=
  {| routing := true; agents := ∅; sessions := ∅;
     messageQueue := []; timers := 0 |}.

(** The events emitted, and the line logged when a message is sent
    again. *)
Inductive Event :=
| MessageRouted (m : AgentMessage)
| RoutingError (m : AgentMessage) (error : string)
| FrontendMessage (m : AgentMessage)
| AgentRegistered (d : AgentDescriptor)
| Retrying (m : AgentMessage).

(** The network: the error with which the request that forwards a
    message to the interviewer or to the analyzer fails, if it does. *)
Definition Network := AgentMessage → option string.

Definition withTo (m : AgentMessage) (to : string) : AgentMessage :=
  {| am_id := am_id m; am_from := am_from m; am_to := to;
     am_type := am_type m; am_content := am_content m;
     am_sessionId := am_sessionId m; am_timestamp := am_timestamp m |}.

(** *** handleRoutingError: re-queue, and schedule a retry *)

Definition handleRoutingError (st : State) (m : AgentMessage) : State :=
  {| routing := routing st; agents := agents st; sessions := sessions st;
     messageQueue := messageQueue st ++ [m];
     timers := S (timers st) |}.

(** [this.emit('routing-error', { message, error })]: the listener, if
    registered, runs at once. *)
Definition emitRoutingError (st : State) (m : AgentMessage)
    (error : string) : State * list Event :=
  (if routing st then handleRoutingError st m else st,
   [RoutingError m error]).

Definition pushHistory (st : State) (m : AgentMessage) : State :=
  {| routing := routing st; agents := agents st;
     sessions :=
       alter
         (λ s, {| s_id := s_id s; s_status := s_status s;
                  s_startTime := s_startTime s; s_config := s_config s;
                  s_participants := s_participants s;
                  s_messageHistory := s_messageHistory s ++ [m] |})
         (am_sessionId m) (sessions st);
     messageQueue := messageQueue st; timers := timers st |}.

(** *** routeMessage *)

(** [routeMessage] and [broadcastMessage] call each other; since
    [broadcastMessage] replaces the recipient by one of the three
    agents, the routing it starts never reaches the ['all'] branch
    again. [routeMessageBy] is [routeMessage] with that branch as an
    argument. A routing runs to its end before the next event. *)
Definition routeMessageBy
    (broadcast : State → AgentMessage → State * list Event)
    (net : Network) (st : State) (m : AgentMessage)
    : State * list Event :=
  match sessions st !! am_sessionId m with
  | None =>
      emitRoutingError st m ("Invalid session ID: " +:+ am_sessionId m)
  | Some _ =>
      let st := pushHistory st m in
      if String.eqb (am_to m) "interviewer-agent"
         || String.eqb (am_to m) "analyzer-agent" then
        match net m with
        | Some error => emitRoutingError st m error
        | None => (st, [MessageRouted m])
        end
      else if String.eqb (am_to m) "frontend-agent" then
        (st, [FrontendMessage m; MessageRouted m])
      else if String.eqb (am_to m) "all" then
        let '(st, events) := broadcast st m in
        (st, events ++ [MessageRouted m])
      else (st, [MessageRouted m])
  end.

Definition broadcastMessageBy
    (route : State → AgentMessage → State * list Event)
    (st : State) (m : AgentMessage) : State * list Event :=
  fold_left
    (λ acc agentId,
       let '(st, events) := route acc.1 (withTo m agentId) in
       (st, acc.2 ++ events))
    ["interviewer-agent"; "analyzer-agent"; "frontend-agent"]
    (st, []).

Definition broadcastMessage (net : Network)
    : State → AgentMessage → State * list Event :=
  broadcastMessageBy (routeMessageBy (λ st _, (st, [])) net).

Definition routeMessage (net : Network)
    : State → AgentMessage → State * list Event :=
  routeMessageBy (broadcastMessage net) net.

(** *** The retry scheduled by handleRoutingError *)

(** One pending timer fires: the head of the queue, if any, is sent
    again. *)
Definition fireTimer (net : Network) (st : State) : State * list Event :=
  match timers st with
  | O => (st, [])
  | S pending =>
      match messageQueue st with
      | [] =>
          ({| routing := routing st; agents := agents st;
              sessions := sessions st; messageQueue := [];
              timers := pending |}, [])
      | retryMessage :: queue =>
          let '(st, events) :=
            routeMessage net
              {| routing := routing st; agents := agents st;
                 sessions := sessions st; messageQueue := queue;
                 timers := pending |}
              retryMessage in
          (st, Retrying retryMessage :: events)
      end
  end.

(** *** Sessions and agents *)

Definition createSession (net : Network) (now : Z) (generated : string)
    (sessionConfig : string) (st : State) : State * list Event :=
  let sessionId := "session-" +:+ generated in
  broadcastMessage net
    {| routing := routing st; agents := agents st;
       sessions :=
         <[sessionId :=
             {| s_id := sessionId; s_status := "initialized";
                s_startTime := now; s_config := sessionConfig;
                s_participants :=
                  ["interviewer-agent"; "analyzer-agent"; "frontend-agent"];
                s_messageHistory := [] |}]> (sessions st);
       messageQueue := messageQueue st; timers := timers st |}
    {| am_id := "msg-"; am_from := "master-agent"; am_to := "all";
       am_type := "command"; am_content := "session-created";
       am_sessionId := sessionId; am_timestamp := now |}.

Definition registerAgent (descriptor : AgentDescriptor) (st : State)
    : State * list Event :=
  ({| routing := routing st;
      agents := <[d_id descriptor := descriptor]> (agents st);
      sessions := sessions st; messageQueue := messageQueue st;
      timers := timers st |},
   [AgentRegistered descriptor]).

(** *** Runs *)

(** The agent after the timers have fired [n] times, with the events
    of these firings. *)
Fixpoint fireTimers (net : Network) (n : nat) (st : State)
    : State * list Event :=
  match n with
  | O => (st, [])
  | S n =>
      let '(st, events) := fireTimer net st in
      let '(st', events') := fireTimers net n st in
      (st', events ++ events')
  end.

(** The messages whose routing failed, the messages sent again, and
    how often a given message was sent again, in a list of events. *)
Definition failed (events : list Event) : list AgentMessage :=
  omap (λ e, match e with RoutingError m _ => Some m | _ => None end)
    events.

Definition resent (events : list Event) : list AgentMessage :=
  omap (λ e, match e with Retrying m => Some m | _ => None end) events.

Definition retries (m : AgentMessage) (events : list Event) : nat :=
  length (filter (λ m', m' = m) (resent events)).

(** What a routing does to the queue and to the timers: one message
    queued and one timer scheduled for each failure, and nothing sent
    again. *)
Definition requeues (route : State → AgentMessage → State * list Event)
    : Prop :=
  ∀ st m,
    routing st = true →
    routing (route st m).1 = true
    ∧ messageQueue (route st m).1
      = messageQueue st ++ failed (route st m).2
    ∧ timers (route st m).1
      = (timers st + length (failed (route st m).2))%nat
    ∧ resent (route st m).2 = [].

End MasterAgent.

(** ** Means and rounding, as the specification words them *)

Module Statistics.

Fixpoint total (l : list Q) : Q :=
  match l with
  | [] => 0
  | x :: l => x + total l
  end.

(** The arithmetic mean of a list of numbers. *)
Definition mean (l : list Q) : Q := total l / inject_Z (Z.of_nat (length l)).

(** [y] is [x] rounded to one decimal place: the multiple of [1/10]
    nearest to [x], the upper one when two are as near. *)
Definition roundedToOneDecimal (x y : Q) : Prop :=
  (∃ k : Z, y == inject_Z k / 10)%Q
  ∧ (x - (1 # 20) < y)%Q ∧ (y <= x + (1 # 20))%Q.

End Statistics.

(** ** Sample runs *)

Module Scenario.
Import InterviewerAgent.

Definition sessionId : string := "session-1700000000000-k3j9x2m1q".

Definition env (r : Q) : Env :=
  {| now := 1700000000000; random := r; tts := λ _, None |}.

Definition scored (s : Q) : NextQuestionRequest :=
  {| rq_sessionId := sessionId;
     previousFeedback := Some {| pf_score := Some s |} |}.

(** A session in which [technical-1] was asked first and answered. *)
Definition started : State :=
  (handleStartSession (env (1 # 3)) (new "") sessionId "candidate").1.

Definition answered : State :=
  (handleCandidateAnswer (env 0) started sessionId
     "I reproduce the issue, then bisect it." "technical-1").1.

(** The same session after an answer scored 9: the difficulty is
    [hard]. *)
Definition promoted : State :=
  (handleNextQuestion (env 0) answered (scored 9)).1.

(** An agent to which a second technical question was added with
    [addCustomQuestion], and the same session on it. *)
Definition customQuestion : InterviewQuestion :=
  {| q_id := "";
     q_category := "technical";
     q_difficulty := medium;
     q_question := "How do you find out why a service has become slow?";
     q_context := "Performance analysis";
     q_expectedElements := ["measurement"; "profiling"] |}.

Definition extended : State :=
  addCustomQuestion (new "") "1700000000000-x7f2k9q1z" customQuestion.

Definition extendedAnswered : State :=
  (handleCandidateAnswer (env 0)
     (handleStartSession (env (1 # 3)) extended sessionId "candidate").1
     sessionId "I reproduce the issue, then bisect it." "technical-1").1.

(** An analyzer that has analysed two answers of the session. *)
Definition analysis (s : Q) : AnalysisResult :=
  {| score := s;
     strengths := ["Clear communication"];
     weaknesses := ["Could provide more specific examples"];
     tips := ["Practice the STAR method for structured answers"];
     detailedFeedback := "Good overall response with room for improvement.";
     categoryScore := s;
     improvementAreas := ["Answer structure"] |}.

Definition analyzed : AnalyzerAgent.State :=
  (AnalyzerAgent.handleAnalyzeAnswer
     (AnalyzerAgent.handleAnalyzeAnswer
        {| AnalyzerAgent.mistralApiKey := "";
           AnalyzerAgent.analysisHistory := ∅ |}
        sessionId (analysis 7)).1
     sessionId (analysis (17 # 2))).1.

(** A frontend service in which the first question was asked and
    answered. *)
Definition serviceAnswered : InterviewService.State :=
  let asked :=
    (InterviewService.askNextQuestion 1700000000000
       (InterviewService.startSession "1700000000000-k3j9x2m1q"
          InterviewService.new)).1 in
  match InterviewService.submitAnswer 1700000000000 (1 # 2) asked "intro-1"
          "My background is in embedded software." with
  | Some (st, _) => st
  | None => asked
  end.

(** The edge function: an environment in which the model answers in
    prose. [parseLiteral] is the part of [JSON.parse] on the literals
    [null], [true] and [false]; it rejects any other text. *)
Definition parseLiteral (text : string) : option AnalyzeAnswer.JSValue :=
  if String.eqb text "null" then Some AnalyzeAnswer.JNull
  else if String.eqb text "true" then Some (AnalyzeAnswer.JBool true)
  else if String.eqb text "false" then Some (AnalyzeAnswer.JBool false)
  else None.

Definition proseEnv : AnalyzeAnswer.Env :=
  {| AnalyzeAnswer.MISTRAL_API_KEY := Some "key";
     AnalyzeAnswer.fetch :=
       AnalyzeAnswer.HttpResponse true 200
         (Some "The answer is clear but lacks examples.");
     AnalyzeAnswer.JSON_parse := parseLiteral |}.

Definition analyzeRequest : AnalyzeAnswer.Request :=
  {| AnalyzeAnswer.method := "POST";
     AnalyzeAnswer.json :=
       Some {| AnalyzeAnswer.question := Some "Tell me about yourself.";
               AnalyzeAnswer.answer := Some "I build compilers.";
               AnalyzeAnswer.category := Some "introduction";
               AnalyzeAnswer.expectedElements := None |} |}.

(** The master agent: a message for a session that was never created. *)
Definition strayMessage : MasterAgent.AgentMessage :=
  {| MasterAgent.am_id := "answer-1700000000000";
     MasterAgent.am_from := "frontend-agent";
     MasterAgent.am_to := "interviewer-agent";
     MasterAgent.am_type := "answer";
     MasterAgent.am_content := "An answer.";
     MasterAgent.am_sessionId := "session-0";
     MasterAgent.am_timestamp := 1700000000000 |}.

Definition reachable : MasterAgent.Network := λ _, None.

End Scenario.

(** ** A candidate answering the questions of the interviewer *)

Module Dialogue.
Import InterviewerAgent.

(** The identifier of the question carried by the events of a handler,
    as the frontend reads it from [content.questionId]. *)
Definition askedIn (events : list Emitted) : option string :=
  match events with
  | [SendMessage m] =>
      match m_content m with
      | QuestionContent questionId _ _ _ _ => Some questionId
      | _ => None
      end
  | _ => None
  end.

(** What drives one round: the environment of the round, the feedback
    on the previous answer and the text of the answer. *)
Record Round := {
  r_env : Env;
  r_feedback : option PreviousFeedback;
  r_answer : string
}.

(** One round of an interview: the next question is requested and, when
    one is asked, the candidate answers it. *)
Definition round (sessionId : string) (st : State) (rd : Round) : State :=
  let '(st1, events) :=
    handleNextQuestion (r_env rd) st
      {| rq_sessionId := sessionId; previousFeedback := r_feedback rd |} in
  match askedIn events with
  | Some questionId =>
      (handleCandidateAnswer (r_env rd) st1 sessionId (r_answer rd)
         questionId).1
  | None => st1
  end.

Definition rounds (sessionId : string) (st : State) (rds : list Round)
    : State :=
  fold_left (round sessionId) rds st.

End Dialogue.

(** ** The Analyzer agent: the analysis of one answer *)

Module AnalyzeWithMistral.
Import AnalyzeAnswer.

(** The request of an analysis; [category] is [None] when the question
    of the answer is not in the bank of the interviewer. *)
Record AnalysisRequest := {
  rq_questionId : string;
  rq_question : option string;
  rq_answer : string;
  rq_expectedElements : option (list string);
  rq_category : option string
}.

(** *** generateMockAnalysis *)

Definition mockIntroduction : AnalysisResult :=
  {| score := 15 # 2;
     strengths := [
       "Clear structure and logical flow";
       "Relevant experience mentioned";
       "Confident tone and enthusiasm"];
     weaknesses := [
       "Could provide more specific examples";
       "Consider mentioning quantifiable achievements";
       "Opportunity to better connect experience to role"];
     tips := [
       "Use the STAR method (Situation, Task, Action, Result) for stronger examples";
       "Quantify your achievements with numbers and metrics when possible";
       "Research the company more deeply to show specific interest"];
     detailedFeedback := "Your response shows good self-awareness and enthusiasm for the role. The structure is logical, moving from background to motivation. To strengthen your answer, consider adding more specific examples of your achievements and quantifiable results. This will make your experience more tangible and memorable for the interviewer.";
     categoryScore := 15 # 2;
     improvementAreas := ["Specificity"; "Quantification"; "Company research"] |}.

Definition mockExperience : AnalysisResult :=
  {| score := 8;
     strengths := [
       "Specific project example provided";
       "Clear problem identification";
       "Good demonstration of problem-solving skills";
       "Mentioned collaboration effectively"];
     weaknesses := [
       "Could elaborate more on the results achieved";
       "Missing discussion of lessons learned";
       "Limited mention of stakeholder management"];
     tips := [
       "Always conclude with measurable results and impact";
       "Include what you learned from the experience";
       "Mention how you managed different stakeholders during challenges"];
     detailedFeedback := "Excellent use of a specific example to demonstrate your experience. You clearly articulated the challenge and your approach to solving it. The mention of collaboration shows good teamwork skills. To make this even stronger, emphasize the concrete results of your efforts and what you learned from the experience.";
     categoryScore := 8;
     improvementAreas := ["Results quantification"; "Lessons learned"; "Stakeholder management"] |}.

Definition mockAnalyses : list (string * AnalysisResult) := [
  ("introduction", mockIntroduction);
  ("experience", mockExperience)
].

(** [generateMockAnalysis] at [Math.random() = r], for a request whose
    category is not the name of a property that the object
    [mockAnalyses] inherits ([JS.objectPrototype]): for such a name the
    look-up yields the inherited property, which is no template. *)
Definition generateMockAnalysis (r : Q) (request : AnalysisRequest)
    : AnalysisResult :=
  let categoryAnalysis :=
    default mockIntroduction
      (rq_category request ≫= InterviewService.property mockAnalyses) in
  let scoreAdjustment := (r * 1 - (1 # 2))%Q in
  let adjustedScore :=
    JS.Math_max 1
      (JS.Math_min 10 (score categoryAnalysis + scoreAdjustment)%Q) in
  {| score := JS.round1 adjustedScore;
     strengths := strengths categoryAnalysis;
     weaknesses := weaknesses categoryAnalysis;
     tips := tips categoryAnalysis;
     detailedFeedback := detailedFeedback categoryAnalysis;
     categoryScore := JS.round1 adjustedScore;
     improvementAreas := improvementAreas categoryAnalysis |}.

(** *** Values read from the reply of the edge function *)

(** [JSON.parse(JSON.stringify(v))]: properties of value [undefined]
    are left out, and [undefined] in an array becomes [null]. *)
Fixpoint overWire (v : JSValue) : JSValue :=
  match v with
  | JArray items =>
      JArray
        (List.map
           (λ item, match item with
                    | JUndefined => JNull
                    | _ => overWire item
                    end) items)
  | JObject properties =>
      JObject
        ((fix go (l : list (string * JSValue)) : list (string * JSValue) :=
            match l with
            | [] => []
            | (_, JUndefined) :: l => go l
            | (key, value) :: l => (key, overWire value) :: go l
            end) properties)
  | _ => v
  end.

(** [v.key] for the keys read below, none of which is a property of an
    array, a string, a number or a boolean: such a value yields
    [undefined], and [null] and [undefined] throw. *)
Definition get (v : JSValue) (key : string) : Result JSValue :=
  match v with
  | JUndefined | JNull => Throw "Cannot read properties"
  | JObject properties =>
      Ok (default JUndefined (InterviewService.property properties key))
  | _ => Ok JUndefined
  end.

(** Truthiness of a value. *)
Definition truthy (v : JSValue) : bool :=
  match v with
  | JUndefined | JNull => false
  | JBool b => b
  | JNumber x => JS.truthy x
  | JString s => JS.truthy_string s
  | JArray _ | JObject _ => true
  end.

(** The body of a response of the edge function as the analyzer reads
    it with [response.json()]; [None] when there is no body to parse. *)
Definition responseData (response : Response) : option JSValue :=
  match body response with
  | NoBody => None
  | Success analysis =>
      Some (overWire
              (JObject [("success", JBool true); ("analysis", analysis)]))
  | Failure error =>
      Some (JObject [("success", JBool false); ("error", JString error)])
  end.

(** *** analyzeWithMistral *)

(** The analysis in the internal format: the values are those of the
    reply, as they are. *)
Record RawAnalysis := {
  raw_score : JSValue;
  raw_strengths : JSValue;
  raw_weaknesses : JSValue;
  raw_tips : JSValue;
  raw_detailedFeedback : JSValue;
  raw_categoryScore : JSValue;
  raw_improvementAreas : JSValue
}.

Inductive Outcome :=
| FromModel (analysis : RawAnalysis)
| Mock (analysis : AnalysisResult).

(** The [try] block of [analyzeWithMistral], given the reply parsed
    ([None] when the request or the parsing fails). *)
Definition convert (data : option JSValue) : Result RawAnalysis :=
  data ← match data with
         | Some data => Ok data
         | None => Throw "fetch failed"
         end;
  success ← get data "success";
  analysis ← (if negb (truthy success) then
                error ← get data "error";
                Throw (match error with
                       | JString message =>
                           if JS.truthy_string message then message
                           else "Failed to analyze answer"
                       | _ => "Failed to analyze answer"
                       end)
              else get data "analysis");
  score ← get analysis "score";
  strengths ← get analysis "strengths";
  weaknesses ← get analysis "weaknesses";
  improvements ← get analysis "improvements";
  overall_feedback ← get analysis "overall_feedback";
  Ok {| raw_score := score;
        raw_strengths := strengths;
        raw_weaknesses := weaknesses;
        raw_tips := improvements;
        raw_detailedFeedback := overall_feedback;
        raw_categoryScore := score;
        raw_improvementAreas := improvements |}.

Definition analyzeWithMistral (r : Q) (data : option JSValue)
    (request : AnalysisRequest) : Outcome :=
  match convert data with
  | Ok analysis => FromModel analysis
  | Throw _ => Mock (generateMockAnalysis r request)
  end.

End AnalyzeWithMistral.

(** ** Runs of the frontend service *)

Module ServiceRun.
Import InterviewService.

(** What happens to the service from outside: a session is started, an
    answer is submitted, or one of the timers set by [startSession] and
    [submitAnswer] asks the next question. A [submitAnswer] that throws
    leaves the service as it is. *)
Inductive Op :=
| Start (generated : string)
| Submit (now : Z) (r : Q) (questionId answerText : string)
| Ask (now : Z).

Definition step (st : State) (op : Op) : State :=
  match op with
  | Start generated => startSession generated st
  | Submit now r questionId answerText =>
      match submitAnswer now r st questionId answerText with
      | Some (st', _) => st'
      | None => st
      end
  | Ask now => (askNextQuestion now st).1
  end.

Definition run (st : State) (ops : list Op) : State := fold_left step ops st.

(** The identifiers of the question messages of the history. *)
Definition questionsAsked (st : State) : list string :=
  im_id <$> filter (λ m, im_type m = question) (messageHistory st).

(** The questions asked since the session started are the first
    questions of the bank, in the order of the bank. *)
Definition inOrder (st : State) : Prop :=
  (currentQuestionIndex st <= length (questionBank st))%nat
  ∧ questionsAsked st
    = q_id <$> take (currentQuestionIndex st) (questionBank st).

(** Every feedback recorded has a score on the scale from 1 to 10. *)
Definition scoresInRange (st : State) : Prop :=
  Forall (λ x, (1 <= x)%Q ∧ (x <= 10)%Q)
    (omap feedbackScore (messageHistory st)).

(** The expected keywords of all the templates of [generateFeedback]. *)
Definition allKeywords : list string := [
  "background"; "experience"; "motivation";
  "challenge"; "solution"; "result"; "collaboration";
  "systematic"; "tools"; "process"; "testing";
  "leadership"; "communication"; "motivation"; "change"
].

End ServiceRun.

(** ** The WebSocket client of the frontend *)

Module WebSocketClient.

Inductive ReadyState := CONNECTING | OPEN | CLOSING | CLOSED.

#[global] Instance ReadyState_eq_dec : EqDecision ReadyState.
Proof. solve_decision. Defined.

(** [ws] is the socket of the client with its state ([None] for
    [null]); [timers] holds the delays of the reconnections scheduled
    with [setTimeout] that have not run yet. *)
Record State := {
  ws : option ReadyState;
  reconnectAttempts : nat;
  timers : list Z
}.

Definition maxReconnectAttempts : nat := 5.
Definition reconnectDelay : Z := 1000.

Definition new : State :=
  {| ws := None; reconnectAttempts := 0; timers := [] |}.

(** The events emitted to the listeners, the frames sent, and the
    reconnections announced in the log with their delay. *)
Inductive Emitted :=
| Connected
| Disconnected (code : Z)
| SocketError
| Received (type : string)
| Sent (type : string)
| Reconnecting (attempt : nat) (delay : Z).

(** [connect]: a new socket, not open yet. *)
Definition connect (st : State) : State :=
  {| ws := Some CONNECTING; reconnectAttempts := reconnectAttempts st;
     timers := timers st |}.

Definition onopen (st : State) : State * list Emitted :=
  ({| ws := (λ _, OPEN) <$> ws st; reconnectAttempts := 0;
      timers := timers st |},
   [Connected]).

Definition attemptReconnect (st : State) : State * list Emitted :=
  let attempts := S (reconnectAttempts st) in
  let delay := reconnectDelay * 2 ^ (Z.of_nat attempts - 1) in
  ({| ws := ws st; reconnectAttempts := attempts;
      timers := timers st ++ [delay] |},
   [Reconnecting attempts delay]).

Definition onclose (code : Z) (st : State) : State * list Emitted :=
  let st1 :=
    {| ws := (λ _, CLOSED) <$> ws st;
       reconnectAttempts := reconnectAttempts st; timers := timers st |} in
  if negb (code =? 1000)
     && (reconnectAttempts st1 <? maxReconnectAttempts)%nat
  then
    let '(st2, events) := attemptReconnect st1 in
    (st2, Disconnected code :: events)
  else (st1, [Disconnected code]).

(** A reconnection scheduled earlier runs: [connect] again. *)
Definition fire (st : State) : State :=
  match timers st with
  | [] => st
  | _ :: timers =>
      connect {| ws := ws st; reconnectAttempts := reconnectAttempts st;
                 timers := timers |}
  end.

Definition send (type : string) (st : State) : list Emitted :=
  match ws st with
  | Some OPEN => [Sent type]
  | _ => []
  end.

Definition disconnect (st : State) : State :=
  match ws st with
  | Some _ =>
      {| ws := None; reconnectAttempts := reconnectAttempts st;
         timers := timers st |}
  | None => st
  end.

Definition isConnected (st : State) : bool :=
  bool_decide (ws st = Some OPEN).

(** What happens to the client: calls of its methods, events of its
    socket, and timers.  A message carries the [type] of the parsed
    frame, or [None] when [JSON.parse] throws. *)
Inductive Op :=
| Connect
| Open
| Close (code : Z)
| Message (type : option string)
| Fail
| Fire
| Send (type : string)
| Disconnect.

Definition step (st : State) (op : Op) : State * list Emitted :=
  match op with
  | Connect => (connect st, [])
  | Open => onopen st
  | Close code => onclose code st
  | Message (Some type) => (st, [Received type])
  | Message None => (st, [])
  | Fail => (st, [SocketError])
  | Fire => (fire st, [])
  | Send type => (st, send type st)
  | Disconnect => (disconnect st, [])
  end.

Fixpoint run (st : State) (ops : list Op) : State * list Emitted :=
  match ops with
  | [] => (st, [])
  | op :: ops =>
      let '(st1, events1) := step st op in
      let '(st2, events2) := run st1 ops in
      (st2, events1 ++ events2)
  end.

(** The delays of the reconnections announced in a list of events. *)
Definition delays (events : list Emitted) : list Z :=
  omap (λ e, match e with Reconnecting _ delay => Some delay | _ => None end)
    events.

(** The closes of a list of operations that are not normal closes. *)
Definition abnormalCloses (ops : list Op) : nat :=
  length
    (List.filter
       (λ op, match op with Close code => negb (code =? 1000) | _ => false end)
       ops).

Definition isOpen (op : Op) : bool :=
  match op with Open => true | _ => false end.

End WebSocketClient.

(** ** The Frontend agent: connections and buffered messages *)

Module FrontendAgent.
Import AnalyzeAnswer.

Record BackendMessage := {
  bm_id : string;
  bm_from : string;
  bm_type : string;
  bm_content : JSValue;
  bm_sessionId : string;
  bm_timestamp : Z
}.

(** The value kept for a session in [activeConnections]: a falsy value
    ([null], [undefined]), or an object, which has a [send] method or
    has none. *)
Inductive Connection := Falsy | Socket (send : bool).

Record State := {
  activeConnections : gmap string Connection;
  messageBuffer : gmap string (list BackendMessage)
}.

Definition new : State :=
  {| activeConnections := ∅; messageBuffer := ∅ |}.

(** [connection.send(JSON.stringify(message))]: the event names the
    object whose text is sent. *)
Inductive Emitted := Sent (sessionId : string) (message : JSValue).

Definition nullish (v : JSValue) : bool :=
  match v with JUndefined | JNull => true | _ => false end.

Definition getMessageHistory (sessionId : string) (st : State)
  : list BackendMessage :=
  default [] (messageBuffer st !! sessionId).

(** [messageBuffer.get(sessionId).push(entry)], after the buffer of the
    session has been created if it was missing. *)
Definition push (sessionId : string) (entry : BackendMessage) (st : State)
  : State :=
  {| activeConnections := activeConnections st;
     messageBuffer :=
       <[sessionId := getMessageHistory sessionId st ++ [entry]]>
         (messageBuffer st) |}.

(** [sendToFrontend] yields the state, what was sent, and whether it
    threw: with a connection it reads [message.type] for the log, which
    throws when [message] is [null] or [undefined]. *)
Definition sendToFrontend
    (now : Z) (sessionId : string) (message : JSValue) (st : State)
  : State * list Emitted * bool :=
  match activeConnections st !! sessionId with
  | Some (Socket send) =>
      if nullish message then (st, [], true)
      else (st, if send then [Sent sessionId message] else [], false)
  | _ =>
      (push sessionId
         {| bm_id := "buffered-" +:+ pretty now;
            bm_from := "frontend-agent";
            bm_type := "buffered";
            bm_content := message;
            bm_sessionId := sessionId;
            bm_timestamp := now |} st,
       [], false)
  end.

(** [bufferedMessages.forEach(...)]: the entries the array has when the
    loop starts are visited in order; entries pushed meanwhile are not.
    A call that throws ends the loop. *)
Fixpoint forEachBuffered
    (now : Z) (sessionId : string) (entries : list BackendMessage)
    (st : State) : State * list Emitted * bool :=
  match entries with
  | [] => (st, [], false)
  | entry :: entries =>
      if String.eqb (bm_type entry) "buffered" then
        let '(st1, events1, thrown) :=
          sendToFrontend now sessionId (bm_content entry) st in
        if thrown then (st1, events1, true)
        else
          let '(st2, events2, thrown) :=
            forEachBuffered now sessionId entries st1 in
          (st2, events1 ++ events2, thrown)
      else forEachBuffered now sessionId entries st
  end.

(** [handleConnectionEstablished]: the buffer is emptied unless the
    loop threw. *)
Definition handleConnectionEstablished
    (now : Z) (sessionId : string) (connection : Connection) (st : State)
  : State * list Emitted * bool :=
  let st1 :=
    {| activeConnections := <[sessionId := connection]> (activeConnections st);
       messageBuffer := messageBuffer st |} in
  let bufferedMessages := getMessageHistory sessionId st1 in
  let '(st2, events, thrown) :=
    forEachBuffered now sessionId bufferedMessages st1 in
  if thrown then (st2, events, true)
  else
    ({| activeConnections := activeConnections st2;
        messageBuffer := <[sessionId := []]> (messageBuffer st2) |},
     events, false).

(** Messages sent to the frontend one after the other, each at its
    time; none of them throws when there is no connection. *)
Definition sendAll
    (sessionId : string) (messages : list (Z * JSValue)) (st : State)
  : State :=
  fold_left
    (λ st message, (sendToFrontend message.1 sessionId message.2 st).1.1)
    messages st.

(** The contents of the entries of a buffer that are of type
    ['buffered']. *)
Definition bufferedContents (entries : list BackendMessage) : list JSValue :=
  bm_content
  <$> List.filter (λ entry, String.eqb (bm_type entry) "buffered") entries.

Definition connected (sessionId : string) (st : State) : bool :=
  match activeConnections st !! sessionId with
  | Some (Socket _) => true
  | _ => false
  end.

End FrontendAgent.

(** ** Numbers as they are: IEEE 754 doubles *)

(** The definitions above compute with exact rationals, which is what
    the properties of the order of the questions, of the records of the
    sessions and of the bounds of the scores need. A result that
    depends on the rounding of an operation is not the same in exact
    arithmetic and in the arithmetic of JavaScript: the index
    [Math.floor(Math.random() * n)], the averages and the trend are
    therefore defined again below, on doubles, with the operations of
    [SpecFloat] (the specification of IEEE 754 arithmetic of the
    standard library) at precision 53 and maximal exponent 1024. *)

Module Double.

Definition double : Type := spec_float.

Definition prec : Z := 53.
Definition emax : Z := 1024.

Definition add : double → double → double := SFadd prec emax.
Definition sub : double → double → double := SFsub prec emax.
Definition mul : double → double → double := SFmul prec emax.
Definition div : double → double → double := SFdiv prec emax.

(** [x > y] and [x < y]: false when either is [NaN]. *)
Definition gt (x y : double) : bool := SFltb y x.
Definition lt (x y : double) : bool := SFltb x y.

(** The double of an integer: the integer itself when it has at most
    53 bits, as the length of an array has. *)
Definition ofZ (n : Z) : double := binary_normalize prec emax n 0 false.
Definition ofNat (n : nat) : double := ofZ (Z.of_nat n).

Definition zero : double := S754_zero false.
Definition one : double := ofZ 1.
Definition ten : double := ofZ 10.

(** The literal [0.5]. *)
Definition half : double := binary_normalize prec emax 1 (-1) false.

(** The decimal literal of [k / 10] ([7.5], [8.1]): the double nearest
    to that rational. *)
Definition tenths (k : Z) : double := div (ofZ k) ten.

(** The values that are doubles; the others are pairs of a mantissa
    and an exponent that no number has. *)
Definition valid (x : double) : bool := valid_binary prec emax x.

(** What [Math.random()] returns: a double at least 0 and less than
    1. *)
Definition random (r : double) : bool :=
  valid r && SFleb zero r && SFltb r one.

(** Truthiness of a number: every number but the zeros and [NaN]. *)
Definition truthy (x : double) : bool :=
  match x with
  | S754_zero _ | S754_nan => false
  | _ => true
  end.

(** [Math.floor(x)] as an integer; [None] when [x] is [NaN] or
    infinite. ([Z.shiftl] by a negative number of bits is the division
    by the power of two, rounded down.) *)
Definition floorZ (x : double) : option Z :=
  match x with
  | S754_zero _ => Some 0
  | S754_finite s m e => Some (Z.shiftl (cond_Zopp s (Zpos m)) e)
  | S754_infinity _ | S754_nan => None
  end.

(** [arr[Math.floor(x)]]: [undefined] unless the floor is the index of
    an element. *)
Definition atFloor {A} (arr : list A) (x : double) : option A :=
  floorZ x ≫= JS.index arr.

(** [Math.round(x)]: the integer nearest to [x], the greater one when
    two are as near, computed exactly: [floor (x + 1/2)]. A number
    whose exponent is not negative is an integer already; a result
    that is zero has the sign of [x]. *)
Definition Math_round (x : double) : double :=
  match x with
  | S754_finite s m e =>
      if 0 <=? e then x
      else
        let rounded :=
          Z.shiftl (2 * cond_Zopp s (Zpos m) + 2 ^ (- e)) (e - 1) in
        if rounded =? 0 then S754_zero s else ofZ rounded
  | _ => x
  end.

(** The rational that a finite double is. *)
Definition toQ (x : double) : Q :=
  match x with
  | S754_finite s m e =>
      if 0 <=? e then inject_Z (cond_Zopp s (Zpos m) * 2 ^ e)
      else cond_Zopp s (Zpos m) # Z.to_pos (2 ^ (- e))
  | _ => 0%Q
  end.

(** [arr.reduce((sum, x) => sum + x, 0)] *)
Definition sum (arr : list double) : double := fold_left add arr zero.

(** [Math.round(x * 10) / 10] *)
Definition round1 (x : double) : double := div (Math_round (mul x ten)) ten.

End Double.

(** *** The functions that depend on the rounding *)

Module Binary64.
Import Double.

(** [InterviewerAgent.selectNextQuestion] at [Math.random() = r]. *)
Definition selectNextQuestion
    (st : InterviewerAgent.State) (sessionId : string) (r : double)
    : option InterviewQuestion :=
  match InterviewerAgent.sessionContext st !! sessionId with
  | None => None
  | Some ctx =>
      let bank := InterviewerAgent.questionBank st in
      if decide
           (length (InterviewerAgent.availableQuestions bank ctx) = 0%nat)
      then
        if decide
             (length (InterviewerAgent.remainingQuestions bank ctx) = 0%nat)
        then None
        else JS.index (InterviewerAgent.remainingQuestions bank ctx) 0
      else
        let selected := InterviewerAgent.selectedQuestions bank ctx in
        atFloor selected (mul r (ofNat (length selected)))
  end.

(** The analyses of the Analyzer agent, with their scores. *)
Record AnalysisResult := {
  score : double;
  strengths : list string;
  weaknesses : list string;
  tips : list string;
  detailedFeedback : string;
  categoryScore : double;
  improvementAreas : list string
}.

Record SessionStats := {
  averageScore : double;
  totalQuestions : nat;
  strongestArea : string;
  weakestArea : string;
  overallTrend : string
}.

(** [arr.reduce((sum, score) => sum + score, 0) / arr.length] *)
Definition average (arr : list double) : double :=
  div (sum arr) (ofNat (length arr)).

(** [AnalyzerAgent.getSessionStats] on the analyses of a session (what
    [this.analysisHistory.get(sessionId) || []] yields). *)
Definition getSessionStats (analyses : list AnalysisResult) : SessionStats :=
  if decide (length analyses = 0%nat) then
    {| averageScore := zero;
       totalQuestions := 0;
       strongestArea := "N/A";
       weakestArea := "N/A";
       overallTrend := "N/A" |}
  else
    let scores := score <$> analyses in
    let averageScore := average scores in
    let trend :=
      if (3 <=? length scores)%nat then
        let firstHalf := take (length scores / 2) scores in
        let secondHalf := drop (length scores / 2) scores in
        let firstAvg := average firstHalf in
        let secondAvg := average secondHalf in
        if gt secondAvg (add firstAvg half) then "improving"
        else if lt secondAvg (sub firstAvg half) then "declining"
        else "stable"
      else "stable" in
    {| averageScore := round1 averageScore;
       totalQuestions := length analyses;
       strongestArea :=
         AnalyzerAgent.mostCommon (analyses ≫= strengths) "Communication";
       weakestArea :=
         AnalyzerAgent.mostCommon (analyses ≫= weaknesses) "Specificity";
       overallTrend := trend |}.

(** The messages of the frontend service. *)
Record InterviewMessage := {
  im_id : string;
  im_type : InterviewService.MessageType;
  im_content : string;
  im_timestamp : Z;
  im_feedback : option AnalysisResult
}.

(** [score || 0]: the score, or 0 when it is a zero or [NaN]. *)
Definition orZero (x : double) : double := if truthy x then x else zero.

(** [msg.feedback?.score || 0] *)
Definition scoreOrZero (m : InterviewMessage) : double :=
  match im_feedback m with
  | Some f => orZero (score f)
  | None => zero
  end.

(** [InterviewService.calculateAverageScore] on the history of the
    messages of the service. *)
Definition calculateAverageScore (messageHistory : list InterviewMessage)
    : double :=
  let feedbackMessages :=
    filter (λ m, im_type m = InterviewService.feedback
                 ∧ is_Some (im_feedback m)) messageHistory in
  if decide (length feedbackMessages = 0%nat) then zero
  else
    let totalScore :=
      fold_left (λ sum msg, add sum (scoreOrZero msg)) feedbackMessages zero in
    round1 (div totalScore (ofNat (length feedbackMessages))).


(** **** Means and rounding, as the specification words them *)

(** The arithmetic mean of a list of numbers: their sum, taken from
    the first to the last, divided by their number. *)
Definition mean (l : list double) : double :=
  div (fold_left add l zero) (ofNat (length l)).

(** A number rounded to one decimal place: ten times the number,
    rounded to the nearest integer, divided by ten. *)
Definition roundedToOneDecimal (x : double) : double :=
  div (Math_round (mul x ten)) ten.

(** *** Samples *)

(** An analysis of score [k / 10]. *)
Definition scored (k : Z) : AnalysisResult :=
  {| score := tenths k;
     strengths := ["Clear communication"];
     weaknesses := ["Could provide more specific examples"];
     tips := [];
     detailedFeedback := "";
     categoryScore := tenths k;
     improvementAreas := [] |}.

(** The message of a feedback of score [k / 10]. *)
Definition feedbackOf (k : Z) : InterviewMessage :=
  {| im_id := "feedback-1700000000000";
     im_type := InterviewService.feedback;
     im_content := "";
     im_timestamp := 1700000000000;
     im_feedback := Some (scored k) |}.

(** The double [0x1.5555555555555p-2], the one just below a third. *)
Definition third : double := S754_finite false 6004799503160661 (-54).

End Binary64.

(** ** Further sample runs *)

Module Samples.

(** Six rounds of the sample session, each answer scored 7. *)
Definition sixRounds : list Dialogue.Round :=
  replicate 6
    {| Dialogue.r_env := Scenario.env (1 # 2);
       Dialogue.r_feedback := Some {| InterviewerAgent.pf_score := Some 7%Q |};
       Dialogue.r_answer := "An answer." |}.

Definition finished : InterviewerAgent.State :=
  Dialogue.rounds Scenario.sessionId Scenario.started sixRounds.

(** The request of the analysis of an answer to a technical question. *)
Definition technicalRequest : AnalyzeWithMistral.AnalysisRequest :=
  {| AnalyzeWithMistral.rq_questionId := "technical-1";
     AnalyzeWithMistral.rq_question := Some "Walk me through your approach to debugging a complex technical issue. What tools and methodologies do you use?";
     AnalyzeWithMistral.rq_answer := "I reproduce the issue, then bisect it.";
     AnalyzeWithMistral.rq_expectedElements := None;
     AnalyzeWithMistral.rq_category := Some "technical" |}.

(** An environment of the edge function in which the model answers
    with [content]. *)
Definition answering (content : string) : AnalyzeAnswer.Env :=
  {| AnalyzeAnswer.MISTRAL_API_KEY := Some "key";
     AnalyzeAnswer.fetch := AnalyzeAnswer.HttpResponse true 200 (Some content);
     AnalyzeAnswer.JSON_parse := Scenario.parseLiteral |}.

(** A master agent with one session, created while the network was
    reachable, and messages of that session. *)
Definition withSession : MasterAgent.State :=
  (MasterAgent.createSession Scenario.reachable 1700000000000
     "1700000000000-k3j9x2m1q" "general" MasterAgent.new).1.

Definition messageTo (recipient : string) : MasterAgent.AgentMessage :=
  {| MasterAgent.am_id := "answer-1700000000000";
     MasterAgent.am_from := "frontend-agent";
     MasterAgent.am_to := recipient;
     MasterAgent.am_type := "answer";
     MasterAgent.am_content := "An answer.";
     MasterAgent.am_sessionId := Scenario.sessionId;
     MasterAgent.am_timestamp := 1700000000000 |}.

(** A network on which every request fails. *)
Definition unreachable : MasterAgent.Network := λ _, Some "fetch failed".

End Samples.

(** * Properties *)

(** ** Floors and random indices *)

Module JSFacts.

Lemma Qfloor_spec (x : Q) (z : Z) :
  Qfloor x = z ↔ (inject_Z z <= x)%Q ∧ (x < inject_Z (z + 1))%Q.
Proof.
  split.
  - intros <-. split; [apply Qfloor_le | apply Qlt_floor].
  - intros [Hle Hlt].
    apply Qfloor_resp_le in Hle. rewrite Qfloor_Z in Hle.
    assert (Qfloor x < z + 1); [|lia].
    rewrite Zlt_Qlt. eapply Qle_lt_trans; [apply Qfloor_le | exact Hlt].
Qed.

Lemma ofNat_pos (n : nat) : (0 < n)%nat → (0 < JS.ofNat n)%Q.
Proof.
  intros H. unfold JS.ofNat. change 0%Q with (inject_Z 0).
  rewrite <- Zlt_Qlt. lia.
Qed.

Lemma randomIndex_interval (r : Q) (n : nat) (i : Z) :
  (0 < n)%nat →
  JS.randomIndex r n = i
  ↔ (inject_Z i / JS.ofNat n <= r)%Q ∧ (r < inject_Z (i + 1) / JS.ofNat n)%Q.
Proof.
  intros Hn. pose proof (ofNat_pos n Hn) as Hpos.
  unfold JS.randomIndex, JS.Math_floor. rewrite Qfloor_spec.
  split; intros [H1 H2]; split.
  - apply Qle_shift_div_r; assumption.
  - apply Qlt_shift_div_l; assumption.
  - assert (E : (inject_Z i / JS.ofNat n * JS.ofNat n == inject_Z i)%Q)
      by (field; lra).
    rewrite <- E. apply Qmult_le_compat_r; lra.
  - assert (E : (inject_Z (i + 1) / JS.ofNat n * JS.ofNat n
                 == inject_Z (i + 1))%Q) by (field; lra).
    rewrite <- E. apply Qmult_lt_compat_r; lra.
Qed.

Lemma randomIndex_range (r : Q) (n : nat) :
  (0 <= r)%Q → (r < 1)%Q → (0 < n)%nat →
  0 <= JS.randomIndex r n < Z.of_nat n.
Proof.
  intros H0 H1 Hn. pose proof (ofNat_pos n Hn) as Hpos.
  unfold JS.randomIndex, JS.Math_floor. split.
  - change 0 with (Qfloor (inject_Z 0)) at 1. apply Qfloor_resp_le.
    change (inject_Z 0) with 0%Q. apply Qmult_le_0_compat; lra.
  - rewrite Zlt_Qlt. eapply Qle_lt_trans; [apply Qfloor_le|].
    assert (E : (1 * JS.ofNat n == inject_Z (Z.of_nat n))%Q)
      by (unfold JS.ofNat; ring).
    rewrite <- E. apply Qmult_lt_compat_r; assumption.
Qed.

End JSFacts.

(** ** Question selection and session records *)

Module InterviewerAgentFacts.
Import InterviewerAgent.

Section Filters.
Context {A : Type} (P : A → Prop) `{!∀ x, Decision (P x)}.

Lemma head_filter_first (l : list A) (x : A) :
  head (filter P l) = Some x →
  ∃ before after,
    l = before ++ x :: after ∧ P x ∧ Forall (λ y, ¬ P y) before.
Proof.
  induction l as [|y l IH]; [done|].
  rewrite filter_cons. destruct (decide (P y)) as [Hy|Hy]; simpl.
  - intros [= ->]. by exists [], l.
  - intros (before & after & -> & Hx & Hb)%IH.
    exists (y :: before), after. by repeat constructor.
Qed.

Lemma filter_nil_none (l : list A) :
  filter P l = [] ↔ ∀ x, x ∈ l → ¬ P x.
Proof.
  split.
  - intros Hnil x Hx HP.
    assert (x ∈ filter P l) as Hin by (apply list_elem_of_filter; done).
    rewrite Hnil in Hin. by apply elem_of_nil in Hin.
  - intros Hnone. destruct (filter P l) as [|x l'] eqn:E; [done|].
    assert (x ∈ filter P l) as [HP Hx]%list_elem_of_filter
      by (rewrite E; left).
    by destruct (Hnone x Hx).
Qed.
End Filters.

Lemma index_0_head {A} (l : list A) : JS.index l 0 = head l.
Proof. unfold JS.index. simpl. by destruct l. Qed.

(** The entries of a session carry no category: the filter on the
    category keeps every available question. *)
Lemma lastCategory_undefined (ctx : SessionContext) : lastCategory ctx = None.
Proof. unfold lastCategory. by destruct (last _). Qed.

Lemma differentCategoryQuestions_all bank ctx :
  differentCategoryQuestions bank ctx = availableQuestions bank ctx.
Proof.
  unfold differentCategoryQuestions. rewrite lastCategory_undefined.
  induction (availableQuestions bank ctx) as [|q l IH]; [done|].
  rewrite filter_cons. simpl. by rewrite IH.
Qed.

(** Hence the candidates are always all the available questions. *)
Lemma selectedQuestions_all bank ctx :
  selectedQuestions bank ctx = availableQuestions bank ctx.
Proof.
  unfold selectedQuestions. rewrite differentCategoryQuestions_all.
  by case_decide.
Qed.

Lemma selectedQuestions_available bank ctx q :
  q ∈ selectedQuestions bank ctx → q ∈ availableQuestions bank ctx.
Proof.
  unfold selectedQuestions, differentCategoryQuestions.
  case_decide; [|done]. by intros [_ ?]%list_elem_of_filter.
Qed.

Lemma selectedQuestions_nonempty bank ctx :
  availableQuestions bank ctx ≠ [] → selectedQuestions bank ctx ≠ [].
Proof.
  unfold selectedQuestions. case_decide as H; [|done].
  intros _ E. rewrite E in H. simpl in H. lia.
Qed.

Lemma availableQuestions_spec bank ctx q :
  q ∈ availableQuestions bank ctx
  ↔ q ∈ bank ∧ (q_id q ∉ askedQuestionIds ctx)
    ∧ (q_difficulty q = difficulty ctx ∨ questionsAsked ctx = []).
Proof.
  unfold availableQuestions. rewrite list_elem_of_filter.
  rewrite length_zero_iff_nil. tauto.
Qed.

Lemma index_random {A} (l : list A) (r : Q) :
  (0 <= r)%Q → (r < 1)%Q → l ≠ [] →
  ∃ x, JS.index l (JS.randomIndex r (length l)) = Some x
       ∧ l !! Z.to_nat (JS.randomIndex r (length l)) = Some x.
Proof.
  intros H0 H1 Hl.
  assert (0 < length l)%nat as Hlen by (destruct l; [done | simpl; lia]).
  pose proof (JSFacts.randomIndex_range r (length l) H0 H1 Hlen) as [Hlo Hhi].
  unfold JS.index. destruct (Z.ltb_spec (JS.randomIndex r (length l)) 0); [lia|].
  destruct (lookup_lt_is_Some_2 l (Z.to_nat (JS.randomIndex r (length l))))
    as [x Hx]; [lia|]. by exists x.
Qed.

Lemma selectNextQuestion_available st sessionId ctx r :
  sessionContext st !! sessionId = Some ctx →
  availableQuestions (questionBank st) ctx ≠ [] →
  selectNextQuestion st sessionId r
  = JS.index (selectedQuestions (questionBank st) ctx)
      (JS.randomIndex r (length (selectedQuestions (questionBank st) ctx))).
Proof.
  intros Hctx Hne. unfold selectNextQuestion. rewrite Hctx. simpl.
  case_decide as E; [|done]. by apply length_zero_iff_nil in E.
Qed.

Lemma selectNextQuestion_remaining st sessionId ctx r :
  sessionContext st !! sessionId = Some ctx →
  availableQuestions (questionBank st) ctx = [] →
  selectNextQuestion st sessionId r
  = head (remainingQuestions (questionBank st) ctx).
Proof.
  intros Hctx Hnil. unfold selectNextQuestion. rewrite Hctx. simpl.
  rewrite Hnil. simpl. case_decide as E.
  - apply length_zero_iff_nil in E. by rewrite E.
  - apply index_0_head.
Qed.

Lemma selectNextQuestion_none_iff st sessionId ctx r :
  sessionContext st !! sessionId = Some ctx →
  (0 <= r)%Q → (r < 1)%Q →
  selectNextQuestion st sessionId r = None
  ↔ ∀ q, q ∈ questionBank st → q_id q ∈ askedQuestionIds ctx.
Proof.
  intros Hctx H0 H1. split.
  - intros Hnone.
    destruct (decide (availableQuestions (questionBank st) ctx = []))
      as [Hnil|Hne].
    + rewrite (selectNextQuestion_remaining _ _ ctx) in Hnone by done.
      assert (remainingQuestions (questionBank st) ctx = []) as Hrem
        by (by destruct (remainingQuestions _ _)).
      intros q Hq.
      destruct (decide (q_id q ∈ askedQuestionIds ctx)); [done|].
      by destruct (proj1 (filter_nil_none _ _) Hrem q Hq).
    + rewrite (selectNextQuestion_available _ _ ctx) in Hnone by done.
      destruct (index_random _ r H0 H1
                  (selectedQuestions_nonempty _ _ Hne)) as (q & Hq & _).
      congruence.
  - intros Hall.
    assert (availableQuestions (questionBank st) ctx = []) as Hnil.
    { apply filter_nil_none. intros q Hq [Hn _]. by apply Hn, Hall. }
    rewrite (selectNextQuestion_remaining _ _ ctx) by done.
    replace (remainingQuestions (questionBank st) ctx)
      with (@nil InterviewQuestion); [done|].
    symmetry. apply filter_nil_none. intros q Hq Hn. by apply Hn, Hall.
Qed.

(** C4. An interview ends exactly when the bank is exhausted. For a
    session of the interviewer, [selectNextQuestion] returns [null] if
    and only if the identifier of every question of the bank is among
    the questions asked; [handleNextQuestion] then sends the
    [interview-complete] command, and a question of the bank
    otherwise. In the frontend service, [askNextQuestion] ends the
    interview exactly when the index of the current question has
    reached the length of the bank. *)
Theorem interview_ends_when_bank_exhausted
    (env : Env) (st : State) (requestData : NextQuestionRequest)
    (ctx : SessionContext) (now' : Z) (service : InterviewService.State) :
  sessionContext st !! rq_sessionId requestData = Some ctx →
  (0 <= random env)%Q → (random env < 1)%Q →
  let exhausted :=
    ∀ q, q ∈ questionBank st → q_id q ∈ askedQuestionIds ctx in
  let emitted := (handleNextQuestion env st requestData).2 in
  (selectNextQuestion st (rq_sessionId requestData) (random env) = None
   ↔ exhausted)
  ∧ (exhausted ↔
     ∃ m summary,
       emitted = [SendMessage m] ∧ m_type m = "command"
       ∧ m_content m = InterviewComplete summary)
  ∧ (¬ exhausted ↔
     ∃ m q audioUrl,
       emitted = [SendMessage m] ∧ m_type m = "question"
       ∧ q ∈ questionBank st
       ∧ m_content m
         = QuestionContent (q_id q) (q_question q) (q_category q)
             audioUrl (q_context q))
  ∧ ((∃ summary,
        (InterviewService.askNextQuestion now' service).2
        = [InterviewService.InterviewCompleted summary])
     ↔ (length (InterviewService.questionBank service)
        <= InterviewService.currentQuestionIndex service)%nat).
Proof.
  intros Hctx H0 H1 exhausted emitted.
  pose proof (selectNextQuestion_none_iff st _ ctx _ Hctx H0 H1) as Hsel.
  split; [exact Hsel|].
  set (ctx' := setDifficulty ctx
                 (adjustDifficulty (previousFeedback requestData)
                    (difficulty ctx))).
  set (st' := setContext st (rq_sessionId requestData) ctx').
  assert (sessionContext st' !! rq_sessionId requestData = Some ctx')
    as Hctx' by apply lookup_insert_eq.
  pose proof (selectNextQuestion_none_iff st' _ ctx' _ Hctx' H0 H1) as Hsel'.
  change (questionBank st') with (questionBank st) in Hsel'.
  change (askedQuestionIds ctx') with (askedQuestionIds ctx) in Hsel'.
  fold exhausted in Hsel'.
  assert (emitted
          = match selectNextQuestion st' (rq_sessionId requestData)
                    (random env) with
            | None =>
                [SendMessage
                   {| m_id := ("end-", now env);
                      m_from := "interviewer-agent";
                      m_to := "frontend-agent";
                      m_type := "command";
                      m_content :=
                        InterviewComplete
                          (generateInterviewSummary env st'
                             (rq_sessionId requestData));
                      m_sessionId := rq_sessionId requestData;
                      m_timestamp := now env |}]
            | Some nextQuestion =>
                [SendMessage
                   (questionMessage env st' (rq_sessionId requestData)
                      nextQuestion)]
            end) as Hem.
  { unfold emitted, handleNextQuestion. rewrite Hctx. fold ctx' st'.
    by destruct (selectNextQuestion st' _ _). }
  assert (∀ q, selectNextQuestion st' (rq_sessionId requestData)
                 (random env) = Some q → q ∈ questionBank st) as Hbank.
  { intros q Hq.
    destruct (decide (availableQuestions (questionBank st') ctx' = []))
      as [Hnil|Hne].
    - rewrite (selectNextQuestion_remaining _ _ ctx') in Hq by done.
      apply head_filter_first in Hq as (b & a & Hb & _).
      change (questionBank st') with (questionBank st) in Hb.
      rewrite Hb. apply elem_of_app. right. left.
    - rewrite (selectNextQuestion_available _ _ ctx') in Hq by done.
      unfold JS.index in Hq. case_match; [done|].
      apply list_elem_of_lookup_2, selectedQuestions_available in Hq.
      by apply availableQuestions_spec in Hq as [? _]. }
  split; [|split].
  - split.
    + intros Hex%Hsel'. rewrite Hem, Hex. by eexists _, _.
    + intros (m & s & Hm & Ht & Hc). apply Hsel'.
      destruct (selectNextQuestion st' _ _) as [q|]; [|done].
      rewrite Hem in Hm. injection Hm as <-. by simpl in Ht.
  - split.
    + intros Hnex.
      destruct (selectNextQuestion st' _ _) as [q|] eqn:E.
      * rewrite Hem. eexists (questionMessage env st' _ q), q, _.
        split; [done|]. split; [done|]. split; [by apply Hbank|done].
      * by destruct Hnex; apply Hsel'.
    + intros (m & q & a & Hm & Ht & _) Hex%Hsel'.
      rewrite Hem, Hex in Hm. injection Hm as <-. by simpl in Ht.
  - unfold InterviewService.askNextQuestion.
    destruct (Nat.leb_spec (length (InterviewService.questionBank service))
                (InterviewService.currentQuestionIndex service)) as [Hle|Hlt].
    + split; [done|]. intros _. by eexists.
    + destruct (lookup_lt_is_Some_2 _ _ Hlt) as [q ->]. simpl.
      split; [by intros [? [=]] | lia].
Qed.

(** C4 at the sample session, in which one question was asked. *)
Lemma interview_ends_when_bank_exhausted_witness :
  ∃ ctx, sessionContext Scenario.answered !! Scenario.sessionId = Some ctx
         ∧ (selectNextQuestion Scenario.answered Scenario.sessionId 0 = None
            ↔ ∀ q, q ∈ questionBank Scenario.answered
                   → q_id q ∈ askedQuestionIds ctx).
Proof.
  eexists. split; [reflexivity|].
  refine (proj1 (interview_ends_when_bank_exhausted (Scenario.env 0)
                   Scenario.answered (Scenario.scored 7) _ 0
                   InterviewService.new _ _ _)).
  - reflexivity.
  - simpl. lra.
  - simpl. lra.
Defined.

(** *** Difficulty adaptation *)

Lemma difficulty_after_next env st requestData ctx :
  sessionContext st !! rq_sessionId requestData = Some ctx →
  difficulty
    <$> sessionContext (handleNextQuestion env st requestData).1
        !! rq_sessionId requestData
  = Some (adjustDifficulty (previousFeedback requestData) (difficulty ctx)).
Proof.
  intros Hctx. unfold handleNextQuestion. rewrite Hctx.
  destruct (selectNextQuestion _ _ _); simpl;
    by rewrite lookup_insert_eq.
Qed.

(** C2, as stated, fails: a score of zero is a numeric score below 6,
    and the difficulty of a session that is [hard] stays [hard]. *)
Lemma difficulty_adaptation_score_zero :
  ¬ ∀ env st requestData ctx s,
      sessionContext st !! rq_sessionId requestData = Some ctx →
      previousFeedback requestData ≫= pf_score = Some s →
      (s < 6)%Q →
      difficulty
        <$> sessionContext (handleNextQuestion env st requestData).1
            !! rq_sessionId requestData
      = Some easy.
Proof.
  intros H.
  assert (∃ ctx, sessionContext Scenario.promoted !! Scenario.sessionId
                 = Some ctx ∧ difficulty ctx = hard) as (ctx & Hctx & Hd)
    by (by eexists).
  specialize (H (Scenario.env 0) Scenario.promoted (Scenario.scored 0)
                ctx 0%Q Hctx eq_refl ltac:(lra)).
  rewrite (difficulty_after_next (Scenario.env 0) Scenario.promoted
             (Scenario.scored 0) ctx Hctx), Hd in H.
  discriminate H.
Qed.

(** C2, amended. When a next-question request carries previous
    feedback with a score [s] other than zero, the difficulty of the
    session becomes [hard] if [s >= 8], [medium] if [6 <= s < 8] and
    [easy] if [s < 6]; when it carries no score, or the score zero, the
    difficulty is left unchanged. *)
Theorem difficulty_adaptation
    (env : Env) (st : State) (requestData : NextQuestionRequest)
    (ctx : SessionContext) :
  sessionContext st !! rq_sessionId requestData = Some ctx →
  let after :=
    difficulty
      <$> sessionContext (handleNextQuestion env st requestData).1
          !! rq_sessionId requestData in
  match previousFeedback requestData ≫= pf_score with
  | Some s =>
      (¬ (s == 0)%Q →
         ((8 <= s)%Q → after = Some hard)
         ∧ ((6 <= s)%Q → (s < 8)%Q → after = Some medium)
         ∧ ((s < 6)%Q → after = Some easy))
      ∧ ((s == 0)%Q → after = Some (difficulty ctx))
  | None => after = Some (difficulty ctx)
  end.
Proof.
  intros Hctx after. unfold after.
  rewrite (difficulty_after_next _ _ _ ctx Hctx).
  unfold adjustDifficulty.
  destruct (previousFeedback requestData ≫= pf_score) as [s|]; [|done].
  unfold JS.truthy.
  destruct (Qeq_bool s 0) eqn:E0; simpl.
  - apply Qeq_bool_iff in E0. split; [intros Hn; by destruct Hn | done].
  - apply Qeq_bool_neq in E0. split; [|intros E; by destruct E0].
    intros _.
    destruct (Qle_bool 8 s) eqn:E8; [apply Qle_bool_iff in E8|];
      [|destruct (Qle_bool 6 s) eqn:E6; [apply Qle_bool_iff in E6|]].
    + repeat split; intros; try done; exfalso; lra.
    + assert (¬ (8 <= s)%Q) by (by rewrite <- Qle_bool_iff, E8).
      repeat split; intros; try done; exfalso; lra.
    + assert (¬ (6 <= s)%Q) by (by rewrite <- Qle_bool_iff, E6).
      repeat split; intros; try done; exfalso; lra.
Qed.

Lemma difficulty_adaptation_witness :
  difficulty
    <$> sessionContext
          (handleNextQuestion (Scenario.env 0) Scenario.answered
             (Scenario.scored 7)).1 !! Scenario.sessionId
  = Some medium.
Proof.
  assert (∃ ctx, sessionContext Scenario.answered !! Scenario.sessionId
                 = Some ctx) as (ctx & Hctx) by (by eexists).
  pose proof (difficulty_adaptation (Scenario.env 0) Scenario.answered
                (Scenario.scored 7) ctx Hctx) as [H _].
  apply H; [intros E; discriminate E | lra | lra].
Defined.

(** The categories of the bank the agent starts with are pairwise
    distinct: there an unasked question never has the category of a
    question already asked, whatever the filter on the category does. *)
Lemma initialQuestionBank_categories_distinct :
  NoDup (q_category <$> initialQuestionBank).
Proof.
  apply (bool_decide_unpack (NoDup (q_category <$> initialQuestionBank))).
  by vm_compute.
Qed.

(** In the sample session the question asked first is [technical-1],
    on the initial bank and on the extended one. *)
Lemma sample_first_question :
  (q_id <$> selectNextQuestion Scenario.started Scenario.sessionId (1 # 3)
   = Some "technical-1")
  ∧ (handleStartSession (Scenario.env (1 # 3)) Scenario.extended
       Scenario.sessionId "candidate").2
    = [SendMessage
         (questionMessage (Scenario.env (1 # 3)) Scenario.extended
            Scenario.sessionId
            {| q_id := "technical-1"; q_category := "technical";
               q_difficulty := medium;
               q_question := "Walk me through your approach to debugging a complex technical issue. What tools and methodologies do you use?";
               q_context := "Technical competency and systematic thinking assessment";
               q_expectedElements := ["systematic approach"; "tools mentioned"; "debugging strategies"; "documentation practices"] |})].
Proof. split; reflexivity. Qed.

(** *** Category diversification *)

(** C3 does not hold of the code. [handleCandidateAnswer] records the
    questions asked without their category, so that the last category
    read by [selectNextQuestion] is [undefined] and the filter on it
    keeps every available question ([differentCategoryQuestions_all]).
    On an agent with a second technical question: [technical-1] was
    asked last, the unasked [experience-1] has the difficulty of the
    session and another category, and yet the question selected at
    [Math.random() = 9/10] is technical. *)
Theorem category_diversification_not_applied :
  let st :=
    (handleNextQuestion (Scenario.env (9 # 10)) Scenario.extendedAnswered
       (Scenario.scored 7)).1 in
  ∃ ctx lastAsked other chosen,
    sessionContext st !! Scenario.sessionId = Some ctx
    ∧ lastAsked ∈ questionBank st
    ∧ questionId <$> last (questionsAsked ctx) = Some (q_id lastAsked)
    ∧ other ∈ availableQuestions (questionBank st) ctx
    ∧ q_category other ≠ q_category lastAsked
    ∧ selectNextQuestion st Scenario.sessionId (9 # 10) = Some chosen
    ∧ q_category chosen = q_category lastAsked
    ∧ (handleNextQuestion (Scenario.env (9 # 10)) Scenario.extendedAnswered
         (Scenario.scored 7)).2
      = [SendMessage
           (questionMessage (Scenario.env (9 # 10)) st Scenario.sessionId
              chosen)].
Proof.
  eexists _, _, _, _.
  split; [reflexivity|].
  split; [apply (list_elem_of_lookup_2 _ 2%nat); reflexivity|].
  split; [reflexivity|].
  split; [apply (list_elem_of_lookup_2 _ 0%nat); reflexivity|].
  split; [discriminate|].
  split; [reflexivity|].
  split; reflexivity.
Qed.

(** *** Session records *)

Lemma step_keeps_sessions env st op sessionId :
  is_Some (sessionContext st !! sessionId) →
  is_Some (sessionContext (step env st op).1 !! sessionId).
Proof.
  intros Hs.
  assert (∀ sid ctx,
            is_Some (<[sid := ctx]> (sessionContext st) !! sessionId))
    as Hins.
  { intros sid ctx. rewrite lookup_insert. by case_decide. }
  destruct op as [sid p | sid a q | rq | sid t | c | g q | ]; simpl.
  - unfold handleStartSession.
    destruct (selectNextQuestion _ _ _); apply Hins.
  - unfold handleCandidateAnswer.
    destruct (sessionContext st !! sid); [apply Hins | done].
  - unfold handleNextQuestion.
    destruct (sessionContext st !! rq_sessionId rq); [|done].
    destruct (selectNextQuestion _ _ _); apply Hins.
  - done.
  - done.
  - done.
  - done.
Qed.

(** C9. A session record is created under the session identifier
    given, with no question asked, difficulty [easy] and the time of
    its start; a candidate answer handled for a session appends exactly
    one entry to the questions asked in that session and leaves the
    other sessions as they are; and no operation of the agent, in runs
    of any length, removes a session record. *)
Theorem session_record_invariant (env : Env) (st : State) :
  (∀ sessionId candidateProfile,
     ∃ ctx,
       sessionContext (handleStartSession env st sessionId candidateProfile).1
         !! sessionId = Some ctx
       ∧ questionsAsked ctx = []
       ∧ difficulty ctx = easy
       ∧ startTime ctx = now env)
  ∧ (∀ sessionId answer qid ctx,
       sessionContext st !! sessionId = Some ctx →
       let st' := (handleCandidateAnswer env st sessionId answer qid).1 in
       (∃ entry,
          questionsAsked <$> sessionContext st' !! sessionId
          = Some (questionsAsked ctx ++ [entry])
          ∧ questionId entry = qid)
       ∧ (∀ other, other ≠ sessionId →
            sessionContext st' !! other = sessionContext st !! other))
  ∧ (∀ ops sessionId,
       is_Some (sessionContext st !! sessionId) →
       is_Some (sessionContext (run st ops) !! sessionId)).
Proof.
  split; [|split].
  - intros sessionId candidateProfile. unfold handleStartSession.
    eexists. split.
    + destruct (selectNextQuestion _ _ _); apply lookup_insert_eq.
    + done.
  - intros sessionId answer qid ctx Hctx st'. subst st'.
    unfold handleCandidateAnswer. rewrite Hctx. simpl. split.
    + eexists. rewrite lookup_insert_eq. simpl. split; reflexivity.
    + intros other Hne. by rewrite lookup_insert_ne.
  - intros ops. revert st.
    induction ops as [|[env' op] ops IH]; intros st sessionId Hs; [done|].
    simpl. apply IH. by apply step_keeps_sessions.
Qed.

Lemma session_record_invariant_witness :
  is_Some
    (sessionContext
       (run Scenario.started
          [(Scenario.env 0,
            CandidateAnswer Scenario.sessionId "An answer." "technical-1");
           (Scenario.env (1 # 2), NextQuestion (Scenario.scored 9));
           (Scenario.env 0, HealthCheck)])
       !! Scenario.sessionId).
Proof.
  apply (session_record_invariant (Scenario.env 0) Scenario.started).
  by eexists.
Defined.

End InterviewerAgentFacts.

(** ** Score aggregation and trend detection *)

Module AnalyzerAgentFacts.
Import AnalyzerAgent Statistics.

Lemma fold_left_total (l : list Q) (a : Q) :
  (fold_left Qplus l a == a + total l)%Q.
Proof.
  revert a. induction l as [|x l IH]; intros a; simpl.
  - ring.
  - rewrite IH. ring.
Qed.

Lemma sum_total (l : list Q) : (JS.sum l == total l)%Q.
Proof. unfold JS.sum. rewrite fold_left_total. ring. Qed.

Lemma average_mean (l : list Q) : (average l == mean l)%Q.
Proof. unfold average, mean, JS.ofNat. by rewrite sum_total. Qed.

Lemma round1_rounded (x : Q) : roundedToOneDecimal x (JS.round1 x).
Proof.
  unfold roundedToOneDecimal, JS.round1, JS.ofZ, JS.Math_round.
  pose proof (Qfloor_le (x * 10 + (1 # 2))) as Hle.
  pose proof (Qlt_floor (x * 10 + (1 # 2))) as Hlt.
  rewrite inject_Z_plus in Hlt.
  set (k := Qfloor (x * 10 + (1 # 2))) in *.
  split; [by exists k|].
  assert (inject_Z k / 10 == inject_Z k * (1 # 10))%Q as -> by (field).
  change (inject_Z 1) with 1%Q in Hlt.
  split; lra.
Qed.

Lemma rounded_proper (x x' y : Q) :
  (x == x')%Q → roundedToOneDecimal x y → roundedToOneDecimal x' y.
Proof.
  unfold roundedToOneDecimal. intros E (Hk & H1 & H2).
  split; [done|]. split; lra.
Qed.

Lemma round1_between (x : Q) :
  (1 <= x)%Q → (x <= 10)%Q → (1 <= JS.round1 x)%Q ∧ (JS.round1 x <= 10)%Q.
Proof.
  intros H1 H10. unfold JS.round1, JS.ofZ, JS.Math_round.
  assert (10 <= Qfloor (x * 10 + (1 # 2)) <= 100) as [Hlo Hhi].
  { split.
    - change 10 with (Qfloor (inject_Z 10)) at 1. apply Qfloor_resp_le.
      change (inject_Z 10) with 10%Q. lra.
    - change 100 with (Qfloor (inject_Z 100 + (1 # 2))).
      apply Qfloor_resp_le. change (inject_Z 100) with 100%Q. lra. }
  rewrite Zle_Qle in Hlo, Hhi.
  change (inject_Z 10) with 10%Q in Hlo.
  change (inject_Z 100) with 100%Q in Hhi.
  assert (∀ z, z / 10 == z * (1 # 10))%Q as E by (intros; field).
  rewrite E. split; lra.
Qed.

Lemma gt_spec (x y : Q) : JS.gt x y = true ↔ (y < x)%Q.
Proof.
  unfold JS.gt. rewrite negb_true_iff, <- not_true_iff_false, Qle_bool_iff.
  split; [apply Qnot_le_lt | apply Qlt_not_le].
Qed.

Lemma lt_spec (x y : Q) : JS.lt x y = true ↔ (x < y)%Q.
Proof.
  unfold JS.lt. rewrite negb_true_iff, <- not_true_iff_false, Qle_bool_iff.
  split; [apply Qnot_le_lt | apply Qlt_not_le].
Qed.

Lemma trendOf_spec (scores : list Q) :
  (3 <= length scores)%nat →
  let firstHalf := take (length scores / 2) scores in
  let secondHalf := drop (length scores / 2) scores in
  (trendOf scores = "improving"
   ↔ (mean firstHalf + (1 # 2) < mean secondHalf)%Q)
  ∧ (trendOf scores = "declining"
     ↔ (mean secondHalf < mean firstHalf - (1 # 2))%Q)
  ∧ (trendOf scores = "stable"
     ↔ (mean firstHalf - (1 # 2) <= mean secondHalf)%Q
       ∧ (mean secondHalf <= mean firstHalf + (1 # 2))%Q).
Proof.
  intros Hn firstHalf secondHalf. unfold trendOf.
  destruct (Nat.leb_spec 3 (length scores)) as [_|?]; [|lia].
  fold firstHalf secondHalf.
  pose proof (gt_spec (average secondHalf) (average firstHalf + (1 # 2)))
    as Hgt.
  pose proof (lt_spec (average secondHalf) (average firstHalf - (1 # 2)))
    as Hlt.
  pose proof (average_mean firstHalf) as E1.
  pose proof (average_mean secondHalf) as E2.
  destruct (JS.gt _ _).
  - assert (average firstHalf + (1 # 2) < average secondHalf)%Q
      by by apply Hgt.
    repeat split; intros; try done; first [lra | exfalso; lra].
  - assert (¬ (average firstHalf + (1 # 2) < average secondHalf)%Q)
      by (intros ?%Hgt; done).
    destruct (JS.lt _ _).
    + assert (average secondHalf < average firstHalf - (1 # 2))%Q
        by by apply Hlt.
      repeat split; intros; try done; first [lra | exfalso; lra].
    + assert (¬ (average secondHalf < average firstHalf - (1 # 2))%Q)
        by (intros ?%Hlt; done).
      repeat split; intros; try done; first [lra | exfalso; lra].
Qed.

End AnalyzerAgentFacts.

(** ** The frontend service: averages and feedback scores *)

Module InterviewServiceFacts.
Import InterviewService Statistics.

Lemma Math_min_le_l (x y : Q) : (JS.Math_min x y <= x)%Q.
Proof.
  unfold JS.Math_min. destruct (Qle_bool x y) eqn:E; [lra|].
  assert (¬ (x <= y)%Q) by (by rewrite <- Qle_bool_iff, E). lra.
Qed.

Lemma Math_min_le_r (x y : Q) : (JS.Math_min x y <= y)%Q.
Proof.
  unfold JS.Math_min. destruct (Qle_bool x y) eqn:E; [|lra].
  by apply Qle_bool_iff.
Qed.

Lemma Math_max_le_l (x y : Q) : (x <= JS.Math_max x y)%Q.
Proof.
  unfold JS.Math_max. destruct (Qle_bool x y) eqn:E; [|lra].
  by apply Qle_bool_iff.
Qed.

Lemma Math_max_lub (x y z : Q) :
  (x <= z)%Q → (y <= z)%Q → (JS.Math_max x y <= z)%Q.
Proof. unfold JS.Math_max. by destruct (Qle_bool x y). Qed.

Lemma fold_left_scores (l : list InterviewMessage) (a : Q) :
  (fold_left (λ sum msg, sum + scoreOrZero msg) l a
   == a + total (scoreOrZero <$> l))%Q.
Proof.
  revert a. induction l as [|m l IH]; intros a.
  - simpl. ring.
  - rewrite fmap_cons. cbn [fold_left total]. rewrite IH. ring.
Qed.

Lemma scoreOrZero_score (m : InterviewMessage) (f : AnalysisResult) :
  im_feedback m = Some f → (scoreOrZero m == score f)%Q.
Proof.
  intros E. unfold scoreOrZero, JS.truthy. rewrite E.
  destruct (Qeq_bool (score f) 0) eqn:E0; simpl; [|reflexivity].
  symmetry. by apply Qeq_bool_iff.
Qed.

Lemma feedbackScore_Some m f :
  im_type m = feedback → im_feedback m = Some f →
  feedbackScore m = Some (score f).
Proof. intros Ht Ef. unfold feedbackScore. by rewrite decide_True, Ef. Qed.

Lemma feedbackScore_None m :
  ¬ (im_type m = feedback ∧ is_Some (im_feedback m)) →
  feedbackScore m = None.
Proof.
  intros Hn. unfold feedbackScore. case_decide; [|done].
  destruct (im_feedback m) eqn:E; [|done]. destruct Hn. by split.
Qed.

Lemma feedback_scores (history : list InterviewMessage) :
  let messages :=
    filter (λ m, im_type m = feedback ∧ is_Some (im_feedback m)) history in
  length messages = length (omap feedbackScore history)
  ∧ (total (scoreOrZero <$> messages)
     == total (omap feedbackScore history))%Q.
Proof.
  induction history as [|m history [IHlen IHtotal]]; [done|].
  cbn zeta in *. rewrite filter_cons. cbn [omap list_omap].
  destruct (decide (im_type m = feedback ∧ is_Some (im_feedback m)))
    as [[Ht [f Ef]]|Hn].
  - rewrite (feedbackScore_Some m f Ht Ef), fmap_cons.
    cbn [length total]. split; [by rewrite IHlen|].
    by rewrite IHtotal, (scoreOrZero_score m f Ef).
  - by rewrite (feedbackScore_None m Hn).
Qed.

(** *** Feedback scores *)

Lemma fold_left_keywords (matches : string → bool) (l : list string) (a : Q) :
  (fold_left (λ score keyword, if matches keyword then score + 1 else score)
     l a
   == a + JS.ofNat (length (List.filter matches l)))%Q.
Proof.
  revert a. induction l as [|k l IH]; intros a.
  - unfold JS.ofNat. simpl. ring.
  - cbn [fold_left List.filter]. rewrite IH.
    destruct (matches k); [|reflexivity].
    cbn [length]. unfold JS.ofNat.
    rewrite Nat2Z.inj_succ, <- Z.add_1_r, inject_Z_plus. ring.
Qed.

Lemma calculateScore_le_9 (answer : string) (keywords : list string) :
  (calculateScore answer keywords <= 9)%Q.
Proof. unfold calculateScore. apply Math_min_le_l. Qed.

(** C10. The feedback generated by the frontend service for any
    question identifier, answer and value of [Math.random()] has
    [score] equal to [categoryScore]; the score lies between 1 and 10
    and is the rounding to one decimal place of a number between 1
    and 10. The raw score of [calculateScore] never exceeds 9: it is
    the minimum of 9 and the sum of the length points (at most 5), of
    one point for each expected keyword found in the answer, and of
    the length bonuses (at most 1). *)
Theorem feedback_score_bounds
    (st : State) (r : Q) (questionId answer : string)
    (keywords : list string) :
  let result := generateFeedback st r questionId answer in
  score result = categoryScore result
  ∧ (1 <= score result)%Q ∧ (score result <= 10)%Q
  ∧ (∃ x, (1 <= x)%Q ∧ (x <= 10)%Q ∧ roundedToOneDecimal x (score result))
  ∧ (calculateScore answer keywords <= 9)%Q
  ∧ (∃ lengthPoints bonus : Q,
       (lengthPoints <= 5)%Q ∧ (bonus <= 1)%Q
       ∧ (calculateScore answer keywords
          == JS.Math_min 9
               (lengthPoints
                + JS.ofNat
                    (length
                       (List.filter
                          (λ keyword,
                             includes (toLowerCase answer)
                               (toLowerCase keyword))
                          keywords))
                + bonus))%Q).
Proof.
  intros result. unfold result, generateFeedback.
  destruct (templateFor st questionId answer) as [category template].
  cbn [score categoryScore].
  set (finalScore :=
         JS.Math_max 1
           (JS.Math_min 10
              (t_score template + (r - (1 # 2)) * (3 # 2)))).
  assert (1 <= finalScore)%Q as H1 by apply Math_max_le_l.
  assert (finalScore <= 10)%Q as H10
    by (apply Math_max_lub; [lra | apply Math_min_le_l]).
  split; [reflexivity|].
  split; [by apply AnalyzerAgentFacts.round1_between|].
  split; [by apply AnalyzerAgentFacts.round1_between|].
  split.
  { exists finalScore. split; [done|]. split; [done|].
    apply AnalyzerAgentFacts.round1_rounded. }
  split; [apply calculateScore_le_9|].
  unfold calculateScore.
  set (wordCount := length (split space answer)).
  exists (JS.Math_min 5 (JS.ofNat wordCount / 20)),
    ((if (100 <? wordCount)%nat then 1 # 2 else 0)
     + (if (200 <? wordCount)%nat then 1 # 2 else 0))%Q.
  split; [apply Math_min_le_l|].
  split; [by destruct (100 <? wordCount)%nat, (200 <? wordCount)%nat|].
  pose proof
    (fold_left_keywords
       (λ keyword, includes (toLowerCase answer) (toLowerCase keyword))
       keywords (JS.Math_min 5 (JS.ofNat wordCount / 20))) as E.
  cbv beta in E.
  set (score1 := fold_left _ keywords _) in *.
  assert (∀ x y, (x == y)%Q → (JS.Math_min 9 x == JS.Math_min 9 y)%Q)
    as Hmin.
  { intros x y Exy. unfold JS.Math_min.
    rewrite (Qleb_comp 9%Q 9%Q (Qeq_refl 9%Q) x y Exy).
    by destruct (Qle_bool 9 y). }
  apply Hmin.
  destruct (100 <? wordCount)%nat, (200 <? wordCount)%nat; rewrite E; ring.
Qed.

End InterviewServiceFacts.

(** ** The edge function: parse with fallback *)

Module AnalyzeAnswerFacts.
Import AnalyzeAnswer.

(** C5. When the request is an analysis request with a question and
    an answer, the key is configured and the call of the model
    succeeds, but the content of its message is not parseable JSON (a
    text that does not parse, or no content at all), the function
    answers with status 200 and [success: true], and the analysis is
    the hardcoded fallback object: score 7, the two strengths, the two
    weaknesses and the two improvement tips below, the category of the
    request, and the overall feedback below. *)
Theorem parse_failure_falls_back
    (env : Env) (req : Request) (request : RequestBody)
    (code : Z) (content : option string) :
  method req ≠ "OPTIONS" →
  json req = Some request →
  truthyOpt (question request) = true →
  truthyOpt (answer request) = true →
  truthyOpt (MISTRAL_API_KEY env) = true →
  fetch env = HttpResponse true code content →
  (∀ text, content = Some text → JSON_parse env text = None) →
  serve env req
  = {| status := 200;
       headers := [
         ("Access-Control-Allow-Origin", "*");
         ("Access-Control-Allow-Headers",
          "authorization, x-client-info, apikey, content-type");
         ("Content-Type", "application/json")];
       body :=
         Success
           (JObject [
              ("score", JNumber 7);
              ("strengths",
               JArray [JString "Clear communication";
                       JString "Relevant experience mentioned"]);
              ("weaknesses",
               JArray [JString "Could provide more specific examples";
                       JString "Answer could be more structured"]);
              ("improvements",
               JArray [JString "Use the STAR method (Situation, Task, Action, Result)";
                       JString "Practice providing concrete examples"]);
              ("category", optString (category request));
              ("overall_feedback",
               JString "Good foundation but could be more detailed and structured.")]) |}.
Proof.
  intros Hmethod Hjson Hq Ha Hkey Hfetch Hparse.
  unfold serve. rewrite (proj2 (String.eqb_neq _ _) Hmethod).
  unfold analyze, mbind, Result_bind.
  rewrite Hjson, Hq, Ha, Hkey, Hfetch. cbn [negb orb].
  destruct content as [text|]; cbn [option_bind].
  - by rewrite (Hparse text eq_refl).
  - reflexivity.
Qed.

Lemma parse_failure_falls_back_witness :
  status (serve Scenario.proseEnv Scenario.analyzeRequest) = 200
  ∧ body (serve Scenario.proseEnv Scenario.analyzeRequest)
    = Success (fallbackAnalysis (Some "introduction")).
Proof.
  rewrite (parse_failure_falls_back Scenario.proseEnv
             Scenario.analyzeRequest
             {| question := Some "Tell me about yourself.";
                answer := Some "I build compilers.";
                category := Some "introduction";
                expectedElements := None |}
             200 (Some "The answer is clear but lacks examples."));
    [by split | discriminate | reflexivity..|].
  by intros text [= <-].
Defined.

End AnalyzeAnswerFacts.

(** ** The master agent: retries after routing failures *)

Module MasterAgentFacts.
Import MasterAgent.

Lemma requeues_skip : requeues (λ st _, (st, [])).
Proof.
  intros st m Hr. simpl. rewrite app_nil_r. repeat split; [done | lia].
Qed.

Lemma emitRoutingError_requeues st m error :
  routing st = true →
  routing (emitRoutingError st m error).1 = true
  ∧ messageQueue (emitRoutingError st m error).1
    = messageQueue st ++ failed (emitRoutingError st m error).2
  ∧ timers (emitRoutingError st m error).1
    = (timers st + length (failed (emitRoutingError st m error).2))%nat
  ∧ resent (emitRoutingError st m error).2 = [].
Proof.
  intros Hr. unfold emitRoutingError. rewrite Hr. simpl.
  repeat split; [done | lia].
Qed.

Lemma failed_app (e1 e2 : list Event) :
  failed (e1 ++ e2) = failed e1 ++ failed e2.
Proof. apply omap_app. Qed.

Lemma resent_app (e1 e2 : list Event) :
  resent (e1 ++ e2) = resent e1 ++ resent e2.
Proof. apply omap_app. Qed.

Lemma routeMessageBy_requeues broadcast net :
  requeues broadcast → requeues (routeMessageBy broadcast net).
Proof.
  intros Hb st m Hr. unfold routeMessageBy.
  destruct (sessions st !! am_sessionId m);
    [|by apply emitRoutingError_requeues].
  assert (routing (pushHistory st m) = true) as Hr' by done.
  destruct (_ || _).
  { destruct (net m).
    - by apply (emitRoutingError_requeues (pushHistory st m)).
    - simpl. rewrite app_nil_r. repeat split; [done | lia]. }
  destruct (String.eqb (am_to m) "frontend-agent").
  { simpl. rewrite app_nil_r. repeat split; [done | lia]. }
  destruct (String.eqb (am_to m) "all").
  - specialize (Hb (pushHistory st m) m Hr').
    destruct (broadcast (pushHistory st m) m) as [st' events].
    simpl in *. destruct Hb as (? & ? & ? & ?).
    rewrite failed_app, resent_app. simpl. rewrite !app_nil_r.
    by repeat split.
  - simpl. rewrite app_nil_r. repeat split; [done | lia].
Qed.

Lemma broadcastMessageBy_requeues route :
  requeues route → requeues (broadcastMessageBy route).
Proof.
  intros Hroute st m Hr. unfold broadcastMessageBy.
  cbn [fold_left fst snd].
  pose proof (Hroute st (withTo m "interviewer-agent") Hr) as H1.
  destruct (route st (withTo m "interviewer-agent")) as [st1 e1].
  simpl in H1. destruct H1 as (Hr1 & Hq1 & Ht1 & Hs1).
  pose proof (Hroute st1 (withTo m "analyzer-agent") Hr1) as H2.
  cbn [fst snd].
  destruct (route st1 (withTo m "analyzer-agent")) as [st2 e2].
  simpl in H2. destruct H2 as (Hr2 & Hq2 & Ht2 & Hs2).
  pose proof (Hroute st2 (withTo m "frontend-agent") Hr2) as H3.
  cbn [fst snd].
  destruct (route st2 (withTo m "frontend-agent")) as [st3 e3].
  simpl in H3. destruct H3 as (Hr3 & Hq3 & Ht3 & Hs3).
  cbn [fst snd app].
  rewrite !failed_app, !resent_app, !length_app, Hq3, Hq2, Hq1, Hs1, Hs2, Hs3.
  rewrite <- !app_assoc. repeat split; [done | lia].
Qed.

Lemma routeMessage_requeues net : requeues (routeMessage net).
Proof.
  apply routeMessageBy_requeues, broadcastMessageBy_requeues,
    routeMessageBy_requeues, requeues_skip.
Qed.

(** A message for a session that does not exist, alone in the queue
    with one timer pending: the timer sends it again, the routing
    fails, and the agent is back in the same state. *)
Lemma fireTimer_unknown_session net st m :
  routing st = true →
  sessions st !! am_sessionId m = None →
  messageQueue st = [m] → timers st = 1%nat →
  ∃ error, fireTimer net st = (st, [Retrying m; RoutingError m error]).
Proof.
  intros Hr Hs Hq Ht. destruct st as [r a s q t]. simpl in *. subst.
  unfold fireTimer, routeMessage, routeMessageBy, emitRoutingError.
  simpl. rewrite Hs. simpl. by eexists.
Qed.

Lemma fireTimers_unknown_session net st m n :
  routing st = true →
  sessions st !! am_sessionId m = None →
  messageQueue st = [m] → timers st = 1%nat →
  (fireTimers net n st).1 = st
  ∧ retries m (fireTimers net n st).2 = n.
Proof.
  intros Hr Hs Hq Ht. induction n as [|n [IHst IHn]]; [done|].
  destruct (fireTimer_unknown_session net st m Hr Hs Hq Ht) as [error E].
  cbn [fireTimers]. rewrite E.
  destruct (fireTimers net n st) as [st' events]. simpl in *.
  split; [done|].
  unfold retries in *. cbn [resent omap list_omap].
  fold (resent events). rewrite filter_cons, decide_True by done.
  simpl. by rewrite IHn.
Qed.

(** C8, as stated, fails: a message whose routing fails each time is
    sent again more than once. *)
Lemma message_resent_twice :
  ¬ ∀ net st m n,
      (retries m (fireTimers net n (routeMessage net st m).1).2 <= 1)%nat.
Proof.
  intros H.
  specialize (H Scenario.reachable new Scenario.strayMessage 2%nat).
  vm_compute in H. lia.
Qed.

(** C8, amended. Once [setupMessageRouting] has installed the
    handlers, every routing failure appends the failed message to the
    queue once and schedules one timer, and a timer that fires sends
    again at most one message: the head of the queue, when there is
    one. Sending again is a routing like any other, so that a failure
    queues the message again: a message for a session that does not
    exist, sent again from the head of the queue, is back at the end of
    the queue with a timer pending in place of the one that fired. The
    number of times a message is sent again is therefore not bounded:
    such a message, routed while the queue is empty and no timer is
    pending, has been sent again [n] times once [n] timers have fired,
    for every [n]. *)
Theorem retry_after_each_failure
    (net : Network) (st : State) (m : AgentMessage) :
  routing st = true →
  (messageQueue (routeMessage net st m).1
   = messageQueue st ++ failed (routeMessage net st m).2
   ∧ timers (routeMessage net st m).1
     = (timers st + length (failed (routeMessage net st m).2))%nat)
  ∧ (∀ queue,
       timers st ≠ 0%nat → messageQueue st = m :: queue →
       resent (fireTimer net st).2 = [m])
  ∧ (length (resent (fireTimer net st).2) <= 1)%nat
  ∧ (sessions st !! am_sessionId m = None →
     (∀ queue,
        timers st ≠ 0%nat → messageQueue st = m :: queue →
        messageQueue (fireTimer net st).1 = queue ++ [m]
        ∧ timers (fireTimer net st).1 = timers st)
     ∧ (messageQueue st = [] → timers st = 0%nat →
        ∀ n, retries m (fireTimers net n (routeMessage net st m).1).2 = n)).
Proof.
  intros Hr.
  destruct (routeMessage_requeues net st m Hr) as (_ & Hq & Ht & _).
  split; [by split|].
  assert (∀ head queue,
            timers st ≠ 0%nat → messageQueue st = head :: queue →
            resent (fireTimer net st).2 = [head]) as Hfire.
  { intros head queue Hnz Hqueue. unfold fireTimer.
    destruct (timers st) as [|pending]; [done|]. rewrite Hqueue.
    set (st0 := {| routing := routing st; agents := agents st;
                   sessions := sessions st; messageQueue := queue;
                   timers := pending |}).
    destruct (routeMessage_requeues net st0 head Hr) as (_ & _ & _ & Hs).
    destruct (routeMessage net st0 head) as [st' events].
    simpl in *. unfold resent at 1. cbn [omap list_omap].
    fold (resent events). by rewrite Hs. }
  assert (timers st = 0%nat ∨ messageQueue st = [] →
          resent (fireTimer net st).2 = []) as Hnone.
  { intros Hor. unfold fireTimer.
    destruct (timers st) as [|pending]; [done|].
    destruct Hor as [|Hnil]; [done|]. by rewrite Hnil. }
  split; [|split].
  - apply Hfire.
  - destruct (decide (timers st = 0%nat)) as [|Hnz];
      [rewrite Hnone by (by left); simpl; lia|].
    destruct (messageQueue st) as [|head queue] eqn:Hqueue;
      [rewrite Hnone by (by right); simpl; lia|].
    by rewrite (Hfire head queue).
  - intros Hs. split.
    { intros queue Hnz Hqueue. unfold fireTimer.
      destruct (timers st) as [|pending] eqn:Htimers; [done|]. rewrite Hqueue.
      unfold routeMessage, routeMessageBy, emitRoutingError.
      cbn [sessions routing]. by rewrite Hs, Hr. }
    intros Hnil Hz n.
    assert (routeMessage net st m
            = (handleRoutingError st m,
               [RoutingError m ("Invalid session ID: " +:+ am_sessionId m)]))
      as E.
    { unfold routeMessage, routeMessageBy, emitRoutingError.
      by rewrite Hs, Hr. }
    rewrite E. cbn [fst].
    apply fireTimers_unknown_session; simpl; try done.
    + by rewrite Hnil.
    + by rewrite Hz.
Qed.

Lemma retry_after_each_failure_witness :
  retries Scenario.strayMessage
    (fireTimers Scenario.reachable 5
       (routeMessage Scenario.reachable new Scenario.strayMessage).1).2
  = 5%nat.
Proof.
  by apply (retry_after_each_failure Scenario.reachable new
              Scenario.strayMessage).
Defined.

End MasterAgentFacts.

(** ** Doubles: the rounding of a product, and random indices *)

Module DoubleFacts.

(** The number of binary digits of a positive number. *)
Lemma digits2_pos_size (m : positive) : digits2_pos m = Pos.size m.
Proof. induction m as [m IH|m IH|]; cbn; by rewrite ?IH. Qed.

Lemma digits2_pos_spec (m : positive) :
  2 ^ (Z.pos (digits2_pos m) - 1) <= Z.pos m < 2 ^ Z.pos (digits2_pos m).
Proof.
  induction m as [m IH|m IH|]; cbn [digits2_pos].
  - rewrite Pos2Z.inj_succ, (Pos2Z.inj_xI m).
    replace (Z.succ (Z.pos (digits2_pos m)) - 1)
      with (Z.succ (Z.pos (digits2_pos m) - 1)) by lia.
    rewrite !Z.pow_succ_r by lia.
    set (a := 2 ^ _) in *. set (b := 2 ^ _) in *. lia.
  - rewrite Pos2Z.inj_succ, (Pos2Z.inj_xO m).
    replace (Z.succ (Z.pos (digits2_pos m)) - 1)
      with (Z.succ (Z.pos (digits2_pos m) - 1)) by lia.
    rewrite !Z.pow_succ_r by lia.
    set (a := 2 ^ _) in *. set (b := 2 ^ _) in *. lia.
  - cbn. lia.
Qed.

(** Shifting a record to the right: the mantissa is divided, and the
    round bit is the last bit shifted out. *)
Lemma shr_1_spec (mrs : shr_record) :
  0 <= shr_m mrs →
  shr_m (shr_1 mrs) = shr_m mrs / 2
  ∧ shr_r (shr_1 mrs) = Z.testbit (shr_m mrs) 0.
Proof.
  destruct mrs as [m r s]. cbn [shr_m]. intros Hm.
  destruct m as [|[p|p|]|p]; cbn [shr_1 shr_m shr_r]; try lia.
  - done.
  - rewrite (Pos2Z.inj_xI p). split; [|done].
    apply Z.div_unique with 1; lia.
  - rewrite (Pos2Z.inj_xO p). split; [|done].
    apply Z.div_unique with 0; lia.
  - done.
Qed.

Lemma iter_pos_shr (p : positive) (mrs : shr_record) :
  0 <= shr_m mrs →
  shr_m (SpecFloat.iter_pos shr_1 p mrs) = shr_m mrs / 2 ^ Z.pos p
  ∧ shr_r (SpecFloat.iter_pos shr_1 p mrs)
    = Z.testbit (shr_m mrs) (Z.pos p - 1).
Proof.
  revert mrs. induction p as [p IH|p IH|]; intros mrs Hm;
    cbn [SpecFloat.iter_pos].
  - destruct (shr_1_spec mrs Hm) as [H1 _].
    assert (0 <= shr_m (shr_1 mrs)) as Hm1
      by (rewrite H1; apply Z.div_pos; lia).
    destruct (IH _ Hm1) as [H2 _].
    assert (0 <= shr_m (SpecFloat.iter_pos shr_1 p (shr_1 mrs))) as Hm2
      by (rewrite H2; apply Z.div_pos; lia).
    destruct (IH _ Hm2) as [H3 H4].
    assert (2 ^ Z.pos p~1 = 2 * 2 ^ Z.pos p * 2 ^ Z.pos p) as E.
    { rewrite (Pos2Z.inj_xI p).
      replace (2 * Z.pos p + 1) with (1 + Z.pos p + Z.pos p) by lia.
      rewrite !Z.pow_add_r by lia. reflexivity. }
    assert (0 < 2 ^ Z.pos p) by (apply Z.pow_pos_nonneg; lia).
    split.
    + rewrite H3, H2, H1, !Z.div_div, E by lia. f_equal. lia.
    + rewrite H4, H2, H1.
      rewrite Z.div_div by lia.
      replace (2 * 2 ^ Z.pos p) with (2 ^ (Z.pos p + 1))
        by (rewrite Z.pow_add_r by lia; lia).
      rewrite Z.div_pow2_bits by lia. f_equal. lia.
  - destruct (IH _ Hm) as [H2 _].
    assert (0 <= shr_m (SpecFloat.iter_pos shr_1 p mrs)) as Hm2
      by (rewrite H2; apply Z.div_pos; lia).
    destruct (IH _ Hm2) as [H3 H4].
    assert (2 ^ Z.pos p~0 = 2 ^ Z.pos p * 2 ^ Z.pos p) as E.
    { rewrite (Pos2Z.inj_xO p).
      replace (2 * Z.pos p) with (Z.pos p + Z.pos p) by lia.
      rewrite !Z.pow_add_r by lia. reflexivity. }
    assert (0 < 2 ^ Z.pos p) by (apply Z.pow_pos_nonneg; lia).
    split.
    + rewrite H3, H2, !Z.div_div, E by lia. f_equal.
    + rewrite H4, H2. rewrite Z.div_pow2_bits by lia. f_equal. lia.
  - destruct (shr_1_spec mrs Hm) as [H1 H2]. split.
    + by rewrite H1.
    + by rewrite H2.
Qed.

Lemma round_nearest_even_bound (mrs : shr_record) :
  shr_m mrs <= round_nearest_even (shr_m mrs) (loc_of_shr_record mrs)
  ∧ round_nearest_even (shr_m mrs) (loc_of_shr_record mrs)
    <= shr_m mrs + (if shr_r mrs then 1 else 0).
Proof.
  destruct mrs as [m [] []]; cbn [shr_m shr_r loc_of_shr_record
                                   round_nearest_even];
    try destruct (Z.even m); lia.
Qed.

(** A shift by the number of bits that the format asks for never
    increases the value. *)
Lemma shr_fexp_exact (m e : Z) :
  0 <= m →
  0 <= shr_m (shr_fexp 53 1024 m e loc_Exact).1
  ∧ e <= (shr_fexp 53 1024 m e loc_Exact).2
  ∧ shr_m (shr_fexp 53 1024 m e loc_Exact).1
    * 2 ^ ((shr_fexp 53 1024 m e loc_Exact).2 - e) <= m.
Proof.
  intros Hm. unfold shr_fexp, shr. cbn [shr_record_of_loc].
  destruct (fexp 53 1024 (Zdigits2 m + e) - e) as [|q|q] eqn:Hq;
    cbn [fst snd shr_m].
  - rewrite Z.sub_diag. cbn. lia.
  - destruct (iter_pos_shr q {| shr_m := m; shr_r := false; shr_s := false |})
      as [H1 _]; [done|]. cbn [shr_m] in H1. rewrite H1.
    assert (0 < 2 ^ Z.pos q) by (apply Z.pow_pos_nonneg; lia).
    split; [apply Z.div_pos; lia|]. split; [lia|].
    replace (e + Z.pos q - e) with (Z.pos q) by lia.
    rewrite Z.mul_comm. apply Z.mul_div_le. lia.
  - rewrite Z.sub_diag. cbn. lia.
Qed.

(** The rounding to nearest of [m * 2^e], for a positive [m]: the
    mantissa and the exponent from which the result is built, with an
    upper bound of their value in units of [2^e]. [p] is the number of
    bits by which the mantissa is shifted. *)
Lemma binary_round_aux_upper (m : positive) (e : Z) :
  let p := fexp 53 1024 (Z.pos (digits2_pos m) + e) - e in
  ∃ m2 e2,
    0 <= m2 ∧ e <= e2
    ∧ m2 * 2 ^ (e2 - e)
      <= (if 0 <? p
          then (Z.pos m / 2 ^ p
                + (if Z.testbit (Z.pos m) (p - 1) then 1 else 0)) * 2 ^ p
          else Z.pos m)
    ∧ binary_round_aux 53 1024 false (Z.pos m) e loc_Exact
      = match m2 with
        | 0 => S754_zero false
        | Z.pos m' =>
            if e2 <=? 1024 - 53 then S754_finite false m' e2
            else S754_infinity false
        | Z.neg _ => S754_nan
        end.
Proof.
  intros p. unfold binary_round_aux.
  assert (∃ mrs1 e1,
            shr_fexp 53 1024 (Z.pos m) e loc_Exact = (mrs1, e1)
            ∧ 0 <= shr_m mrs1 ∧ e <= e1
            ∧ (shr_m mrs1 + (if shr_r mrs1 then 1 else 0)) * 2 ^ (e1 - e)
              <= (if 0 <? p
                  then (Z.pos m / 2 ^ p
                        + (if Z.testbit (Z.pos m) (p - 1) then 1 else 0))
                       * 2 ^ p
                  else Z.pos m)) as (mrs1 & e1 & -> & Hm1 & He1 & Hb1).
  { unfold shr_fexp, shr. cbn [shr_record_of_loc Zdigits2]. fold p.
    destruct p as [|q|q] eqn:Hp.
    - eexists _, _. split; [reflexivity|]. cbn [shr_m shr_r].
      rewrite Z.sub_diag. cbn. lia.
    - eexists _, _. split; [reflexivity|].
      destruct (iter_pos_shr q
                  {| shr_m := Z.pos m; shr_r := false; shr_s := false |})
        as [H1 H2]; [done|]. cbn [shr_m] in H1, H2. rewrite H1, H2.
      assert (0 < 2 ^ Z.pos q) by (apply Z.pow_pos_nonneg; lia).
      split; [apply Z.div_pos; lia|]. split; [lia|].
      replace (e + Z.pos q - e) with (Z.pos q) by lia.
      change (0 <? Z.pos q) with true. cbn iota. lia.
    - eexists _, _. split; [reflexivity|]. cbn [shr_m shr_r].
      rewrite Z.sub_diag. cbn. lia. }
  destruct (round_nearest_even_bound mrs1) as [Hlo Hhi].
  set (m1 := round_nearest_even (shr_m mrs1) (loc_of_shr_record mrs1)) in *.
  destruct (shr_fexp_exact m1 e1) as (Hm2 & He2 & Hb2); [lia|].
  destruct (shr_fexp 53 1024 m1 e1 loc_Exact) as [mrs2 e2].
  cbn [fst snd] in *.
  exists (shr_m mrs2), e2. split; [done|]. split; [lia|]. split; [|done].
  assert (0 < 2 ^ (e1 - e)) by (apply Z.pow_pos_nonneg; lia).
  replace (e2 - e) with ((e2 - e1) + (e1 - e)) by lia.
  rewrite Z.pow_add_r by lia.
  etransitivity; [|exact Hb1].
  rewrite Z.mul_assoc. apply Z.mul_le_mono_nonneg_r; lia.
Qed.

Lemma digits2_pos_unique (m : positive) (d : Z) :
  2 ^ (d - 1) <= Z.pos m < 2 ^ d → Z.pos (digits2_pos m) = d.
Proof.
  intros [Hlo Hhi]. destruct (digits2_pos_spec m) as [Hlo' Hhi'].
  assert (0 < d).
  { destruct (Z.ltb_spec 0 d) as [|Hd]; [done|].
    assert (2 ^ d <= 2 ^ 0) by (destruct (Z.ltb_spec d 0);
      [rewrite Z.pow_neg_r by done; cbn; lia
      |apply Z.pow_le_mono_r; lia]).
    change (2 ^ 0) with 1 in *. lia. }
  destruct (Z.lt_trichotomy (Z.pos (digits2_pos m)) d) as [Hlt|[E|Hgt]];
    [|done|].
  - assert (2 ^ Z.pos (digits2_pos m) <= 2 ^ (d - 1))
      by (apply Z.pow_le_mono_r; lia). lia.
  - assert (2 ^ d <= 2 ^ (Z.pos (digits2_pos m) - 1))
      by (apply Z.pow_le_mono_r; lia). lia.
Qed.

Lemma iter_xO (n k : positive) :
  Z.pos (Pos.iter xO n k) = Z.pos n * 2 ^ Z.pos k.
Proof.
  induction k as [|k IH] using Pos.peano_ind.
  - cbn [Pos.iter]. rewrite (Pos2Z.inj_xO n). change (2 ^ 1) with 2. lia.
  - rewrite Pos.iter_succ, (Pos2Z.inj_xO (Pos.iter xO n k)), IH,
      Pos2Z.inj_succ, Z.pow_succ_r by lia. lia.
Qed.

(** A number that needs no shift is left as it is. *)
Lemma binary_round_aux_exact (m : positive) (e : Z) :
  fexp 53 1024 (Z.pos (digits2_pos m) + e) - e <= 0 →
  e <= 971 →
  binary_round_aux 53 1024 false (Z.pos m) e loc_Exact
  = S754_finite false m e.
Proof.
  intros Hp He. unfold binary_round_aux, shr_fexp, shr.
  cbn [shr_record_of_loc Zdigits2].
  destruct (fexp 53 1024 (Z.pos (digits2_pos m) + e) - e) as [|q|q] eqn:Hq;
    [|lia|];
    cbn [shr_m loc_of_shr_record round_nearest_even Zdigits2];
    rewrite Hq; cbn [shr_m];
    by destruct (Z.leb_spec e (1024 - 53)); [|lia].
Qed.

(** The double of a positive integer of at most 53 bits: a mantissa
    of 53 bits exactly and the exponent that goes with it. *)
Lemma ofZ_pos (n : positive) :
  Z.pos n < 2 ^ 53 →
  ∃ mn en,
    Double.ofZ (Z.pos n) = S754_finite false mn en
    ∧ Z.pos mn = Z.pos n * 2 ^ (- en)
    ∧ -52 <= en <= 0
    ∧ 2 ^ 52 <= Z.pos mn < 2 ^ 53.
Proof.
  intros Hn. destruct (digits2_pos_spec n) as [Hlo Hhi].
  set (d := Z.pos (digits2_pos n)) in *.
  assert (d <= 53) as Hd.
  { destruct (Z.leb_spec d 53) as [|Hgt]; [done|].
    assert (2 ^ 53 <= 2 ^ (d - 1)) by (apply Z.pow_le_mono_r; lia). lia. }
  assert (0 < d) as Hd0 by (unfold d; lia).
  unfold Double.ofZ, binary_normalize, binary_round, shl_align.
  fold d.
  assert (fexp Double.prec Double.emax (d + 0) = d - 53) as ->
    by (unfold fexp, emin, Double.prec, Double.emax; lia).
  destruct (d - 53 - 0) as [|k|k] eqn:Hk; [|lia|].
  - assert (d = 53) as E by lia.
    exists n, 0. rewrite binary_round_aux_exact.
    + split; [done|]. rewrite E in *. change (2 ^ (- 0)) with 1.
      change (53 - 1) with 52 in Hlo. lia.
    + fold d. unfold fexp, emin. lia.
    + lia.
  - assert (Z.pos k = 53 - d) as Ek by lia.
    exists (Pos.iter xO n k), (d - 53).
    assert (Z.pos (Pos.iter xO n k) = Z.pos n * 2 ^ (53 - d)) as Hmz
      by (by rewrite iter_xO, Ek).
    assert (2 ^ 52 <= Z.pos (Pos.iter xO n k) < 2 ^ 53) as Hrange.
    { rewrite Hmz.
      assert (0 < 2 ^ (53 - d)) by (apply Z.pow_pos_nonneg; lia).
      assert (2 ^ 52 = 2 ^ (d - 1) * 2 ^ (53 - d)) as ->
        by (rewrite <- Z.pow_add_r by lia; f_equal; lia).
      assert (2 ^ 53 = 2 ^ d * 2 ^ (53 - d)) as ->
        by (rewrite <- Z.pow_add_r by lia; f_equal; lia).
      split; [apply Z.mul_le_mono_nonneg_r; lia
             |apply Z.mul_lt_mono_pos_r; lia]. }
    rewrite binary_round_aux_exact.
    + split; [done|]. split; [|split; [lia|done]].
      rewrite Hmz. f_equal. f_equal. lia.
    + rewrite (digits2_pos_unique _ 53) by done.
      unfold fexp, emin. lia.
    + lia.
Qed.

(** What [Math.random()] returns is a zero, or a positive double of
    at most 53 bits whose exponent is below -52. *)
Lemma random_spec (r : Double.double) :
  Double.random r = true →
  (∃ s, r = S754_zero s)
  ∨ ∃ mr er,
      r = S754_finite false mr er
      ∧ -1074 <= er <= -53 ∧ Z.pos mr < 2 ^ 53.
Proof.
  unfold Double.random. intros H.
  apply andb_prop in H as [H Hlt]. apply andb_prop in H as [Hvalid Hle].
  destruct r as [s|s| |s mr er].
  - left. by exists s.
  - destruct s; [discriminate Hle | discriminate Hlt].
  - discriminate Hle.
  - right. exists mr, er.
    destruct s; [discriminate Hle|]. split; [reflexivity|]. clear Hle.
    assert (er < -52 ∨ er = -52 ∧ Z.pos mr < 4503599627370496) as Hone.
    { change Double.one with (S754_finite false 4503599627370496 (-52)) in Hlt.
      unfold SFltb, SFcompare in Hlt.
      destruct (Z.compare_spec er (-52)) as [E|Hlt'|Hgt].
      - right. split; [exact E|].
        rewrite Pos.compare_cont_spec in Hlt. cbn [Pos.switch_Eq] in Hlt.
        destruct (Pos.compare_spec mr 4503599627370496) as [|Hm|];
          [discriminate Hlt | | discriminate Hlt].
        exact Hm.
      - left. exact Hlt'.
      - discriminate Hlt. }
    clear Hlt.
    unfold Double.valid, valid_binary, bounded, canonical_mantissa in Hvalid.
    apply andb_prop in Hvalid as [Hcanonical _].
    apply Z.eqb_eq in Hcanonical.
    unfold fexp, emin, Double.prec, Double.emax in Hcanonical.
    destruct (digits2_pos_spec mr) as [Hlo Hhi].
    set (d := Z.pos (digits2_pos mr)) in *.
    assert (d <= 53 ∧ -1074 <= er) as [Hd Her] by lia.
    assert (2 ^ d <= 2 ^ 53) as Hd' by (apply Z.pow_le_mono_r; lia).
    split; [|lia]. split; [exact Her|].
    destruct Hone as [Hone|[-> Hm]]; [lia|]. exfalso.
    assert (d = 53) as -> by lia.
    change (2 ^ (53 - 1)) with 4503599627370496 in Hlo. lia.
Qed.

Lemma round_up_bound (M p : Z) :
  0 <= M → 0 < p → Z.testbit M (p - 1) = true →
  (M / 2 ^ p + 1) * 2 ^ p <= M + 2 ^ (p - 1).
Proof.
  intros HM Hp Hbit. apply Z.testbit_true in Hbit; [|lia].
  assert (0 < 2 ^ (p - 1)) as Hpos by (apply Z.pow_pos_nonneg; lia).
  assert (2 ^ p = 2 ^ (p - 1) * 2) as ->.
  { replace p with ((p - 1) + 1) at 1 by lia.
    rewrite Z.pow_add_r by lia. reflexivity. }
  rewrite <- Z.div_div by lia.
  pose proof (Z.div_mod M (2 ^ (p - 1)) ltac:(lia)) as HM'.
  pose proof (Z.mod_pos_bound M (2 ^ (p - 1)) Hpos) as Hr.
  set (A := M / 2 ^ (p - 1)) in *.
  pose proof (Z.div_mod A 2 ltac:(lia)) as HA. rewrite Hbit in HA.
  set (B := A / 2) in *. set (P := 2 ^ (p - 1)) in *.
  set (R := M mod P) in *.
  assert ((B + 1) * (P * 2) = P * A + P) as -> by (rewrite HA; ring).
  lia.
Qed.

(** The index [Math.floor(Math.random() * n)] is an index of an array
    of [n] elements. *)
Lemma randomIndex_in_range (r : Double.double) (n : nat) :
  Double.random r = true →
  (0 < n)%nat → Z.of_nat n < 2 ^ 53 →
  ∃ i,
    Double.floorZ (Double.mul r (Double.ofNat n)) = Some i
    ∧ 0 <= i < Z.of_nat n.
Proof.
  intros Hr Hn0 Hn.
  assert (∃ pn, Z.of_nat n = Z.pos pn) as [pn Epn]
    by (destruct (Z.of_nat n) eqn:E; [lia | by eexists | lia]).
  unfold Double.ofNat. rewrite Epn in *.
  destruct (ofZ_pos pn Hn) as (mn & en & -> & Hmn & Hen & Hmn').
  destruct (random_spec r Hr) as [[s ->]|(mr & er & -> & Her & Hmr)].
  { exists 0. cbn. split; [done|lia]. }
  unfold Double.mul, SFmul. cbn [xorb].
  change Double.prec with 53. change Double.emax with 1024.
  destruct (binary_round_aux_upper (mr * mn) (er + en))
    as (m2 & e2 & Hm2 & He2 & Hupper & ->).
  destruct (digits2_pos_spec (mr * mn)) as [Hdlo _].
  set (d := Z.pos (digits2_pos (mr * mn))) in *.
  set (p := fexp 53 1024 (d + (er + en)) - (er + en)) in *.
  rewrite Pos2Z.inj_mul in *.
  set (M := Z.pos mr * Z.pos mn) in *.
  set (N := Z.pos mn * 2 ^ (- er)).
  assert (0 < 2 ^ (- er)) as Hpow by (apply Z.pow_pos_nonneg; lia).
  assert (2 ^ 53 <= 2 ^ (- er)) as Hpow53 by (apply Z.pow_le_mono_r; lia).
  assert (M <= N - Z.pos mn) as HM.
  { unfold M, N.
    assert (Z.pos mr * Z.pos mn <= (2 ^ (- er) - 1) * Z.pos mn)
      by (apply Z.mul_le_mono_nonneg_r; lia).
    lia. }
  assert (0 < p → 2 ^ (p - 1) < Z.pos mn) as Hp.
  { intros Hp. unfold p, fexp, emin in *.
    destruct (Z.max_spec (d + (er + en) - 53) (3 - 1024 - 53))
      as [[_ Emax]|[_ Emax]]; rewrite Emax in *.
    - assert (2 ^ (3 - 1024 - 53 - (er + en) - 1) <= 2 ^ 51)
        by (apply Z.pow_le_mono_r; lia).
      change (2 ^ 52) with (2 * 2 ^ 51) in Hmn'.
      assert (0 < 2 ^ 51) by done. lia.
    - replace (d + (er + en) - 53 - (er + en) - 1) with (d - 54) by lia.
      assert (0 <= d - 54) by lia.
      assert (2 ^ (d - 1) = 2 ^ 53 * 2 ^ (d - 54)) as E
        by (rewrite <- Z.pow_add_r by lia; f_equal; lia).
      assert (M < 2 ^ 53 * Z.pos mn)
        by (unfold M; apply Z.mul_lt_mono_pos_r; lia).
      apply (Z.mul_lt_mono_pos_l (2 ^ 53)); [done|]. lia. }
  assert (m2 * 2 ^ (e2 - (er + en)) < N) as Hbound.
  { eapply Z.le_lt_trans; [exact Hupper|].
    destruct (Z.ltb_spec 0 p) as [Hp0|Hp0]; [|lia].
    specialize (Hp Hp0).
    assert (0 < 2 ^ p) by (apply Z.pow_pos_nonneg; lia).
    destruct (Z.testbit M (p - 1)) eqn:Hbit.
    - pose proof (round_up_bound M p ltac:(unfold M; lia) Hp0 Hbit). lia.
    - rewrite Z.add_0_r.
      pose proof (Z.mul_div_le M (2 ^ p) ltac:(lia)). lia. }
  assert (0 < 2 ^ (e2 - (er + en))) as Hpow2
    by (apply Z.pow_pos_nonneg; lia).
  assert (N = Z.pos pn * 2 ^ (- (er + en))) as HN.
  { unfold N. rewrite Hmn.
    replace (- (er + en)) with (- en + - er) by lia.
    rewrite Z.pow_add_r by lia. ring. }
  destruct m2 as [|m'|m']; [|clear Hm2|lia].
  { exists 0. cbn. split; [done|lia]. }
  assert (e2 < 53) as He253.
  { destruct (Z.ltb_spec e2 53) as [|Hge]; [done|]. exfalso.
    assert (2 ^ (53 - er) <= 2 ^ (e2 - (er + en)))
      by (apply Z.pow_le_mono_r; lia).
    assert (2 ^ (53 - er) = 2 ^ 53 * 2 ^ (- er)) as E
      by (rewrite <- Z.pow_add_r by lia; f_equal; lia).
    assert (N < 2 ^ 53 * 2 ^ (- er))
      by (unfold N; apply Z.mul_lt_mono_pos_r; lia).
    assert (1 * 2 ^ (e2 - (er + en)) <= Z.pos m' * 2 ^ (e2 - (er + en)))
      by (apply Z.mul_le_mono_nonneg_r; lia).
    lia. }
  destruct (Z.leb_spec e2 (1024 - 53)) as [_|]; [|lia].
  cbn [Double.floorZ cond_Zopp].
  eexists. split; [reflexivity|]. split; [by apply Z.shiftl_nonneg|].
  rewrite HN in Hbound.
  destruct (Z.leb_spec 0 e2) as [Hpos|Hneg].
  - rewrite Z.shiftl_mul_pow2 by done.
    assert (2 ^ (e2 - (er + en)) = 2 ^ e2 * 2 ^ (- (er + en))) as E
      by (rewrite <- Z.pow_add_r by lia; f_equal; lia).
    rewrite E, Z.mul_assoc in Hbound.
    apply Z.mul_lt_mono_pos_r in Hbound; [done|].
    apply Z.pow_pos_nonneg; lia.
  - rewrite Z.shiftl_div_pow2 by lia.
    assert (0 < 2 ^ (- e2)) by (apply Z.pow_pos_nonneg; lia).
    apply Z.div_lt_upper_bound; [done|].
    assert (2 ^ (- (er + en)) = 2 ^ (- e2) * 2 ^ (e2 - (er + en))) as E
      by (rewrite <- Z.pow_add_r by lia; f_equal; lia).
    rewrite E, Z.mul_assoc in Hbound.
    apply Z.mul_lt_mono_pos_r in Hbound; [lia | done].
Qed.

(** [Math.round] of a double with a fractional part is the floor of
    the number that the double is plus a half, computed exactly. *)
Lemma Math_round_floor (s : bool) (m : positive) (e : Z) :
  e < 0 →
  Double.Math_round (S754_finite s m e)
  = let k := Qfloor (Double.toQ (S754_finite s m e) + (1 # 2)) in
    if k =? 0 then S754_zero s else Double.ofZ k.
Proof.
  intros He. unfold Double.Math_round, Double.toQ.
  destruct (Z.leb_spec 0 e) as [?|_]; [lia|]. cbn zeta.
  set (M := cond_Zopp s (Z.pos m)).
  assert (0 < 2 ^ (- e)) as Hpow by (apply Z.pow_pos_nonneg; lia).
  assert (Z.shiftl (2 * M + 2 ^ (- e)) (e - 1)
          = Qfloor ((M # Z.to_pos (2 ^ (- e))) + (1 # 2))) as ->; [|done].
  rewrite Z.shiftl_div_pow2 by lia.
  replace (- (e - 1)) with (Z.succ (- e)) by lia.
  rewrite Z.pow_succ_r by lia.
  unfold Qplus, Qfloor. cbn [Qnum Qden].
  rewrite Pos2Z.inj_mul, Z2Pos.id by lia.
  f_equal; lia.
Qed.

End DoubleFacts.

(** ** Question selection, averages and trends in doubles *)

Module Binary64Facts.
Import Double Binary64.

(** *** C1: question selection *)

Lemma selectNextQuestion_available_double st sessionId ctx r :
  InterviewerAgent.sessionContext st !! sessionId = Some ctx →
  InterviewerAgent.availableQuestions (InterviewerAgent.questionBank st) ctx
  ≠ [] →
  selectNextQuestion st sessionId r
  = atFloor
      (InterviewerAgent.selectedQuestions (InterviewerAgent.questionBank st)
         ctx)
      (mul r
         (ofNat
            (length
               (InterviewerAgent.selectedQuestions
                  (InterviewerAgent.questionBank st) ctx)))).
Proof.
  intros Hctx Hne. unfold selectNextQuestion. rewrite Hctx.
  rewrite decide_False; [done|]. by rewrite length_zero_iff_nil.
Qed.

Lemma selectNextQuestion_remaining_double st sessionId ctx r :
  InterviewerAgent.sessionContext st !! sessionId = Some ctx →
  InterviewerAgent.availableQuestions (InterviewerAgent.questionBank st) ctx
  = [] →
  selectNextQuestion st sessionId r
  = head
      (InterviewerAgent.remainingQuestions (InterviewerAgent.questionBank st)
         ctx).
Proof.
  intros Hctx Hnil. unfold selectNextQuestion. rewrite Hctx, Hnil.
  cbn [length]. rewrite decide_True by done. case_decide as E.
  - apply length_zero_iff_nil in E. by rewrite E.
  - apply InterviewerAgentFacts.index_0_head.
Qed.

(** C1. Question selection is a filter over the static bank (six
    questions in the agent, eight in the frontend service) with a
    random choice at the end. For a session and the double [r] that
    [Math.random()] returns, the candidates are the questions of the
    bank, in the order of the bank, that are unasked and of the
    difficulty of the session (all the unasked ones when nothing has
    been asked yet): every such question is a candidate and every
    candidate is such a question. When there are candidates, [n] of
    them, the question selected is the candidate at index
    [Math.floor(r * n)], the product being the one of doubles, and that
    index is always below [n]; when there is none, the question
    selected is the first unasked question of the bank, in bank order,
    if there is one. *)
Theorem selectNextQuestion_filter_random
    (st : InterviewerAgent.State) (sessionId : string)
    (ctx : InterviewerAgent.SessionContext) (r : double) :
  InterviewerAgent.sessionContext st !! sessionId = Some ctx →
  random r = true →
  Z.of_nat (length (InterviewerAgent.questionBank st)) < 2 ^ 53 →
  let bank := InterviewerAgent.questionBank st in
  let asked := InterviewerAgent.askedQuestionIds ctx in
  let candidates := InterviewerAgent.selectedQuestions bank ctx in
  let matching q :=
    (q_id q ∉ asked)
    ∧ (q_difficulty q = InterviewerAgent.difficulty ctx
       ∨ InterviewerAgent.questionsAsked ctx = []) in
  length InterviewerAgent.initialQuestionBank = 6%nat
  ∧ length InterviewService.initialQuestionBank = 8%nat
  ∧ candidates = filter matching bank
  ∧ (∀ q, q ∈ candidates ↔ q ∈ bank ∧ matching q)
  ∧ ((∃ q, q ∈ bank ∧ matching q) →
     ∃ i q,
       floorZ (mul r (ofNat (length candidates))) = Some i
       ∧ 0 <= i < Z.of_nat (length candidates)
       ∧ candidates !! Z.to_nat i = Some q
       ∧ selectNextQuestion st sessionId r = Some q)
  ∧ ((∀ q, q ∈ bank → ¬ matching q) →
     ∀ q, selectNextQuestion st sessionId r = Some q
          ↔ ∃ before after,
              bank = before ++ q :: after
              ∧ (q_id q ∉ asked)
              ∧ Forall (λ p, q_id p ∈ asked) before).
Proof.
  intros Hctx Hr Hbank bank asked candidates matching.
  assert (candidates = filter matching bank) as Hcandidates.
  { unfold candidates. rewrite InterviewerAgentFacts.selectedQuestions_all.
    unfold InterviewerAgent.availableQuestions. fold bank asked.
    apply list_filter_iff. intros q. unfold matching.
    by rewrite length_zero_iff_nil. }
  assert (∀ q, q ∈ candidates ↔ q ∈ bank ∧ matching q) as Hiff.
  { intros q. rewrite Hcandidates, list_elem_of_filter. tauto. }
  split; [done|]. split; [done|]. split; [done|]. split; [done|].
  assert (InterviewerAgent.availableQuestions bank ctx = candidates)
    as Havailable
    by (unfold candidates;
        by rewrite InterviewerAgentFacts.selectedQuestions_all).
  split.
  - intros (q0 & Hq0). apply Hiff in Hq0.
    assert (candidates ≠ []) as Hne
      by (intros E; rewrite E in Hq0; by apply elem_of_nil in Hq0).
    assert (0 < length candidates)%nat as Hlen
      by (destruct candidates; [done | cbn; lia]).
    assert (length candidates <= length bank)%nat as Hle
      by (rewrite Hcandidates; apply length_filter).
    destruct (DoubleFacts.randomIndex_in_range r (length candidates) Hr Hlen)
      as (i & Hi & Hrange); [unfold bank in Hle; lia|].
    destruct (lookup_lt_is_Some_2 candidates (Z.to_nat i)) as [q Hq]; [lia|].
    exists i, q. split; [done|]. split; [done|]. split; [done|].
    rewrite (selectNextQuestion_available_double _ _ ctx);
      [|done|fold bank; by rewrite Havailable].
    fold bank candidates. unfold atFloor. rewrite Hi. cbn [mbind option_bind].
    unfold JS.index. destruct (Z.ltb_spec i 0); [lia | done].
  - intros Hnone q.
    assert (InterviewerAgent.availableQuestions bank ctx = []) as Hnil.
    { rewrite Havailable. destruct candidates as [|q' l] eqn:E; [done|].
      assert (q' ∈ q' :: l) as Hin by left.
      apply Hiff in Hin as [Hin Hm].
      by destruct (Hnone q' Hin). }
    rewrite (selectNextQuestion_remaining_double _ _ ctx) by done.
    fold bank. split.
    + intros (before & after & Hb & Hq & Hbefore)
        %InterviewerAgentFacts.head_filter_first.
      exists before, after. split; [done|]. split; [done|].
      eapply Forall_impl; [exact Hbefore|]. cbn beta. intros p Hp.
      by destruct (decide (q_id p ∈ asked)).
    + intros (before & after & Hb & Hq & Hbefore).
      rewrite Hb. unfold InterviewerAgent.remainingQuestions.
      rewrite filter_app, filter_cons.
      replace (filter _ before) with (@nil InterviewQuestion).
      * cbn [app]. by rewrite decide_True.
      * symmetry. apply InterviewerAgentFacts.filter_nil_none.
        intros p Hp Hnp. rewrite Forall_forall in Hbefore.
        by apply Hnp, Hbefore.
Qed.

Lemma selectNextQuestion_filter_random_witness :
  ∃ q, selectNextQuestion Scenario.started Scenario.sessionId third = Some q.
Proof.
  assert (∃ ctx,
            InterviewerAgent.sessionContext Scenario.started
              !! Scenario.sessionId = Some ctx
            ∧ InterviewerAgent.questionsAsked ctx = [])
    as (ctx & Hctx & Hasked) by (by eexists).
  destruct (selectNextQuestion_filter_random Scenario.started
              Scenario.sessionId ctx third Hctx)
    as (_ & _ & _ & _ & H & _); [reflexivity | reflexivity |].
  destruct H as (i & q & _ & _ & _ & Hq); [|by exists q].
  destruct (InterviewerAgent.questionBank Scenario.started) as [|q0 bank] eqn:E;
    [discriminate E|].
  exists q0. split; [left|]. split; [|by right].
  unfold InterviewerAgent.askedQuestionIds. rewrite Hasked.
  apply not_elem_of_nil.
Defined.

(** The double just below a third, for which the product with 3
    rounds to 1 and the product with 6 to 2: it selects the second of
    three candidates and the third of six, where the exact product
    would select the first and the second. *)
Lemma selectNextQuestion_at_a_third :
  floorZ (mul third (ofNat 3)) = Some 1
  ∧ floorZ (mul third (ofNat 6)) = Some 2
  ∧ q_id <$> selectNextQuestion Scenario.started Scenario.sessionId third
    = Some "technical-1".
Proof. by vm_compute. Qed.

(** What the selection returns at a double of [Math.random()], the
    selection over the rationals returns at a rational of [[0, 1)]: a
    property of the latter that holds for every such rational holds for
    the selection in double arithmetic. *)
Lemma selectNextQuestion_rational
    (st : InterviewerAgent.State) (sessionId : string) (r : double) :
  random r = true →
  Z.of_nat (length (InterviewerAgent.questionBank st)) < 2 ^ 53 →
  ∃ r' : Q,
    (0 <= r' < 1)%Q
    ∧ InterviewerAgent.selectNextQuestion st sessionId r'
      = selectNextQuestion st sessionId r.
Proof.
  intros Hr Hbank.
  unfold InterviewerAgent.selectNextQuestion, selectNextQuestion.
  destruct (InterviewerAgent.sessionContext st !! sessionId) as [ctx|];
    [|exists 0%Q; split; [lra | done]].
  cbn zeta. case_decide as Hav; [exists 0%Q; split; [lra | done]|].
  set (selected := InterviewerAgent.selectedQuestions _ ctx).
  assert (0 < length selected)%nat as Hlen.
  { unfold selected.
    rewrite InterviewerAgentFacts.selectedQuestions_all. lia. }
  assert (length selected <= length (InterviewerAgent.questionBank st))%nat
    as Hle.
  { unfold selected.
    rewrite InterviewerAgentFacts.selectedQuestions_all.
    apply length_filter. }
  destruct (DoubleFacts.randomIndex_in_range r (length selected) Hr Hlen)
    as (i & Hi & Hrange); [lia|].
  set (n := Z.of_nat (length selected)) in *.
  exists (i # Z.to_pos n)%Q. split.
  - unfold Qle, Qlt. cbn [Qnum Qden]. rewrite Z2Pos.id by lia. lia.
  - unfold atFloor. rewrite Hi. cbn [mbind option_bind]. f_equal.
    unfold JS.randomIndex, JS.Math_floor, JS.ofNat. fold n.
    rewrite <- (Qfloor_Z i) at 2. apply Qfloor_comp.
    unfold Qeq, Qmult, inject_Z. cbn [Qnum Qden].
    rewrite Pos.mul_1_r, Z2Pos.id by lia. lia.
Qed.

(** *** C6: the trend *)

(** C6, as stated, fails: a session without any analysis has fewer
    than three scores, and its trend is reported as ["N/A"]. *)
Lemma trend_of_session_without_analyses :
  ¬ ∀ analyses : list AnalysisResult,
      (length analyses < 3)%nat →
      overallTrend (getSessionStats analyses) = "stable".
Proof.
  intros H. specialize (H [] ltac:(cbn; lia)). discriminate H.
Qed.

(** C6, amended. The trend of a session is ["N/A"] when it has no
    analysis and ["stable"] when it has one or two. With [n >= 3]
    scores, the list is split at [floor (n / 2)] into two non-empty
    halves; the trend is ["improving"] exactly when the mean of the
    second half is greater than the mean of the first half plus 0.5,
    failing that ["declining"] exactly when it is less than the mean of
    the first half minus 0.5, and ["stable"] otherwise. The means, the
    sum and the difference are those of doubles: each mean is the sum
    of the scores, taken from the first to the last, divided by their
    number. *)
Theorem trend_detection (analyses : list AnalysisResult) :
  let scores := score <$> analyses in
  let n := length scores in
  let firstHalf := take (n / 2) scores in
  let secondHalf := drop (n / 2) scores in
  let trend := overallTrend (getSessionStats analyses) in
  let above := gt (mean secondHalf) (add (mean firstHalf) half) in
  let below := lt (mean secondHalf) (sub (mean firstHalf) half) in
  (n = 0%nat → trend = "N/A")
  ∧ ((0 < n < 3)%nat → trend = "stable")
  ∧ ((3 <= n)%nat →
     firstHalf ≠ [] ∧ secondHalf ≠ []
     ∧ (trend = "improving" ↔ above = true)
     ∧ (trend = "declining" ↔ above = false ∧ below = true)
     ∧ (trend = "stable" ↔ above = false ∧ below = false)).
Proof.
  intros scores n firstHalf secondHalf trend above below.
  unfold trend, getSessionStats.
  assert (n = length analyses) as Hlen
    by (unfold n, scores; by rewrite length_fmap).
  rewrite <- Hlen. fold scores. fold n.
  destruct (decide (n = 0%nat)) as [Hz|Hnz]; cbn [overallTrend].
  - split; [done|]. split; intros; exfalso; lia.
  - split; [done|]. split.
    + intros [_ Hlt]. by destruct (Nat.leb_spec 3 n) as [?|_]; [lia|].
    + intros Hn. split; [|split].
      * intros E. apply (f_equal length) in E. unfold firstHalf in E.
        rewrite length_take in E. fold n in E.
        change (length (@nil double)) with 0%nat in E.
        assert (1 <= n / 2)%nat by (apply Nat.div_le_lower_bound; lia).
        lia.
      * intros E. apply (f_equal length) in E. unfold secondHalf in E.
        rewrite length_drop in E. fold n in E.
        change (length (@nil double)) with 0%nat in E.
        assert (n / 2 < n)%nat by (apply Nat.div_lt; lia).
        lia.
      * destruct (Nat.leb_spec 3 n) as [_|?]; [|lia].
        fold firstHalf secondHalf.
        change (average secondHalf) with (mean secondHalf).
        change (average firstHalf) with (mean firstHalf).
        fold above below.
        destruct above, below; repeat split; try done; by intros [? ?].
Qed.

Lemma trend_detection_witness :
  overallTrend (getSessionStats [scored 70]) = "stable".
Proof.
  destruct (trend_detection [scored 70]) as (_ & Hstable & _).
  apply Hstable. cbn. lia.
Defined.

(** Scores 7.5, 8, 8, 8, 8.5, 8.5: the means of the halves, 23.5 / 3
    and 25 / 3, differ by 0.5 exactly as rationals; as doubles the first
    plus 0.5 is less than the second, and the trend is
    ["improving"]. *)
Lemma trend_at_half_a_point :
  overallTrend
    (getSessionStats
       [scored 75; scored 80; scored 80; scored 80; scored 85; scored 85])
  = "improving".
Proof. by vm_compute. Qed.

(** *** C7: the average *)





(** The average of the scores 8.1 and 8.2 is reported as 8.1, and the
    average of 1.0 and 1.7 as 1.4. *)
Lemma average_of_two_scores :
  averageScore (getSessionStats [scored 81; scored 82]) = tenths 81
  ∧ calculateAverageScore [feedbackOf 81; feedbackOf 82] = tenths 81
  ∧ averageScore (getSessionStats [scored 10; scored 17]) = tenths 14
  ∧ calculateAverageScore [feedbackOf 10; feedbackOf 17] = tenths 14.
Proof. by vm_compute. Qed.

End Binary64Facts.

(** * Further properties of the code *)

(** ** The interviewer agent: sessions, progress and the bank *)

Module InterviewerAgentExtras.
Import InterviewerAgent InterviewerAgentFacts.

Lemma is_Some_insert_existing (m : gmap string SessionContext) k v sid :
  is_Some (m !! k) →
  is_Some (<[k := v]> m !! sid) ↔ is_Some (m !! sid).
Proof.
  intros Hk. rewrite lookup_insert. case_decide as E; [|done].
  subst. split; [done | by eexists].
Qed.

Lemma step_sessions env st op sid :
  is_Some (sessionContext (step env st op).1 !! sid)
  ↔ is_Some (sessionContext st !! sid) ∨ ∃ p, op = StartSession sid p.
Proof.
  destruct op as [s p | s a q | rq | s t | c | g q | ]; simpl.
  - unfold handleStartSession.
    assert (is_Some (<[s := {| currentQuestionIndex := 0%nat;
                               questionsAsked := [];
                               candidateProfile := p;
                               startTime := now env;
                               difficulty := easy |}]>
                       (sessionContext st) !! sid)
            ↔ is_Some (sessionContext st !! sid)
              ∨ ∃ p0, StartSession s p = StartSession sid p0) as H.
    { rewrite lookup_insert. case_decide as E.
      - subst. split; [intros _; right; by eexists | by eexists].
      - split; [by left|]. intros [?|[p0 [=]]]; [done|]. by subst. }
    by destruct (selectNextQuestion _ _ _).
  - unfold handleCandidateAnswer.
    destruct (sessionContext st !! s) as [ctx|] eqn:E; simpl.
    + rewrite is_Some_insert_existing by (by eexists). 
      split; [by left | by intros [?|[? [=]]]].
    + split; [by left | by intros [?|[? [=]]]].
  - unfold handleNextQuestion.
    destruct (sessionContext st !! rq_sessionId rq) as [ctx|] eqn:E.
    + split.
      * intros H. left. revert H.
        destruct (selectNextQuestion _ _ _); simpl;
          by rewrite is_Some_insert_existing by (by eexists).
      * intros [H|[? [=]]].
        destruct (selectNextQuestion _ _ _); simpl;
          by rewrite is_Some_insert_existing by (by eexists).
    + simpl. split; [by left | by intros [?|[? [=]]]].
  - split; [by left | by intros [?|[? [=]]]].
  - split; [by left | by intros [?|[? [=]]]].
  - split; [by left | by intros [?|[? [=]]]].
  - split; [by left | by intros [?|[? [=]]]].
Qed.

(** X1. Session records are created by [start-session] and by nothing
    else: after any run of operations, a session exists exactly when it
    existed before the run or the run has started it. *)
Theorem sessions_created_by_start_only
    (st : State) (ops : list (Env * Op)) (sid : string) :
  is_Some (sessionContext (run st ops) !! sid)
  ↔ is_Some (sessionContext st !! sid)
    ∨ ∃ env p, (env, StartSession sid p) ∈ ops.
Proof.
  revert st. induction ops as [|[env op] ops IH]; intros st.
  - simpl. split; [by left|]. intros [?|(? & ? & H)]; [done|].
    by apply elem_of_nil in H.
  - change (run st ((env, op) :: ops)) with (run (step env st op).1 ops).
    rewrite IH, step_sessions. split.
    + intros [[?|[p ->]]|(env' & p & Hin)].
      * by left.
      * right. exists env, p. left.
      * right. exists env', p. by right.
    + intros [?|(env' & p & Hin)]; [by left; left|].
      apply elem_of_cons in Hin as [[= -> <-]|Hin].
      * left. right. by eexists.
      * right. by eexists _, _.
Qed.

(** X2. An answer or a next-question request for a session that does
    not exist changes nothing in the agent and emits one error event,
    of type [answer-handling] or [next-question]; no message is sent. *)
Theorem unknown_session_is_reported
    (env : Env) (st : State) (sessionId answer qid : string)
    (fb : option PreviousFeedback) :
  sessionContext st !! sessionId = None →
  handleCandidateAnswer env st sessionId answer qid
  = (st, [EmitError "answer-handling" sessionId])
  ∧ handleNextQuestion env st
      {| rq_sessionId := sessionId; previousFeedback := fb |}
    = (st, [EmitError "next-question" sessionId]).
Proof.
  intros H. unfold handleCandidateAnswer, handleNextQuestion. simpl.
  by rewrite H.
Qed.

Lemma unknown_session_is_reported_witness :
  handleCandidateAnswer (Scenario.env 0) (new "") "nobody" "An answer."
    "intro-1"
  = (new "", [EmitError "answer-handling" "nobody"]).
Proof.
  by apply (unknown_session_is_reported (Scenario.env 0) (new "") "nobody"
              "An answer." "intro-1" None).
Defined.

(** *** Progress of an interview *)

Lemma selectNextQuestion_unasked st sid ctx r q :
  sessionContext st !! sid = Some ctx →
  selectNextQuestion st sid r = Some q →
  q ∈ questionBank st ∧ q_id q ∉ askedQuestionIds ctx.
Proof.
  intros Hctx Hq.
  destruct (decide (availableQuestions (questionBank st) ctx = []))
    as [Hnil|Hne].
  - rewrite (selectNextQuestion_remaining _ _ ctx) in Hq by done.
    apply head_filter_first in Hq as (b & a & Hb & Hn & _).
    split; [|done]. rewrite Hb. apply elem_of_app. right. left.
  - rewrite (selectNextQuestion_available _ _ ctx) in Hq by done.
    unfold JS.index in Hq. case_match; [done|].
    apply list_elem_of_lookup_2, selectedQuestions_available in Hq.
    by apply availableQuestions_spec in Hq as (? & ? & _).
Qed.

Lemma selectNextQuestion_exhausted st sid ctx r :
  sessionContext st !! sid = Some ctx →
  remainingQuestions (questionBank st) ctx = [] →
  selectNextQuestion st sid r = None.
Proof.
  intros Hctx Hrem.
  assert (availableQuestions (questionBank st) ctx = []) as Hnil.
  { apply filter_nil_none. intros q Hq [Hn _].
    by apply (proj1 (filter_nil_none _ _) Hrem q Hq). }
  rewrite (selectNextQuestion_remaining _ _ ctx) by done. by rewrite Hrem.
Qed.

Lemma filter_length_lt {A} (P Q : A → Prop)
    `{!∀ x, Decision (P x)} `{!∀ x, Decision (Q x)} (l : list A) (x0 : A) :
  (∀ x, Q x → P x) → x0 ∈ l → P x0 → ¬ Q x0 →
  (length (filter Q l) < length (filter P l))%nat.
Proof.
  intros HQP Hin HP HnQ.
  assert (∀ l', length (filter Q l') <= length (filter P l'))%nat as Hle.
  { induction l' as [|y l' IH]; [done|]. rewrite !filter_cons.
    destruct (decide (Q y)) as [Hy|Hy].
    - rewrite decide_True by auto. simpl. lia.
    - destruct (decide (P y)); simpl; lia. }
  induction l as [|y l IH]; [by apply elem_of_nil in Hin|].
  rewrite !filter_cons. apply elem_of_cons in Hin as [<-|Hin].
  - destruct (decide (Q x0)); [done|]. destruct (decide (P x0)); [|done].
    simpl. specialize (Hle l). lia.
  - specialize (IH Hin). destruct (decide (Q y)) as [Hy|Hy].
    + rewrite decide_True by auto. simpl. lia.
    + destruct (decide (P y)); simpl; lia.
Qed.

Lemma remaining_after_answer bank ctx e q :
  q ∈ bank → q_id q ∉ askedQuestionIds ctx → questionId e = q_id q →
  (length (remainingQuestions bank (pushAsked ctx e))
   < length (remainingQuestions bank ctx))%nat.
Proof.
  intros Hq Hn He. unfold remainingQuestions.
  assert (askedQuestionIds (pushAsked ctx e)
          = askedQuestionIds ctx ++ [q_id q]) as ->.
  { unfold askedQuestionIds, pushAsked. simpl.
    by rewrite fmap_app, <- He. }
  apply (filter_length_lt _ _ bank q); [|done|done|].
  - intros x Hx Hin. apply Hx, elem_of_app. by left.
  - intros Hx. apply Hx, elem_of_app. right. left.
Qed.

Lemma step_keeps_asked env st op sid ctx qid :
  sessionContext st !! sid = Some ctx →
  qid ∈ askedQuestionIds ctx →
  (∀ profile, op ≠ StartSession sid profile) →
  ∃ ctx',
    sessionContext (step env st op).1 !! sid = Some ctx'
    ∧ qid ∈ askedQuestionIds ctx'.
Proof.
  intros Hctx Hq Hop.
  destruct op as [s p | s a q' | rq | s t | c | g q' | ]; cbn [step fst].
  - assert (s ≠ sid) as Hne by (intros ->; by apply (Hop p)).
    exists ctx. split; [|done]. unfold handleStartSession.
    destruct (selectNextQuestion _ _ _); cbn [fst setContext sessionContext];
      by rewrite lookup_insert_ne.
  - unfold handleCandidateAnswer.
    destruct (sessionContext st !! s) as [context|] eqn:E;
      [|by exists ctx].
    cbn [fst setContext sessionContext].
    destruct (decide (s = sid)) as [->|Hne].
    + rewrite lookup_insert_eq. eexists. split; [done|].
      rewrite Hctx in E. injection E as <-.
      unfold askedQuestionIds, pushAsked. cbn [questionsAsked].
      rewrite fmap_app. apply elem_of_app. by left.
    + rewrite lookup_insert_ne by done. by exists ctx.
  - unfold handleNextQuestion.
    destruct (sessionContext st !! rq_sessionId rq) as [context|] eqn:E;
      [|by exists ctx].
    assert (∃ ctx',
              <[rq_sessionId rq :=
                  setDifficulty context
                    (adjustDifficulty (previousFeedback rq)
                       (difficulty context))]> (sessionContext st) !! sid
              = Some ctx'
              ∧ qid ∈ askedQuestionIds ctx') as H.
    { destruct (decide (rq_sessionId rq = sid)) as [Heq|Hne].
      - rewrite Heq in *. rewrite lookup_insert_eq. eexists. split; [done|].
        rewrite Hctx in E. by injection E as <-.
      - rewrite lookup_insert_ne by done. by exists ctx. }
    by destruct (selectNextQuestion _ _ _).
  - by exists ctx.
  - by exists ctx.
  - by exists ctx.
  - by exists ctx.
Qed.

Lemma run_keeps_asked st ops sid ctx qid :
  sessionContext st !! sid = Some ctx →
  qid ∈ askedQuestionIds ctx →
  (∀ env profile, (env, StartSession sid profile) ∉ ops) →
  ∃ ctx',
    sessionContext (run st ops) !! sid = Some ctx'
    ∧ qid ∈ askedQuestionIds ctx'.
Proof.
  revert st ctx. induction ops as [|[env op] ops IH]; intros st ctx Hctx Hq Hops.
  - by exists ctx.
  - change (run st ((env, op) :: ops)) with (run (step env st op).1 ops).
    destruct (step_keeps_asked env st op sid ctx qid Hctx Hq)
      as (ctx1 & Hctx1 & Hq1).
    { intros profile ->. apply (Hops env profile). left. }
    apply (IH _ ctx1 Hctx1 Hq1).
    intros env' profile Hin. apply (Hops env' profile). by right.
Qed.

(** X3. A question that has been answered is not selected again in
    its session, whatever the agent does afterwards, as long as the
    session is not started again. The question selected for a session
    is one of the bank that has not been asked in it; once the answer
    of the candidate has been handled, the number of questions left to
    the session has decreased, and after any operations among which
    there is no start of that session no selection returns a question
    with its identifier. *)
Theorem answered_question_is_not_asked_again
    (env : Env) (st : State) (sid answer : string) (ctx : SessionContext)
    (r : Q) (q : InterviewQuestion) (ops : list (Env * Op)) :
  sessionContext st !! sid = Some ctx →
  selectNextQuestion st sid r = Some q →
  (∀ env' profile, (env', StartSession sid profile) ∉ ops) →
  let st' := (handleCandidateAnswer env st sid answer (q_id q)).1 in
  q ∈ questionBank st
  ∧ (q_id q ∉ askedQuestionIds ctx)
  ∧ (∀ r' q',
       selectNextQuestion (run st' ops) sid r' = Some q' → q_id q' ≠ q_id q)
  ∧ ∃ ctx',
      sessionContext st' !! sid = Some ctx'
      ∧ (length (remainingQuestions (questionBank st') ctx')
         < length (remainingQuestions (questionBank st) ctx))%nat.
Proof.
  intros Hctx Hsel Hops st'.
  destruct (selectNextQuestion_unasked st sid ctx r q Hctx Hsel) as [Hq Hn].
  split; [done|]. split; [done|].
  unfold st', handleCandidateAnswer. rewrite Hctx. cbn [fst].
  set (e := {| questionId := q_id q; question := _; answer := answer;
               timestamp := now env |}).
  assert (sessionContext (setContext st sid (pushAsked ctx e)) !! sid
          = Some (pushAsked ctx e)) as Hctx' by apply lookup_insert_eq.
  split.
  - intros r' q' Hsel' E.
    destruct (run_keeps_asked _ ops sid _ (q_id q) Hctx') as (ctx2 & Hctx2 & Hq2);
      [|done|].
    { unfold askedQuestionIds, pushAsked. cbn [questionsAsked].
      rewrite fmap_app. apply elem_of_app. right. left. }
    destruct (selectNextQuestion_unasked _ sid _ r' q' Hctx2 Hsel')
      as [_ Hn'].
    apply Hn'. by rewrite E.
  - exists (pushAsked ctx e). split; [done|].
    by apply (remaining_after_answer _ ctx e q).
Qed.

Lemma answered_question_is_not_asked_again_witness :
  ∃ q, selectNextQuestion Scenario.answered Scenario.sessionId (1 # 2) = Some q
       ∧ q_id q ∉ ["technical-1"].
Proof.
  assert (∃ ctx, sessionContext Scenario.answered !! Scenario.sessionId
                 = Some ctx ∧ askedQuestionIds ctx = ["technical-1"])
    as (ctx & Hctx & Hasked) by (by eexists).
  assert (∃ q, selectNextQuestion Scenario.answered Scenario.sessionId (1 # 2)
               = Some q) as [q Hq] by (by eexists).
  exists q. split; [done|]. rewrite <- Hasked.
  refine (proj1 (proj2
    (answered_question_is_not_asked_again (Scenario.env 0)
       Scenario.answered Scenario.sessionId "An answer." ctx (1 # 2) q
       [(Scenario.env 0,
         NextQuestion {| rq_sessionId := Scenario.sessionId;
                         previousFeedback := None |});
        (Scenario.env 0, StartSession "another session" "")]
       Hctx Hq _))).
  intros env' profile Hin.
  apply elem_of_cons in Hin as [[=]|Hin].
  apply elem_of_cons in Hin as [[=]|Hin].
  by apply elem_of_nil in Hin.
Defined.

Lemma round_progress sid st ctx rd :
  sessionContext st !! sid = Some ctx →
  (0 <= random (Dialogue.r_env rd))%Q → (random (Dialogue.r_env rd) < 1)%Q →
  ∃ ctx',
    sessionContext (Dialogue.round sid st rd) !! sid = Some ctx'
    ∧ questionBank (Dialogue.round sid st rd) = questionBank st
    ∧ (length (remainingQuestions (questionBank st) ctx') = 0
       ∨ length (remainingQuestions (questionBank st) ctx')
         < length (remainingQuestions (questionBank st) ctx))%nat.
Proof.
  intros Hctx H0 H1. unfold Dialogue.round, handleNextQuestion. simpl.
  rewrite Hctx.
  set (ctx1 := setDifficulty ctx _).
  set (st1 := setContext st sid ctx1).
  assert (sessionContext st1 !! sid = Some ctx1) as Hctx1
    by apply lookup_insert_eq.
  destruct (selectNextQuestion st1 sid _) as [q|] eqn:Hsel; simpl.
  - destruct (selectNextQuestion_unasked st1 sid ctx1 _ q Hctx1 Hsel)
      as [Hq Hn].
    unfold handleCandidateAnswer. rewrite Hctx1. cbn [fst].
    eexists. split; [apply lookup_insert_eq|]. split; [done|]. right.
    by apply (remaining_after_answer (questionBank st) ctx1 _ q).
  - exists ctx1. split; [done|]. split; [done|]. left.
    pose proof (proj1 (selectNextQuestion_none_iff st1 sid ctx1 _ Hctx1
                         H0 H1) Hsel) as Hall.
    apply length_zero_iff_nil, filter_nil_none.
    intros q Hq Hn. by apply Hn, Hall.
Qed.

(** X4. An interview comes to its end: when the candidate answers each
    question put to them, then after as many rounds as the bank has
    questions every question of the bank has been asked, whatever the
    scores and the random choices were, and the next request is answered
    by the [interview-complete] command. *)
Theorem interview_completes_within_bank_rounds
    (sid : string) (st : State) (ctx : SessionContext)
    (rds : list Dialogue.Round) (env : Env) (fb : option PreviousFeedback) :
  sessionContext st !! sid = Some ctx →
  Forall
    (λ rd, (0 <= random (Dialogue.r_env rd))%Q
           ∧ (random (Dialogue.r_env rd) < 1)%Q) rds →
  (length (questionBank st) <= length rds)%nat →
  let final := Dialogue.rounds sid st rds in
  (∃ ctx',
     sessionContext final !! sid = Some ctx'
     ∧ ∀ q, q ∈ questionBank st → q_id q ∈ askedQuestionIds ctx')
  ∧ ∃ m summary,
      (handleNextQuestion env final
         {| rq_sessionId := sid; previousFeedback := fb |}).2
      = [SendMessage m]
      ∧ m_content m = InterviewComplete summary.
Proof.
  intros Hctx Hrds Hlen final.
  assert (∃ ctx',
            sessionContext final !! sid = Some ctx'
            ∧ questionBank final = questionBank st
            ∧ (length (remainingQuestions (questionBank st) ctx')
               <= length (remainingQuestions (questionBank st) ctx)
                  - length rds)%nat) as (ctx' & Hctx' & Hbank & Hrem).
  { unfold final. clear final Hlen. revert st ctx Hctx.
    induction rds as [|rd rds IH]; intros st ctx Hctx.
    - exists ctx. simpl. split; [done|]. split; [done | lia].
    - apply Forall_cons in Hrds as [[H0 H1] Hrds].
      destruct (round_progress sid st ctx rd Hctx H0 H1)
        as (ctx1 & Hctx1 & Hbank1 & Hprog).
      destruct (IH Hrds _ ctx1 Hctx1) as (ctx' & Hctx' & Hbank' & Hrem').
      exists ctx'. cbn [Dialogue.rounds fold_left].
      fold (Dialogue.rounds sid (Dialogue.round sid st rd) rds).
      split; [done|]. rewrite Hbank1 in Hbank', Hrem'.
      split; [done|]. cbn [length]. lia. }
  assert (remainingQuestions (questionBank st) ctx' = []) as Hnil.
  { apply length_zero_iff_nil.
    assert (length (remainingQuestions (questionBank st) ctx)
            <= length (questionBank st))%nat
      by apply length_filter.
    lia. }
  split.
  - exists ctx'. split; [done|]. intros q Hq.
    destruct (decide (q_id q ∈ askedQuestionIds ctx')); [done|].
    by destruct (proj1 (filter_nil_none _ _) Hnil q Hq).
  - unfold handleNextQuestion. simpl. rewrite Hctx'.
    set (ctx1 := setDifficulty ctx' _).
    rewrite (selectNextQuestion_exhausted _ sid ctx1);
      [by eexists _, _ | apply lookup_insert_eq |].
    simpl. by rewrite Hbank.
Qed.

Lemma interview_completes_within_bank_rounds_witness :
  ∃ m summary,
    (handleNextQuestion (Scenario.env 0) Samples.finished
       {| rq_sessionId := Scenario.sessionId; previousFeedback := None |}).2
    = [SendMessage m]
    ∧ m_content m = InterviewComplete summary.
Proof.
  assert (∃ ctx, sessionContext Scenario.started !! Scenario.sessionId
                 = Some ctx) as [ctx Hctx] by (by eexists).
  apply (interview_completes_within_bank_rounds Scenario.sessionId
           Scenario.started ctx Samples.sixRounds (Scenario.env 0) None Hctx).
  - apply Forall_forall. intros rd Hrd.
    apply elem_of_replicate in Hrd as [-> _]. simpl. split; lra.
  - apply Nat.leb_le. vm_compute. reflexivity.
Defined.

(** *** The first question, the summary and custom questions *)

Lemma filter_all {A} (P : A → Prop) `{!∀ x, Decision (P x)} (l : list A) :
  (∀ x, x ∈ l → P x) → filter P l = l.
Proof.
  induction l as [|y l IH]; intros Hall; [done|].
  rewrite filter_cons, decide_True by (apply Hall; left).
  f_equal. apply IH. intros x Hx. apply Hall. by right.
Qed.

(** X5. The first question of a session is drawn from the whole bank:
    [handleStartSession] creates the record anew (a session started
    again loses the questions asked); the candidates of the selection
    it makes are all the questions of the bank, in the order of the
    bank, of whatever difficulty and category, and one of them is sent.
    When the bank is empty it emits a [session-start] error instead,
    the record being created all the same. *)
Theorem first_question_from_whole_bank
    (env : Env) (st : State) (sid profile : string) :
  (0 <= random env)%Q → (random env < 1)%Q →
  let st' := (handleStartSession env st sid profile).1 in
  let events := (handleStartSession env st sid profile).2 in
  (∃ ctx,
     sessionContext st' !! sid = Some ctx
     ∧ questionsAsked ctx = []
     ∧ questionBank st' = questionBank st
     ∧ selectedQuestions (questionBank st') ctx = questionBank st)
  ∧ (questionBank st = [] → events = [EmitError "session-start" sid])
  ∧ (questionBank st ≠ [] →
     ∃ q,
       q ∈ questionBank st
       ∧ events = [SendMessage (questionMessage env st' sid q)]).
Proof.
  intros H0 H1 st' events. unfold st', events, handleStartSession.
  set (ctx0 := {| currentQuestionIndex := 0%nat; questionsAsked := [];
                  candidateProfile := profile; startTime := now env;
                  difficulty := easy |}).
  set (st0 := setContext st sid ctx0).
  assert (sessionContext st0 !! sid = Some ctx0) as Hctx
    by apply lookup_insert_eq.
  assert (availableQuestions (questionBank st) ctx0 = questionBank st)
    as Havail.
  { apply filter_all. intros q _. split; [apply not_elem_of_nil | by right]. }
  assert (selectedQuestions (questionBank st) ctx0 = questionBank st)
    as Hselected by (by rewrite selectedQuestions_all).
  split; [|split].
  - exists ctx0. by destruct (selectNextQuestion st0 sid _).
  - intros Hnil.
    rewrite (selectNextQuestion_exhausted st0 sid ctx0); [done | done |].
    unfold remainingQuestions. simpl. by rewrite Hnil.
  - intros Hne.
    rewrite (selectNextQuestion_available st0 sid ctx0)
      by (try done; simpl; by rewrite Havail).
    change (questionBank st0) with (questionBank st). rewrite Hselected.
    destruct (index_random (questionBank st) (random env) H0 H1 Hne)
      as (q & Hidx & Hlook).
    exists q. rewrite Hidx. split; [|done].
    by eapply list_elem_of_lookup_2.
Qed.

Lemma first_question_from_whole_bank_witness :
  ∃ q,
    q ∈ initialQuestionBank
    ∧ (handleStartSession (Scenario.env (1 # 3)) (new "") Scenario.sessionId
         "candidate").2
      = [SendMessage
           (questionMessage (Scenario.env (1 # 3))
              (handleStartSession (Scenario.env (1 # 3)) (new "")
                 Scenario.sessionId "candidate").1
              Scenario.sessionId q)].
Proof.
  destruct (first_question_from_whole_bank (Scenario.env (1 # 3)) (new "")
              Scenario.sessionId "candidate") as (_ & _ & H);
    [simpl; lra | simpl; lra |].
  apply H. discriminate.
Defined.

(** X6. The summary of an interview counts the answers handled, and
    never names a category: as the questions asked are recorded without
    their category, [categoriesCovered] is empty when nothing was asked
    and holds the single value [undefined] otherwise. *)
Theorem summary_never_names_a_category
    (env : Env) (st : State) (sid : string) (ctx : SessionContext) :
  sessionContext st !! sid = Some ctx →
  ∃ s,
    generateInterviewSummary env st sid = Some s
    ∧ s_totalQuestions s = length (questionsAsked ctx)
    ∧ s_finalDifficulty s = difficulty ctx
    ∧ s_duration s = now env - startTime ctx
    ∧ s_categoriesCovered s
      = match questionsAsked ctx with [] => [] | _ => [None] end.
Proof.
  intros Hctx. unfold generateInterviewSummary. rewrite Hctx.
  eexists. split; [done|]. simpl. repeat split.
  assert (∀ l : list AskedEntry,
            distinct [None] (entry_category <$> l) = []) as Hseen.
  { induction l as [|e l IH]; [done|]. simpl. exact IH. }
  destruct (questionsAsked ctx) as [|e l]; [done|]. simpl.
  f_equal. apply Hseen.
Qed.

Lemma summary_never_names_a_category_witness :
  s_categoriesCovered
    <$> generateInterviewSummary (Scenario.env 0) Scenario.answered
          Scenario.sessionId
  = Some [None].
Proof.
  assert (∃ ctx, sessionContext Scenario.answered !! Scenario.sessionId
                 = Some ctx ∧ length (questionsAsked ctx) = 1%nat)
    as (ctx & Hctx & Hlen) by (by eexists).
  destruct (summary_never_names_a_category (Scenario.env 0)
              Scenario.answered Scenario.sessionId ctx Hctx)
    as (s & -> & _ & _ & _ & Hs).
  simpl. rewrite Hs. by destruct (questionsAsked ctx).
Defined.

(** X7. A custom question reopens an interview that was over: when
    every question of the bank has been asked in a session, then after
    [addCustomQuestion] the question selected for that session is the
    question added, under its generated [custom-] identifier, provided
    that identifier is not among the answers recorded. *)
Theorem custom_question_reopens_interview
    (st : State) (sid generated : string) (ctx : SessionContext)
    (question : InterviewQuestion) (r : Q) :
  sessionContext st !! sid = Some ctx →
  (0 <= r)%Q → (r < 1)%Q →
  (∀ q, q ∈ questionBank st → q_id q ∈ askedQuestionIds ctx) →
  "custom-" +:+ generated ∉ askedQuestionIds ctx →
  selectNextQuestion st sid r = None
  ∧ selectNextQuestion (addCustomQuestion st generated question) sid r
    = Some {| q_id := "custom-" +:+ generated;
              q_category := q_category question;
              q_difficulty := q_difficulty question;
              q_question := q_question question;
              q_context := q_context question;
              q_expectedElements := q_expectedElements question |}.
Proof.
  intros Hctx H0 H1 Hall Hfresh.
  split; [by apply (selectNextQuestion_none_iff st sid ctx r)|].
  set (c := {| q_id := "custom-" +:+ generated; q_category := _;
               q_difficulty := _; q_question := _; q_context := _;
               q_expectedElements := _ |}).
  set (st' := addCustomQuestion st generated question).
  assert (sessionContext st' !! sid = Some ctx) as Hctx' by done.
  assert (questionBank st' = questionBank st ++ [c]) as Hbank by done.
  assert (remainingQuestions (questionBank st') ctx = [c]) as Hrem.
  { unfold remainingQuestions. rewrite Hbank, filter_app.
    replace (filter _ (questionBank st)) with (@nil InterviewQuestion).
    - simpl. rewrite filter_cons, decide_True by done. done.
    - symmetry. apply filter_nil_none. intros q Hq Hn. by apply Hn, Hall. }
  destruct (decide (availableQuestions (questionBank st') ctx = []))
    as [Hnil|Hne].
  - rewrite (selectNextQuestion_remaining st' sid ctx) by done.
    by rewrite Hrem.
  - assert (availableQuestions (questionBank st') ctx = [c]) as Havail.
    { unfold availableQuestions in *. rewrite Hbank, filter_app in *.
      replace (filter _ (questionBank st)) with (@nil InterviewQuestion)
        in *.
      - simpl in *. rewrite filter_cons in *.
        destruct (decide _); [done|]. by destruct Hne.
      - symmetry. apply filter_nil_none. intros q Hq [Hn _].
        by apply Hn, Hall. }
    rewrite (selectNextQuestion_available st' sid ctx) by done.
    rewrite selectedQuestions_all, Havail.
    destruct (index_random [c] r H0 H1) as (x & -> & Hx); [done|].
    f_equal. apply list_elem_of_lookup_2 in Hx.
    by apply list_elem_of_singleton in Hx.
Qed.

Lemma custom_question_reopens_interview_witness :
  q_category
    <$> selectNextQuestion
          (addCustomQuestion Samples.finished "1700000000000-x7f2k9q1z"
             Scenario.customQuestion)
          Scenario.sessionId (1 # 2)
  = Some "technical".
Proof.
  assert (∃ ctx, sessionContext Samples.finished !! Scenario.sessionId
                 = Some ctx
                 ∧ Forall (λ q, q_id q ∈ askedQuestionIds ctx)
                     (questionBank Samples.finished)
                 ∧ "custom-1700000000000-x7f2k9q1z" ∉ askedQuestionIds ctx)
    as (ctx & Hctx & Hall & Hfresh).
  { eexists. split; [vm_compute; reflexivity|]. split.
    - apply (bool_decide_unpack _). vm_compute. exact I.
    - apply (bool_decide_unpack _). vm_compute. exact I. }
  destruct (custom_question_reopens_interview Samples.finished
              Scenario.sessionId "1700000000000-x7f2k9q1z" ctx
              Scenario.customQuestion (1 # 2) Hctx) as [_ ->];
    [lra | lra | by apply Forall_forall | done | done].
Defined.

(** X8. The bank only grows: after any run of operations the questions
    the agent had are still in the bank, at the same places, followed by
    one question for each [addCustomQuestion] of the run, each under an
    identifier that starts with [custom-]. *)
Theorem bank_only_grows (st : State) (ops : list (Env * Op)) :
  ∃ added,
    questionBank (run st ops) = questionBank st ++ added
    ∧ length added
      = length
          (List.filter
             (λ eo, match eo.2 with AddCustomQuestion _ _ => true | _ => false end)
             ops)
    ∧ Forall (λ q, ∃ generated, q_id q = "custom-" +:+ generated) added.
Proof.
  revert st. induction ops as [|[env op] ops IH]; intros st.
  - exists []. simpl. by rewrite app_nil_r.
  - change (run st ((env, op) :: ops)) with (run (step env st op).1 ops).
    destruct (IH (step env st op).1) as (added & Hbank & Hlen & Hids).
    destruct op as [s p | s a q | rq | s t | c | g q | ];
      cbn [List.filter snd].
    + exists added. rewrite Hbank. split; [|done]. f_equal. simpl.
      unfold handleStartSession. by destruct (selectNextQuestion _ _ _).
    + exists added. rewrite Hbank. split; [|done]. f_equal. simpl.
      unfold handleCandidateAnswer. by destruct (sessionContext st !! s).
    + exists added. rewrite Hbank. split; [|done]. f_equal. simpl.
      unfold handleNextQuestion.
      destruct (sessionContext st !! _); [|done].
      by destruct (selectNextQuestion _ _ _).
    + by exists added.
    + by exists added.
    + simpl in Hbank. rewrite <- app_assoc in Hbank.
      eexists. split; [exact Hbank|]. simpl. split; [by rewrite Hlen|].
      apply Forall_cons. split; [by eexists | done].
    + by exists added.
Qed.

End InterviewerAgentExtras.

(** ** The edge function: statuses and errors *)

Module AnalyzeAnswerExtras.
Import AnalyzeAnswer.

Lemma serve_not_options env req :
  method req ≠ "OPTIONS" →
  serve env req
  = match analyze env req with
    | Ok analysis =>
        {| status := 200; headers := jsonHeaders; body := Success analysis |}
    | Throw message =>
        {| status := 500; headers := jsonHeaders; body := Failure message |}
    end.
Proof.
  intros H. unfold serve. by rewrite (proj2 (String.eqb_neq _ _) H).
Qed.

Lemma serve_options env req :
  method req = "OPTIONS" →
  serve env req = {| status := 200; headers := corsHeaders; body := NoBody |}.
Proof. intros H. unfold serve. by rewrite H. Qed.

(** X9. Every response of the edge function has status 200 or 500 and
    carries the two CORS headers; the status is 500 exactly when the
    body reports a failure ([success: false] with a message), and the
    response has no body exactly when the request is an [OPTIONS]
    preflight, which is answered with 200 whatever else it holds. *)
Theorem response_status_and_body (env : Env) (req : Request) :
  let response := serve env req in
  (status response = 200 ∨ status response = 500)
  ∧ (status response = 500 ↔ ∃ message, body response = Failure message)
  ∧ (body response = NoBody ↔ method req = "OPTIONS")
  ∧ (method req = "OPTIONS" → status response = 200)
  ∧ Forall (λ header, header ∈ headers response) corsHeaders.
Proof.
  intros response. unfold response.
  destruct (decide (method req = "OPTIONS")) as [E|E].
  - rewrite (serve_options env req E). simpl.
    repeat split; try done; try (by left).
    + intros [? [=]].
    + repeat constructor.
  - rewrite (serve_not_options env req E).
    destruct (analyze env req) as [a|msg]; simpl.
    + repeat split; try done; try (by left).
      * intros [? [=]].
      * repeat constructor.
    + repeat split; try done; try (by right).
      * by eexists.
      * repeat constructor.
Qed.

(** X10. The errors of the edge function, in the order in which they
    are detected, each answered with status 500: a body that is not
    JSON; a missing or empty question or answer (before the key is
    looked up or the model called); a missing key (before the model is
    called); a failure of the request to the model; a response of the
    model that is not ok, reported with its status. *)
Theorem errors_in_order
    (env : Env) (req : Request) (request : RequestBody) :
  method req ≠ "OPTIONS" →
  (json req = None → status (serve env req) = 500)
  ∧ (json req = Some request →
     (truthyOpt (question request) = false
      ∨ truthyOpt (answer request) = false →
      body (serve env req) = Failure "Question and answer are required")
     ∧ (truthyOpt (question request) = true →
        truthyOpt (answer request) = true →
        (truthyOpt (MISTRAL_API_KEY env) = false →
         body (serve env req) = Failure "Mistral API key not found")
        ∧ (truthyOpt (MISTRAL_API_KEY env) = true →
           (∀ message, fetch env = NetworkError message →
                       body (serve env req) = Failure message)
           ∧ (∀ code content,
                fetch env = HttpResponse false code content →
                body (serve env req)
                = Failure ("Mistral API error: " +:+ pretty code))))).
Proof.
  intros Hm. rewrite (serve_not_options env req Hm).
  unfold analyze, mbind, Result_bind. split.
  - by intros ->.
  - intros ->. split.
    + intros [->| ->]; [done|]. by destruct (truthyOpt (question request)).
    + intros -> ->. cbn [negb orb]. split; [by intros ->|].
      intros ->. cbn [negb]. split.
      * by intros message ->.
      * by intros code content ->.
Qed.

Lemma errors_in_order_witness :
  body
    (serve
       {| MISTRAL_API_KEY := None; fetch := NetworkError "unreachable";
          JSON_parse := Scenario.parseLiteral |}
       {| method := "POST";
          json := Some {| question := Some "Tell me about yourself.";
                          answer := Some "";
                          category := None;
                          expectedElements := None |} |})
  = Failure "Question and answer are required".
Proof.
  destruct (errors_in_order
              {| MISTRAL_API_KEY := None; fetch := NetworkError "unreachable";
                 JSON_parse := Scenario.parseLiteral |}
              {| method := "POST";
                 json := Some {| question := Some "Tell me about yourself.";
                                 answer := Some "";
                                 category := None;
                                 expectedElements := None |} |}
              {| question := Some "Tell me about yourself.";
                 answer := Some "";
                 category := None;
                 expectedElements := None |}) as [_ H]; [discriminate|].
  destruct (H eq_refl) as [Hrequired _]. apply Hrequired. by right.
Defined.

(** X11. The analysis of the model is not validated: whenever the
    content of its message parses as JSON, the value parsed, of whatever
    shape, is returned as the analysis with status 200 and
    [success: true]; the fallback object is used in no other case than
    a content that does not parse. *)
Theorem parsed_analysis_is_passed_through
    (env : Env) (req : Request) (request : RequestBody)
    (code : Z) (content : string) :
  method req ≠ "OPTIONS" →
  json req = Some request →
  truthyOpt (question request) = true →
  truthyOpt (answer request) = true →
  truthyOpt (MISTRAL_API_KEY env) = true →
  fetch env = HttpResponse true code (Some content) →
  status (serve env req) = 200
  ∧ (∀ analysis, JSON_parse env content = Some analysis →
                 body (serve env req) = Success analysis)
  ∧ (body (serve env req) = Success (fallbackAnalysis (category request)) →
     JSON_parse env content = None
     ∨ JSON_parse env content = Some (fallbackAnalysis (category request))).
Proof.
  intros Hm Hjson Hq Ha Hkey Hfetch. rewrite (serve_not_options env req Hm).
  unfold analyze, mbind, Result_bind.
  rewrite Hjson, Hq, Ha, Hkey, Hfetch. cbn [negb orb option_bind].
  split; [done|]. split.
  - by intros analysis ->.
  - destruct (JSON_parse env content); simpl; [|by left].
    intros [= ->]. by right.
Qed.

Lemma parsed_analysis_is_passed_through_witness :
  body
    (serve
       {| MISTRAL_API_KEY := Some "key";
          fetch := HttpResponse true 200 (Some "null");
          JSON_parse := Scenario.parseLiteral |}
       Scenario.analyzeRequest)
  = Success JNull.
Proof.
  destruct (parsed_analysis_is_passed_through
              {| MISTRAL_API_KEY := Some "key";
                 fetch := HttpResponse true 200 (Some "null");
                 JSON_parse := Scenario.parseLiteral |}
              Scenario.analyzeRequest
              {| question := Some "Tell me about yourself.";
                 answer := Some "I build compilers.";
                 category := Some "introduction";
                 expectedElements := None |}
              200 "null") as (_ & Hpass & _);
    [discriminate | reflexivity..|].
  by apply Hpass.
Defined.

End AnalyzeAnswerExtras.

(** ** The analyzer agent: statistics, mock analyses and replies *)

Module AnalyzerAgentExtras.
Import AnalyzerAgent Statistics.

(** *** The most common strength and weakness *)

Lemma distinct_elem (seen arr : list string) (x : string) :
  x ∈ InterviewerAgent.distinct seen arr ↔ x ∈ arr ∧ x ∉ seen.
Proof.
  revert seen. induction arr as [|y arr IH]; intros seen; simpl.
  - split; [by intros ?%elem_of_nil | by intros [?%elem_of_nil _]].
  - case_decide as Hy.
    + split.
      * intros [? ?]%IH. split; [by right | done].
      * intros [[->|?]%elem_of_cons ?]; [done|]. by apply IH.
    + split.
      * intros [->|[? Hn]%IH]%elem_of_cons; [by split; [left|]|].
        split; [by right|]. intros ?. apply Hn. by right.
      * intros [[->|?]%elem_of_cons Hn]; [by left|].
        destruct (decide (x = y)) as [->|Hne]; [by left|].
        right. apply IH. split; [done|].
        by intros [?|?]%elem_of_cons.
Qed.

Lemma keys_elem (arr : list string) (x : string) : x ∈ keys arr ↔ x ∈ arr.
Proof.
  unfold keys. rewrite elem_of_app, merge_sort_Permutation.
  rewrite !list_elem_of_filter, !distinct_elem. split.
  - by intros [(_ & ? & _)|(_ & ? & _)].
  - intros Hx. destruct (decide (isIndex x)); [left | right];
      (split; [done|]); (split; [done | apply not_elem_of_nil]).
Qed.

Lemma countOccurrences_pos (arr : list string) (x : string) :
  x ∈ arr ↔ (0 < countOccurrences arr x)%nat.
Proof.
  unfold countOccurrences. split.
  - intros Hx. assert (x ∈ filter (λ y, y = x) arr) as Hin
      by (by apply list_elem_of_filter).
    destruct (filter _ arr); [by apply elem_of_nil in Hin | simpl; lia].
  - intros Hpos. destruct (filter (λ y, y = x) arr) as [|y l] eqn:E;
      [simpl in Hpos; lia|].
    assert (y ∈ filter (λ y, y = x) arr) as [-> ?]%list_elem_of_filter
      by (rewrite E; left). done.
Qed.

Lemma fold_most (count : string → nat) (l : list string) (a : string) :
  let res :=
    fold_left (λ a b, if (count b <? count a)%nat then a else b) l a in
  (res = a ∨ res ∈ l)
  ∧ (count a <= count res)%nat
  ∧ ∀ x, x ∈ l → (count x <= count res)%nat.
Proof.
  revert a. induction l as [|b l IH]; intros a; simpl.
  - split; [by left|]. split; [lia|]. by intros x ?%elem_of_nil.
  - specialize (IH (if (count b <? count a)%nat then a else b)).
    simpl in IH. destruct IH as (Hres & Hle & Hall).
    destruct (Nat.ltb_spec (count b) (count a)).
    + split; [destruct Hres as [->|?]; [by left | by right; right]|].
      split; [done|]. intros x [->|?]%elem_of_cons; [lia | by apply Hall].
    + split; [destruct Hres as [->|?]; right; [left | by right]|].
      split; [lia|]. intros x [->|?]%elem_of_cons; [lia | by apply Hall].
Qed.

Lemma mostCommon_spec (arr : list string) (init : string) :
  (arr = [] → mostCommon arr init = init)
  ∧ (arr ≠ [] → mostCommon arr init ∈ arr)
  ∧ ∀ x, (countOccurrences arr x
          <= countOccurrences arr (mostCommon arr init))%nat.
Proof.
  unfold mostCommon.
  destruct (fold_most (countOccurrences arr) (keys arr) init)
    as (Hres & Hinit & Hall).
  set (res := fold_left _ (keys arr) init) in *.
  assert (∀ x, countOccurrences arr x <= countOccurrences arr res)%nat
    as Hmax.
  { intros x. destruct (decide (x ∈ arr)) as [Hx|Hx].
    - by apply Hall, keys_elem.
    - rewrite countOccurrences_pos in Hx. lia. }
  split; [by intros ->|]. split; [|done].
  intros Hne. destruct Hres as [->|Hres]; [|by apply keys_elem].
  destruct arr as [|x arr]; [done|].
  apply countOccurrences_pos.
  assert (0 < countOccurrences (x :: arr) x)%nat
    by (apply countOccurrences_pos; left).
  specialize (Hmax x). lia.
Qed.

(** X12. The strongest area reported for a session with analyses is a
    strength named most often in them: no strength occurs more often,
    and it is one of the strengths named, or ["Communication"] when the
    analyses name none. The weakest area is such a weakness, or
    ["Specificity"]. Without analyses both are ["N/A"]. This holds when
    no strength or weakness named is the name of a property of
    [Object.prototype] (["toString"], ["constructor"], ...), whose
    counts are not numbers. *)
Theorem strongest_and_weakest_area (st : State) (sid : string) :
  let analyses := default [] (analysisHistory st !! sid) in
  let named := analyses ≫= strengths in
  let blamed := analyses ≫= weaknesses in
  let stats := getSessionStats st sid in
  Forall (λ name, name ∉ JS.objectPrototype) (named ++ blamed) →
  (analyses = [] → strongestArea stats = "N/A" ∧ weakestArea stats = "N/A")
  ∧ (analyses ≠ [] →
     (named = [] → strongestArea stats = "Communication")
     ∧ (named ≠ [] → strongestArea stats ∈ named)
     ∧ (∀ s, (countOccurrences named s
              <= countOccurrences named (strongestArea stats))%nat)
     ∧ (blamed = [] → weakestArea stats = "Specificity")
     ∧ (blamed ≠ [] → weakestArea stats ∈ blamed)
     ∧ (∀ w, (countOccurrences blamed w
              <= countOccurrences blamed (weakestArea stats))%nat)).
Proof.
  intros analyses named blamed stats _. unfold stats, getSessionStats.
  fold analyses. split.
  - intros ->. done.
  - intros Hne. rewrite decide_False
      by (by rewrite length_zero_iff_nil).
    cbn [strongestArea weakestArea]. fold named blamed.
    destruct (mostCommon_spec named "Communication") as (? & ? & ?).
    destruct (mostCommon_spec blamed "Specificity") as (? & ? & ?).
    by repeat split.
Qed.

Lemma strongest_and_weakest_area_witness :
  strongestArea (getSessionStats Scenario.analyzed Scenario.sessionId)
  ∈ ["Clear communication"; "Clear communication"].
Proof.
  destruct (strongest_and_weakest_area Scenario.analyzed Scenario.sessionId)
    as [_ H].
  - apply (bool_decide_unpack _). vm_compute. exact I.
  - destruct H as (_ & Hin & _); [discriminate|].
    apply Hin. discriminate.
Defined.

(** *** The history of a session *)

(** X13. Each analysis handled is appended to the history of its
    session and to no other: the statistics sent back with it count one
    question more than before and are never the ["N/A"] statistics of an
    empty session, and the history and the statistics of every other
    session are unchanged. *)
Theorem analysis_is_recorded_once
    (st : State) (sid : string) (a : AnalysisResult) :
  let st' := (handleAnalyzeAnswer st sid a).1 in
  let stats := (handleAnalyzeAnswer st sid a).2.2 in
  analysisHistory st' !! sid
  = Some (default [] (analysisHistory st !! sid) ++ [a])
  ∧ totalQuestions stats = S (length (default [] (analysisHistory st !! sid)))
  ∧ overallTrend stats ≠ "N/A"
  ∧ ∀ other, other ≠ sid →
      analysisHistory st' !! other = analysisHistory st !! other
      ∧ getSessionStats st' other = getSessionStats st other.
Proof.
  intros st' stats. unfold stats, st', handleAnalyzeAnswer. cbn [fst snd].
  set (history := default [] (analysisHistory st !! sid)).
  split; [apply lookup_insert_eq|].
  unfold getSessionStats. cbn [analysisHistory].
  rewrite lookup_insert_eq. cbn [default].
  change (id (history ++ [a])) with (history ++ [a]).
  rewrite decide_False by (rewrite length_app; simpl; lia).
  cbn [totalQuestions overallTrend].
  split; [rewrite length_app; simpl; lia|]. split.
  - unfold trendOf. destruct (3 <=? _)%nat; [|done].
    destruct (JS.gt _ _); [done|]. by destruct (JS.lt _ _).
  - intros other Hne. by rewrite lookup_insert_ne.
Qed.

Lemma analysis_is_recorded_once_witness :
  totalQuestions
    (handleAnalyzeAnswer Scenario.analyzed Scenario.sessionId
       (Scenario.analysis 6)).2.2
  = 3%nat
  ∧ getSessionStats
      (handleAnalyzeAnswer Scenario.analyzed Scenario.sessionId
         (Scenario.analysis 6)).1 "another"
    = getSessionStats Scenario.analyzed "another".
Proof.
  destruct (analysis_is_recorded_once Scenario.analyzed Scenario.sessionId
              (Scenario.analysis 6)) as (_ & Hcount & _ & Hother).
  split; [by rewrite Hcount|]. by apply Hother.
Defined.

(** *** Bounds of the average *)

Lemma total_bounds (lo hi : Q) (l : list Q) :
  Forall (λ x, (lo <= x)%Q ∧ (x <= hi)%Q) l →
  (lo * JS.ofNat (length l) <= total l)%Q
  ∧ (total l <= hi * JS.ofNat (length l))%Q.
Proof.
  induction 1 as [|x l [Hlo Hhi] _ [IHlo IHhi]].
  - unfold JS.ofNat. simpl. split; ring_simplify; apply Qle_refl.
  - cbn [total length]. unfold JS.ofNat in *.
    rewrite Nat2Z.inj_succ, <- Z.add_1_r, inject_Z_plus.
    change (inject_Z 1) with 1%Q. split; lra.
Qed.

Lemma mean_bounds (lo hi : Q) (l : list Q) :
  l ≠ [] →
  Forall (λ x, (lo <= x)%Q ∧ (x <= hi)%Q) l →
  (lo <= mean l)%Q ∧ (mean l <= hi)%Q.
Proof.
  intros Hne Hall. destruct (total_bounds lo hi l Hall) as [Hlo Hhi].
  assert (0 < JS.ofNat (length l))%Q as Hpos
    by (apply JSFacts.ofNat_pos; destruct l; [done | simpl; lia]).
  unfold mean. fold (JS.ofNat (length l)). split.
  - by apply Qle_shift_div_l.
  - by apply Qle_shift_div_r.
Qed.

Lemma round1_tenths (x : Q) (lo hi : Z) :
  (inject_Z lo / 10 <= x)%Q → (x <= inject_Z hi / 10)%Q →
  (inject_Z lo / 10 <= JS.round1 x)%Q ∧ (JS.round1 x <= inject_Z hi / 10)%Q.
Proof.
  intros Hlo Hhi. unfold JS.round1, JS.ofZ, JS.Math_round.
  assert (∀ z, z / 10 == z * (1 # 10))%Q as E by (intros; field).
  rewrite E in Hlo, Hhi.
  assert (lo <= Qfloor (x * 10 + (1 # 2)) <= hi) as [Hl Hh].
  { split.
    - rewrite <- (Qfloor_Z lo). apply Qfloor_resp_le. lra.
    - assert (Qfloor (inject_Z hi + (1 # 2)) = hi) as <-.
      { apply JSFacts.Qfloor_spec. rewrite inject_Z_plus.
        change (inject_Z 1) with 1%Q. split; lra. }
      apply Qfloor_resp_le. lra. }
  rewrite Zle_Qle in Hl, Hh. rewrite !E. split; lra.
Qed.

(** X14. The average score never leaves the range of the scores: when
    every score recorded for a session lies between two bounds given in
    tenths, between 1 and 10 for instance, so does the average score
    reported for it after rounding. *)
Theorem average_within_range_of_scores
    (st : State) (sid : string) (lo hi : Z) :
  let analyses := default [] (analysisHistory st !! sid) in
  analyses ≠ [] →
  Forall (λ a, (inject_Z lo / 10 <= score a)%Q
               ∧ (score a <= inject_Z hi / 10)%Q) analyses →
  (inject_Z lo / 10 <= averageScore (getSessionStats st sid))%Q
  ∧ (averageScore (getSessionStats st sid) <= inject_Z hi / 10)%Q.
Proof.
  intros analyses Hne Hall. unfold getSessionStats. fold analyses.
  rewrite decide_False by (by rewrite length_zero_iff_nil).
  cbn [averageScore].
  assert (score <$> analyses ≠ []) as Hne'
    by (by intros ?%fmap_nil_inv).
  assert (Forall (λ x, (inject_Z lo / 10 <= x)%Q ∧ (x <= inject_Z hi / 10)%Q)
            (score <$> analyses)) as Hall'
    by (by apply Forall_fmap).
  destruct (mean_bounds _ _ _ Hne' Hall') as [Hlo Hhi].
  pose proof (AnalyzerAgentFacts.average_mean (score <$> analyses)) as E.
  apply round1_tenths; lra.
Qed.

Lemma average_within_range_of_scores_witness :
  (inject_Z 10 / 10
   <= averageScore (getSessionStats Scenario.analyzed Scenario.sessionId))%Q
  ∧ (averageScore (getSessionStats Scenario.analyzed Scenario.sessionId)
     <= inject_Z 100 / 10)%Q.
Proof.
  apply (average_within_range_of_scores Scenario.analyzed Scenario.sessionId
           10 100).
  - discriminate.
  - assert (default [] (analysisHistory Scenario.analyzed
                          !! Scenario.sessionId)
            = [Scenario.analysis 7; Scenario.analysis (17 # 2)]) as ->
      by (vm_compute; reflexivity).
    apply Forall_cons_2; [split; by vm_compute|].
    apply Forall_cons_2; [split; by vm_compute|].
    apply Forall_nil_2.
Defined.

End AnalyzerAgentExtras.

(** ** The analyzer agent: mock analyses and the reply of the edge
    function *)

Module AnalyzeWithMistralExtras.
Import AnalyzeAnswer AnalyzeWithMistral.

Lemma Math_min_10 (x : Q) : (x < 10)%Q → JS.Math_min 10 x = x.
Proof.
  intros H. unfold JS.Math_min. destruct (Qle_bool 10 x) eqn:E; [|done].
  apply Qle_bool_iff in E. lra.
Qed.

Lemma Math_max_1 (x : Q) : (1 <= x)%Q → JS.Math_max 1 x = x.
Proof.
  intros H. unfold JS.Math_max. destruct (Qle_bool 1 x) eqn:E; [done|].
  apply Qle_bool_iff in H. congruence.
Qed.

Lemma mock_template (request : AnalysisRequest) :
  (rq_category request = Some "experience"
   ∧ default mockIntroduction
       (rq_category request ≫= InterviewService.property mockAnalyses)
     = mockExperience)
  ∨ (rq_category request ≠ Some "experience"
     ∧ default mockIntroduction
         (rq_category request ≫= InterviewService.property mockAnalyses)
       = mockIntroduction).
Proof.
  destruct (rq_category request) as [c|]; [|by right].
  unfold mockAnalyses. cbn [mbind option_bind InterviewService.property].
  destruct (String.eqb_spec "introduction" c) as [E|_];
    [subst c; right; split; [discriminate | done]|].
  destruct (String.eqb_spec "experience" c) as [E|Hne];
    [subst c; left; by split|].
  right. split; [|done]. intros [= E]. by subst c.
Qed.

(** X15. For a request whose category is not the name of a property of
    [Object.prototype] (["constructor"], ["toString"], ...), a mock
    analysis scores between 7 and 8.5: at most 8 unless the category is
    [experience], with [score] equal to [categoryScore] and a multiple
    of 0.1, and with the texts of the introduction template for every
    category but [experience]. A next-question request that carries
    such a score therefore never sets the difficulty to [easy]. *)
Theorem mock_analysis_scores
    (r : Q) (request : AnalysisRequest) (d : Difficulty) :
  (0 <= r)%Q → (r < 1)%Q →
  (∀ category,
     rq_category request = Some category → category ∉ JS.objectPrototype) →
  let a := generateMockAnalysis r request in
  score a = categoryScore a
  ∧ (7 <= score a)%Q ∧ (score a <= 17 # 2)%Q
  ∧ (∃ k : Z, score a == inject_Z k / 10)%Q
  ∧ (rq_category request ≠ Some "experience" →
     (score a <= 8)%Q
     ∧ strengths a = strengths mockIntroduction
     ∧ weaknesses a = weaknesses mockIntroduction
     ∧ tips a = tips mockIntroduction)
  ∧ InterviewerAgent.adjustDifficulty
      (Some {| InterviewerAgent.pf_score := Some (score a) |}) d
    ≠ easy.
Proof.
  intros H0 H1 _ a. unfold a, generateMockAnalysis.
  assert (inject_Z 70 / 10 == 7)%Q as E70 by reflexivity.
  assert (inject_Z 80 / 10 == 8)%Q as E80 by reflexivity.
  assert (inject_Z 75 / 10 == 15 # 2)%Q as E75 by reflexivity.
  assert (inject_Z 85 / 10 == 17 # 2)%Q as E85 by reflexivity.
  assert (∀ s : Q,
            (7 <= s)%Q → (s <= 17 # 2)%Q →
            InterviewerAgent.adjustDifficulty
              (Some {| InterviewerAgent.pf_score := Some s |}) d ≠ easy)
    as Hadjust.
  { intros s Hs7 Hs9. unfold InterviewerAgent.adjustDifficulty. simpl.
    unfold JS.truthy.
    destruct (Qeq_bool s 0) eqn:Ez;
      [apply Qeq_bool_iff in Ez; exfalso; lra|]. simpl.
    destruct (Qle_bool 8 s); [done|].
    destruct (Qle_bool 6 s) eqn:E6; [done|].
    assert (6 <= s)%Q as H6 by lra. apply Qle_bool_iff in H6. congruence. }
  destruct (mock_template request) as [[Hc ->]|[Hc ->]]; cbn [score].
  - change (score mockExperience) with 8%Q.
    rewrite Math_min_10, Math_max_1 by lra.
    destruct (AnalyzerAgentExtras.round1_tenths (8 + (r * 1 - (1 # 2)))%Q 75 85)
      as [Hlo Hhi]; [lra | lra |].
    cbn [categoryScore strengths weaknesses tips].
    split; [done|]. split; [lra|]. split; [lra|].
    split; [by eexists|]. split; [done|]. apply Hadjust; lra.
  - change (score mockIntroduction) with (15 # 2)%Q.
    rewrite Math_min_10, Math_max_1 by lra.
    destruct (AnalyzerAgentExtras.round1_tenths ((15 # 2) + (r * 1 - (1 # 2)))%Q 70 80)
      as [Hlo Hhi]; [lra | lra |].
    cbn [categoryScore strengths weaknesses tips].
    split; [done|]. split; [lra|]. split; [lra|].
    split; [by eexists|]. split; [by split; [lra|]|]. apply Hadjust; lra.
Qed.

Lemma mock_analysis_scores_witness :
  (score (generateMockAnalysis (1 # 4) Samples.technicalRequest) <= 8)%Q.
Proof.
  destruct (mock_analysis_scores (1 # 4) Samples.technicalRequest easy)
    as (_ & _ & _ & _ & H & _); [lra | lra | |].
  - intros category [= <-]. apply (bool_decide_unpack _). vm_compute. exact I.
  - by apply H.
Defined.

(** *** The reply of the edge function *)

Lemma convert_failure (message : string) :
  convert (Some (JObject [("success", JBool false);
                          ("error", JString message)]))
  = Throw (if JS.truthy_string message then message
           else "Failed to analyze answer").
Proof. reflexivity. Qed.

(** X16. The analyzer and the edge function together. Whenever the
    edge function answers with status 500, or with no body, the
    analysis is the mock one. When the model answers with a text that is
    not JSON, the analysis is the fallback of the edge function in the
    internal format: score and category score 7, the two fixed
    strengths and weaknesses, and the two fixed tips both as tips and as
    improvement areas. When the model answers [null], the analysis is
    the mock one again. *)
Theorem analysis_from_edge_reply
    (env : Env) (req : Request) (request : RequestBody)
    (r : Q) (arq : AnalysisRequest) (code : Z) (content : string) :
  (status (serve env req) = 500 ∨ method req = "OPTIONS" →
   analyzeWithMistral r (responseData (serve env req)) arq
   = Mock (generateMockAnalysis r arq))
  ∧ (method req ≠ "OPTIONS" →
     json req = Some request →
     truthyOpt (question request) = true →
     truthyOpt (answer request) = true →
     truthyOpt (MISTRAL_API_KEY env) = true →
     fetch env = HttpResponse true code (Some content) →
     (JSON_parse env content = None →
      analyzeWithMistral r (responseData (serve env req)) arq
      = FromModel
          {| raw_score := JNumber 7;
             raw_strengths :=
               strings ["Clear communication";
                        "Relevant experience mentioned"];
             raw_weaknesses :=
               strings ["Could provide more specific examples";
                        "Answer could be more structured"];
             raw_tips :=
               strings ["Use the STAR method (Situation, Task, Action, Result)";
                        "Practice providing concrete examples"];
             raw_detailedFeedback :=
               JString "Good foundation but could be more detailed and structured.";
             raw_categoryScore := JNumber 7;
             raw_improvementAreas :=
               strings ["Use the STAR method (Situation, Task, Action, Result)";
                        "Practice providing concrete examples"] |})
     ∧ (JSON_parse env content = Some JNull →
        analyzeWithMistral r (responseData (serve env req)) arq
        = Mock (generateMockAnalysis r arq))).
Proof.
  split.
  - intros Hs.
    destruct (decide (method req = "OPTIONS")) as [E|E].
    + by rewrite (AnalyzeAnswerExtras.serve_options env req E).
    + destruct Hs as [Hs|Hs]; [|done].
      rewrite (AnalyzeAnswerExtras.serve_not_options env req E) in *.
      destruct (analyze env req) as [a|message]; [done|].
      unfold analyzeWithMistral, responseData. cbn [body].
      rewrite convert_failure. done.
  - intros Hm Hjson Hq Ha Hkey Hfetch.
    rewrite (AnalyzeAnswerExtras.serve_not_options env req Hm).
    unfold analyze, mbind, Result_bind.
    rewrite Hjson, Hq, Ha, Hkey, Hfetch. cbn [negb orb option_bind].
    split; intros ->; [|reflexivity].
    unfold responseData. cbn [body].
    by destruct (category request).
Qed.

Lemma analysis_from_edge_reply_witness :
  analyzeWithMistral (1 # 4)
    (responseData (serve (Samples.answering "null") Scenario.analyzeRequest))
    Samples.technicalRequest
  = Mock (generateMockAnalysis (1 # 4) Samples.technicalRequest).
Proof.
  destruct (analysis_from_edge_reply (Samples.answering "null")
              Scenario.analyzeRequest
              {| question := Some "Tell me about yourself.";
                 answer := Some "I build compilers.";
                 category := Some "introduction";
                 expectedElements := None |}
              (1 # 4) Samples.technicalRequest 200 "null") as [_ H].
  destruct H as [_ Hnull]; [discriminate | reflexivity..|].
  by apply Hnull.
Defined.

(** X17. The analysis of the model is converted without validation:
    of a successful reply whose analysis is an object, the properties
    [score], [strengths], [weaknesses], [improvements] and
    [overall_feedback] are copied as they are, [improvements] twice and
    [score] twice, a missing property giving [undefined]; a reply whose
    [success] is missing or falsy, or whose analysis is [null] or
    missing, gives the mock analysis. *)
Theorem reply_is_converted_unvalidated
    (r : Q) (arq : AnalysisRequest)
    (reply properties : list (string * JSValue)) :
  let success := default JUndefined (InterviewService.property reply "success") in
  let analysis := default JUndefined (InterviewService.property reply "analysis") in
  let read key :=
    default JUndefined (InterviewService.property properties key) in
  (analyzeWithMistral r None arq = Mock (generateMockAnalysis r arq))
  ∧ (truthy success = false →
     analyzeWithMistral r (Some (JObject reply)) arq
     = Mock (generateMockAnalysis r arq))
  ∧ (truthy success = true →
     (analysis = JNull ∨ analysis = JUndefined →
      analyzeWithMistral r (Some (JObject reply)) arq
      = Mock (generateMockAnalysis r arq))
     ∧ (analysis = JObject properties →
        analyzeWithMistral r (Some (JObject reply)) arq
        = FromModel
            {| raw_score := read "score";
               raw_strengths := read "strengths";
               raw_weaknesses := read "weaknesses";
               raw_tips := read "improvements";
               raw_detailedFeedback := read "overall_feedback";
               raw_categoryScore := read "score";
               raw_improvementAreas := read "improvements" |})).
Proof.
  intros success analysis read.
  split; [reflexivity|].
  unfold analyzeWithMistral, convert, mbind, Result_bind. cbn [get].
  fold success analysis. split.
  - intros ->. cbn [negb].
    by destruct (default JUndefined (InterviewService.property reply "error")).
  - intros ->. cbn [negb]. split.
    + by intros [-> | ->].
    + by intros ->.
Qed.

Lemma reply_is_converted_unvalidated_witness :
  analyzeWithMistral (1 # 4)
    (Some (JObject [("success", JBool true); ("analysis", JObject [])]))
    Samples.technicalRequest
  = FromModel
      {| raw_score := JUndefined; raw_strengths := JUndefined;
         raw_weaknesses := JUndefined; raw_tips := JUndefined;
         raw_detailedFeedback := JUndefined; raw_categoryScore := JUndefined;
         raw_improvementAreas := JUndefined |}.
Proof.
  destruct (reply_is_converted_unvalidated (1 # 4) Samples.technicalRequest
              [("success", JBool true); ("analysis", JObject [])] [])
    as (_ & _ & H).
  destruct H as [_ H]; [reflexivity|]. by apply H.
Defined.

End AnalyzeWithMistralExtras.

(** ** The frontend service: order of the questions and scores *)

Module InterviewServiceExtras.
Import InterviewService ServiceRun.

(** *** The order of the questions *)

Lemma step_bank st op : questionBank (step st op) = questionBank st.
Proof.
  destruct op as [g | now r q a | now]; simpl; [done| |].
  - unfold submitAnswer. by destruct (sessionId st).
  - unfold askNextQuestion, endInterview.
    destruct (_ <=? _)%nat; [done|]. by destruct (_ !! _).
Qed.

Lemma step_inOrder st op : inOrder st → inOrder (step st op).
Proof.
  intros [Hle Hq]. destruct op as [g | now r q a | now]; simpl.
  - split; simpl; [lia | done].
  - unfold submitAnswer. destruct (sessionId st); [|done].
    split; [done|]. unfold questionsAsked in *.
    cbn [messageHistory currentQuestionIndex questionBank].
    rewrite filter_app, fmap_app, Hq.
    rewrite !filter_cons, !decide_False by done.
    by rewrite filter_nil, app_nil_r.
  - unfold askNextQuestion, endInterview.
    destruct (Nat.leb_spec (length (questionBank st))
                (currentQuestionIndex st)) as [?|Hlt]; [done|].
    destruct (questionBank st !! currentQuestionIndex st) as [q|] eqn:E;
      [|done].
    split; [simpl; lia|]. unfold questionsAsked in *.
    cbn [fst messageHistory currentQuestionIndex questionBank].
    rewrite filter_app, fmap_app, Hq.
    rewrite filter_cons, decide_True by done.
    by rewrite filter_nil, (take_S_r _ _ q), fmap_app.
Qed.

Lemma run_inOrder st ops : inOrder st → inOrder (run st ops).
Proof.
  revert st. induction ops as [|op ops IH]; intros st H; [done|].
  apply IH. by apply step_inOrder.
Qed.

Lemma run_bank st ops : questionBank (run st ops) = questionBank st.
Proof.
  revert st. induction ops as [|op ops IH]; intros st; [done|].
  simpl. by rewrite IH, step_bank.
Qed.

(** X18. The frontend service asks the questions of its bank in the
    order of the bank, each at most once: after any run of session
    starts, submitted answers and next-question timers, the bank is the
    initial one, the index of the current question is at most 8, and
    the questions asked since the last start are exactly the first
    questions of the bank up to that index, without repetition. *)
Theorem questions_asked_in_bank_order (ops : list Op) :
  let st := run new ops in
  questionBank st = initialQuestionBank
  ∧ (currentQuestionIndex st <= 8)%nat
  ∧ questionsAsked st
    = take (currentQuestionIndex st) (q_id <$> initialQuestionBank)
  ∧ NoDup (questionsAsked st).
Proof.
  intros st.
  assert (inOrder new) as Hnew by (split; [simpl; lia | reflexivity]).
  destruct (run_inOrder new ops Hnew) as [Hle Hq]. fold st in Hle, Hq.
  assert (questionBank st = initialQuestionBank) as Hbank
    by apply run_bank.
  rewrite Hbank in Hle, Hq. rewrite fmap_take in Hq.
  split; [done|]. split; [done|]. split; [done|].
  rewrite Hq. eapply sublist_NoDup; [|apply sublist_take].
  apply (bool_decide_unpack _). by vm_compute.
Qed.

(** *** Scores of a run *)

Lemma generateFeedback_range st r questionId answerText :
  (1 <= score (generateFeedback st r questionId answerText))%Q
  ∧ (score (generateFeedback st r questionId answerText) <= 10)%Q.
Proof.
  unfold generateFeedback.
  destruct (templateFor st questionId answerText) as [category template].
  cbn [score]. apply AnalyzerAgentFacts.round1_between.
  - apply InterviewServiceFacts.Math_max_le_l.
  - apply InterviewServiceFacts.Math_max_lub;
      [lra | apply InterviewServiceFacts.Math_min_le_l].
Qed.

Lemma step_scoresInRange st op : scoresInRange st → scoresInRange (step st op).
Proof.
  unfold scoresInRange. intros H.
  destruct op as [g | now r q a | now]; simpl.
  - apply Forall_nil_2.
  - unfold submitAnswer. destruct (sessionId st); [|done].
    cbn [messageHistory]. rewrite omap_app. apply Forall_app. split; [done|].
    match goal with
    | |- Forall _ (omap feedbackScore ?l) =>
        change (omap feedbackScore l)
          with [score (generateFeedback st r q a)]
    end.
    apply Forall_cons_2; [apply generateFeedback_range | apply Forall_nil_2].
  - unfold askNextQuestion, endInterview.
    destruct (_ <=? _)%nat; [done|].
    destruct (_ !! _); [|done].
    cbn [fst messageHistory]. rewrite omap_app. apply Forall_app.
    split; [done|]. apply Forall_nil_2.
Qed.

Lemma average_in_range st :
  scoresInRange st →
  calculateAverageScore st = 0%Q
  ∨ (1 <= calculateAverageScore st)%Q ∧ (calculateAverageScore st <= 10)%Q.
Proof.
  intros H. unfold calculateAverageScore.
  case_decide as E; [by left|]. right.
  destruct (InterviewServiceFacts.feedback_scores (messageHistory st))
    as [Hlen Htotal].
  fold (feedbackMessages st) in Hlen, Htotal.
  assert (omap feedbackScore (messageHistory st) ≠ []) as Hne.
  { intros Hnil. rewrite Hnil in Hlen. by apply E. }
  destruct (AnalyzerAgentExtras.mean_bounds 1 10 _ Hne H) as [Hlo Hhi].
  pose proof (InterviewServiceFacts.fold_left_scores (feedbackMessages st) 0)
    as Hfold.
  apply AnalyzerAgentFacts.round1_between.
  - unfold Statistics.mean in Hlo. rewrite <- Hlen, <- Htotal in Hlo.
    unfold JS.ofNat. rewrite Hfold. 
    assert (∀ t, 0 + t == t)%Q as -> by (intros; ring). done.
  - unfold Statistics.mean in Hhi. rewrite <- Hlen, <- Htotal in Hhi.
    unfold JS.ofNat. rewrite Hfold.
    assert (∀ t, 0 + t == t)%Q as -> by (intros; ring). done.
Qed.

(** X19. Whatever the answers, the frontend service never reports an
    average outside the scale: after any run of session starts,
    submitted answers and next-question timers, every feedback recorded
    has a score between 1 and 10, and the average score is 0, when there
    is no feedback, or lies between 1 and 10. *)
Theorem service_average_on_scale (ops : list Op) :
  let st := run new ops in
  Forall (λ x, (1 <= x)%Q ∧ (x <= 10)%Q)
    (omap feedbackScore (messageHistory st))
  ∧ (calculateAverageScore st = 0%Q
     ∨ (1 <= calculateAverageScore st)%Q ∧ (calculateAverageScore st <= 10)%Q).
Proof.
  intros st.
  assert (scoresInRange st) as H.
  { unfold st. assert (scoresInRange new) as Hnew by apply Forall_nil_2.
    revert Hnew. generalize new.
    induction ops as [|op ops IH]; intros st0 H0; [done|].
    apply IH. by apply step_scoresInRange. }
  split; [exact H | by apply average_in_range].
Qed.

(** *** Short answers *)

Lemma calculateScore_small (answerText : string) (keywords : list string) :
  (length (split space answerText) <= 4)%nat →
  Forall
    (λ keyword,
       includes (toLowerCase answerText) (toLowerCase keyword) = false)
    keywords →
  (calculateScore answerText keywords <= 1 # 5)%Q.
Proof.
  intros Hwords Hnone. unfold calculateScore.
  set (wordCount := length (split space answerText)) in *.
  pose proof
    (InterviewServiceFacts.fold_left_keywords
       (λ keyword, includes (toLowerCase answerText) (toLowerCase keyword))
       keywords (JS.Math_min 5 (JS.ofNat wordCount / 20))) as E.
  cbv beta in E.
  replace (List.filter _ keywords) with (@nil string) in E.
  - destruct (Nat.ltb_spec 100 wordCount); [lia|].
    destruct (Nat.ltb_spec 200 wordCount); [lia|].
    eapply Qle_trans; [apply InterviewServiceFacts.Math_min_le_r|].
    rewrite E. unfold JS.ofNat at 2. simpl length.
    assert (JS.Math_min 5 (JS.ofNat wordCount / 20)
            <= JS.ofNat wordCount / 20)%Q as Hmin
      by apply InterviewServiceFacts.Math_min_le_r.
    assert (JS.ofNat wordCount <= 4)%Q as H4.
    { unfold JS.ofNat. change 4%Q with (inject_Z 4). rewrite <- Zle_Qle. lia. }
    assert (JS.ofNat wordCount / 20 == JS.ofNat wordCount * (1 # 20))%Q as Ediv
      by field.
    change (inject_Z (Z.of_nat 0)) with 0%Q. lra.
  - symmetry. clear E. induction Hnone as [|k l Hk _ IH]; [done|].
    simpl. by rewrite Hk.
Qed.

Lemma template_score_small st questionId answerText :
  (length (split space answerText) <= 4)%nat →
  Forall (λ keyword, includes (toLowerCase answerText) keyword = false)
    allKeywords →
  (t_score (templateFor st questionId answerText).2 <= 1 # 5)%Q.
Proof.
  intros Hwords Hnone. unfold allKeywords in Hnone.
  repeat (apply Forall_cons in Hnone as [? Hnone]).
  unfold templateFor. cbn [snd].
  set (category := match q_category <$> _ with Some _ => _ | None => _ end).
  unfold analysisTemplates. cbn [property].
  repeat (destruct (String.eqb _ category); cbn [default];
          [apply calculateScore_small; [done|];
           repeat (apply Forall_cons_2; [assumption|]); apply Forall_nil_2|]).
  apply calculateScore_small; [done|].
  repeat (apply Forall_cons_2; [assumption|]). apply Forall_nil_2.
Qed.

(** X20. A short answer that mentions none of the expected keywords
    scores exactly 1: for an answer in ASCII characters of at most four
    words in which none of the keywords of the templates occurs (the
    empty answer for one), the feedback has score and category score 1
    for every question and every value of [Math.random()], the random
    variation being absorbed by the lower bound of the scale. *)
Theorem short_answer_scores_one
    (st : State) (r : Q) (questionId answerText : string) :
  (0 <= r)%Q → (r < 1)%Q →
  isASCII answerText = true →
  (length (split space answerText) <= 4)%nat →
  Forall (λ keyword, includes (toLowerCase answerText) keyword = false)
    allKeywords →
  (score (generateFeedback st r questionId answerText) == 1)%Q
  ∧ (categoryScore (generateFeedback st r questionId answerText) == 1)%Q.
Proof.
  intros H0 H1 _ Hwords Hnone.
  pose proof (template_score_small st questionId answerText Hwords Hnone)
    as Hsmall.
  unfold generateFeedback.
  destruct (templateFor st questionId answerText) as [category template].
  cbn [snd] in Hsmall. cbn [score categoryScore].
  rewrite AnalyzeWithMistralExtras.Math_min_10 by lra.
  assert (JS.Math_max 1 (t_score template + (r - (1 # 2)) * (3 # 2)) = 1%Q)
    as ->.
  { unfold JS.Math_max. destruct (Qle_bool 1 _) eqn:E; [|done].
    apply Qle_bool_iff in E. lra. }
  by split.
Qed.

Lemma short_answer_scores_one_witness :
  (score (generateFeedback new (9 # 10) "leadership-1" "I do not know")
   == 1)%Q.
Proof.
  apply (short_answer_scores_one new (9 # 10) "leadership-1" "I do not know");
    [lra | lra | reflexivity | simpl; lia |].
  unfold allKeywords.
  repeat (apply Forall_cons_2; [reflexivity|]). apply Forall_nil_2.
Defined.

(** *** The case of letters *)

Lemma lowerChar_idem (c : ascii) : lowerChar (lowerChar c) = lowerChar c.
Proof. destruct c as [[] [] [] [] [] [] [] []]; reflexivity. Qed.

Lemma lowerChar_space (c : ascii) :
  Ascii.eqb (lowerChar c) space = Ascii.eqb c space.
Proof. destruct c as [[] [] [] [] [] [] [] []]; reflexivity. Qed.

Lemma toLowerCase_idem (s : string) :
  toLowerCase (toLowerCase s) = toLowerCase s.
Proof.
  induction s as [|c s IH]; [done|]. simpl. by rewrite lowerChar_idem, IH.
Qed.

Lemma split_toLowerCase (s : string) :
  length (split space (toLowerCase s)) = length (split space s).
Proof.
  induction s as [|c s IH]; [done|]. simpl. rewrite lowerChar_space.
  destruct (Ascii.eqb c space); simpl; [by rewrite IH|].
  destruct (split space (toLowerCase s)), (split space s); simpl in *; lia.
Qed.

Lemma calculateScore_toLowerCase (answerText : string) (keywords : list string) :
  calculateScore (toLowerCase answerText) keywords
  = calculateScore answerText keywords.
Proof.
  unfold calculateScore.
  by rewrite toLowerCase_idem, split_toLowerCase.
Qed.

(** X21. The feedback does not depend on the case of the letters of
    the answer: an answer and the same answer in lower case get the
    same raw score for any list of expected keywords, whose case does
    not matter either, and the same feedback for every question and
    value of [Math.random()]. *)
Theorem feedback_ignores_letter_case
    (st : State) (r : Q) (questionId answerText : string)
    (keywords : list string) :
  calculateScore (toLowerCase answerText) keywords
  = calculateScore answerText keywords
  ∧ calculateScore answerText (toLowerCase <$> keywords)
    = calculateScore answerText keywords
  ∧ generateFeedback st r questionId (toLowerCase answerText)
    = generateFeedback st r questionId answerText.
Proof.
  split; [apply calculateScore_toLowerCase|]. split.
  - unfold calculateScore. do 3 f_equal.
    generalize (JS.Math_min 5
                  (JS.ofNat (length (split space answerText)) / 20)).
    induction keywords as [|k l IH]; intros a; [done|].
    rewrite fmap_cons. cbn [fold_left]. by rewrite toLowerCase_idem, IH.
  - unfold generateFeedback, templateFor, analysisTemplates,
      introductionTemplate, generateDetailedFeedback.
    by rewrite !calculateScore_toLowerCase.
Qed.

(** *** Categories without a template *)

Lemma no_template (answerText category : string) :
  category ∉ ["introduction"; "experience"; "technical"; "leadership"] →
  property (analysisTemplates answerText) category = None
  ∧ generateDetailedFeedback answerText category
    = "Good overall response with clear communication. Your answer shows relevant experience and understanding. Focus on providing more specific examples and quantifiable outcomes.".
Proof.
  intros Hn. unfold analysisTemplates, generateDetailedFeedback,
    detailedFeedbackTemplates. cbn [property].
  destruct (String.eqb_spec "introduction" category) as [E|_];
    [destruct Hn; rewrite <- E; apply (bool_decide_unpack _); by vm_compute|].
  destruct (String.eqb_spec "experience" category) as [E|_];
    [destruct Hn; rewrite <- E; apply (bool_decide_unpack _); by vm_compute|].
  destruct (String.eqb_spec "technical" category) as [E|_];
    [destruct Hn; rewrite <- E; apply (bool_decide_unpack _); by vm_compute|].
  destruct (String.eqb_spec "leadership" category) as [E|_];
    [destruct Hn; rewrite <- E; apply (bool_decide_unpack _); by vm_compute|].
  split; [done|]. by destruct (String.eqb "general" category).
Qed.

(** X22. A question without a template of its own is judged as an
    introduction: when the question of an answer is not in the bank, or
    is of a category other than [introduction], [experience],
    [technical] and [leadership] (as the behavioral, development and
    innovation questions of the bank are), the score is computed from
    the keywords [background], [experience] and [motivation], the
    strengths, weaknesses and tips are those of the introduction
    template, and the detailed feedback is the general text. *)
Theorem other_categories_judged_as_introduction
    (st : State) (r : Q) (questionId answerText : string) :
  (∀ q, List.find (λ q, bool_decide (q_id q = questionId)) (questionBank st)
        = Some q →
        q_category q
        ∉ ["introduction"; "experience"; "technical"; "leadership"]) →
  let result := generateFeedback st r questionId answerText in
  score result
  = JS.round1
      (JS.Math_max 1
         (JS.Math_min 10
            (calculateScore answerText
               ["background"; "experience"; "motivation"]
             + (r - (1 # 2)) * (3 # 2))))
  ∧ strengths result = t_strengths (introductionTemplate answerText)
  ∧ weaknesses result = t_weaknesses (introductionTemplate answerText)
  ∧ tips result = t_tips (introductionTemplate answerText)
  ∧ detailedFeedback result
    = "Good overall response with clear communication. Your answer shows relevant experience and understanding. Focus on providing more specific examples and quantifiable outcomes.".
Proof.
  intros Hcat result. unfold result, generateFeedback, templateFor.
  destruct (List.find _ (questionBank st)) as [q|] eqn:E.
  - specialize (Hcat q eq_refl). cbn [fmap option_fmap option_map].
    destruct (JS.truthy_string (q_category q)).
    + destruct (no_template answerText (q_category q) Hcat) as [-> ->].
      done.
    + destruct (no_template answerText "general") as [-> ->];
      [apply (bool_decide_unpack _); by vm_compute|].
      done.
  - cbn [fmap option_fmap option_map].
    destruct (no_template answerText "general") as [-> ->];
      [apply (bool_decide_unpack _); by vm_compute|].
    done.
Qed.

Lemma other_categories_judged_as_introduction_witness :
  strengths (generateFeedback new (1 # 2) "conflict-1" "We talked it over.")
  = ["Clear structure and logical flow";
     "Relevant experience mentioned";
     "Confident tone and enthusiasm"].
Proof.
  apply (other_categories_judged_as_introduction new (1 # 2) "conflict-1"
           "We talked it over.").
  intros q [= <-]. apply (bool_decide_unpack _). by vm_compute.
Defined.

End InterviewServiceExtras.

(** ** The master agent: routing, histories and sessions *)

Module MasterAgentExtras.
Import MasterAgent.

Lemma pushHistory_lookup st m session :
  sessions st !! am_sessionId m = Some session →
  s_messageHistory <$> sessions (pushHistory st m) !! am_sessionId m
  = Some (s_messageHistory session ++ [m]).
Proof.
  intros H. unfold pushHistory. cbn [sessions].
  by rewrite lookup_alter_eq, H.
Qed.

Lemma pushHistory_other st m other :
  other ≠ am_sessionId m →
  sessions (pushHistory st m) !! other = sessions st !! other.
Proof.
  intros H. unfold pushHistory. cbn [sessions].
  by rewrite lookup_alter_ne.
Qed.

Lemma emitRoutingError_sessions st m error :
  sessions (emitRoutingError st m error).1 = sessions st.
Proof. unfold emitRoutingError. by destruct (routing st). Qed.

(** X23. What the routing of a message does, by recipient, for a
    message of an existing session that is not a broadcast. The message
    is appended once to the history of its session, before any delivery,
    and no other session changes. A message for the frontend agent is
    always delivered; a message for the interviewer or the analyzer is
    routed when the network accepts it and otherwise queued once with
    one retry timer; a message for any other recipient is reported as
    routed although it is delivered to nobody. *)
Theorem routing_by_recipient
    (net : Network) (st : State) (m : AgentMessage) (session : Session) :
  routing st = true →
  sessions st !! am_sessionId m = Some session →
  am_to m ≠ "all" →
  let st' := (routeMessage net st m).1 in
  let events := (routeMessage net st m).2 in
  s_messageHistory <$> sessions st' !! am_sessionId m
  = Some (s_messageHistory session ++ [m])
  ∧ (∀ other, other ≠ am_sessionId m →
              sessions st' !! other = sessions st !! other)
  ∧ (am_to m = "frontend-agent" →
     events = [FrontendMessage m; MessageRouted m]
     ∧ messageQueue st' = messageQueue st ∧ timers st' = timers st)
  ∧ (am_to m = "interviewer-agent" ∨ am_to m = "analyzer-agent" →
     (net m = None →
      events = [MessageRouted m]
      ∧ messageQueue st' = messageQueue st ∧ timers st' = timers st)
     ∧ (∀ error, net m = Some error →
          events = [RoutingError m error]
          ∧ messageQueue st' = messageQueue st ++ [m]
          ∧ timers st' = S (timers st)))
  ∧ (am_to m ≠ "frontend-agent" → am_to m ≠ "interviewer-agent" →
     am_to m ≠ "analyzer-agent" →
     events = [MessageRouted m]
     ∧ messageQueue st' = messageQueue st ∧ timers st' = timers st).
Proof.
  intros Hr Hs Hall st' events. unfold st', events.
  unfold routeMessage, routeMessageBy. rewrite Hs.
  pose proof (pushHistory_lookup st m session Hs) as Hpush.
  pose proof (pushHistory_other st m) as Hother.
  destruct (String.eqb_spec (am_to m) "interviewer-agent") as [Ei|Ei];
    [|destruct (String.eqb_spec (am_to m) "analyzer-agent") as [Ea|Ea]];
    cbn [orb].
  1,2: destruct (net m) as [error|] eqn:En;
    [rewrite !emitRoutingError_sessions; unfold emitRoutingError;
     change (routing (pushHistory st m)) with (routing st);
     rewrite Hr; cbn [fst snd handleRoutingError messageQueue timers
                       pushHistory]
    |cbn [fst snd]];
    (split; [done|]); (split; [done|]);
    (split; [intros E; rewrite E in *; done|]);
    (split; [intros _; split; [by intros ?|]; by intros ? [= <-]
            |intros ? ? ?; done]).
  destruct (String.eqb_spec (am_to m) "frontend-agent") as [Ef|Ef].
  - cbn [fst snd]. split; [done|]. split; [done|]. split; [done|].
    split; [intros [?|?]; done | done].
  - destruct (String.eqb_spec (am_to m) "all") as [?|_]; [done|].
    cbn [fst snd]. split; [done|]. split; [done|]. split; [done|].
    split; [intros [?|?]; done | done].
Qed.

Lemma routing_by_recipient_witness :
  (routeMessage Samples.unreachable Samples.withSession
     (Samples.messageTo "logger-agent")).2
  = [MessageRouted (Samples.messageTo "logger-agent")].
Proof.
  assert (∃ session,
            sessions Samples.withSession
              !! am_sessionId (Samples.messageTo "logger-agent")
            = Some session) as [session Hs]
    by (eexists; vm_compute; reflexivity).
  destruct (routing_by_recipient Samples.unreachable Samples.withSession
              (Samples.messageTo "logger-agent") session)
    as (_ & _ & _ & _ & H); [reflexivity | exact Hs | discriminate |].
  destruct H as [H _]; [discriminate..|]. exact H.
Defined.

(** *** Retries and the history of a session *)

Lemma attempt_fails net st m session error :
  routing st = true →
  sessions st !! am_sessionId m = Some session →
  am_to m = "interviewer-agent" ∨ am_to m = "analyzer-agent" →
  net m = Some error →
  routeMessage net st m
  = (handleRoutingError (pushHistory st m) m, [RoutingError m error]).
Proof.
  intros Hr Hs Hto Hnet. unfold routeMessage, routeMessageBy.
  rewrite Hs.
  assert (String.eqb (am_to m) "interviewer-agent"
          || String.eqb (am_to m) "analyzer-agent" = true) as ->.
  { destruct Hto as [-> | ->]; reflexivity. }
  rewrite Hnet. unfold emitRoutingError.
  change (routing (pushHistory st m)) with (routing st). by rewrite Hr.
Qed.

Lemma retry_fails net st m session error :
  routing st = true →
  sessions st !! am_sessionId m = Some session →
  am_to m = "interviewer-agent" ∨ am_to m = "analyzer-agent" →
  net m = Some error →
  messageQueue st = [m] → timers st = 1%nat →
  ∃ st',
    fireTimer net st = (st', [Retrying m; RoutingError m error])
    ∧ routing st' = true
    ∧ (∃ session',
         sessions st' !! am_sessionId m = Some session'
         ∧ s_messageHistory session' = s_messageHistory session ++ [m])
    ∧ messageQueue st' = [m] ∧ timers st' = 1%nat.
Proof.
  intros Hr Hs Hto Hnet Hq Ht. unfold fireTimer. rewrite Ht, Hq.
  set (st0 := {| routing := routing st; agents := agents st;
                 sessions := sessions st; messageQueue := [];
                 timers := 0 |}).
  rewrite (attempt_fails net st0 m session error) by done.
  eexists. split; [reflexivity|]. split; [done|]. split; [|done].
  unfold handleRoutingError, pushHistory. cbn [sessions].
  rewrite lookup_alter_eq. change (sessions st0) with (sessions st).
  rewrite Hs. by eexists.
Qed.

(** X24. Every attempt to deliver a message is recorded once more: a
    message of an existing session for the interviewer or the analyzer
    that the network keeps refusing is, after its routing and [n] retry
    timers, [n + 1] times in the history of its session and once in the
    queue, with one timer pending. *)
Theorem every_attempt_is_recorded
    (net : Network) (st : State) (m : AgentMessage) (session : Session)
    (error : string) (n : nat) :
  routing st = true →
  sessions st !! am_sessionId m = Some session →
  am_to m = "interviewer-agent" ∨ am_to m = "analyzer-agent" →
  net m = Some error →
  messageQueue st = [] → timers st = 0%nat →
  let final := (fireTimers net n (routeMessage net st m).1).1 in
  s_messageHistory <$> sessions final !! am_sessionId m
  = Some (s_messageHistory session ++ replicate (S n) m)
  ∧ retries m (fireTimers net n (routeMessage net st m).1).2 = n
  ∧ messageQueue final = [m] ∧ timers final = 1%nat.
Proof.
  intros Hr Hs Hto Hnet Hq Ht.
  rewrite (attempt_fails net st m session error) by done. cbn [fst].
  assert (∀ k st1 session1,
            routing st1 = true →
            sessions st1 !! am_sessionId m = Some session1 →
            messageQueue st1 = [m] → timers st1 = 1%nat →
            s_messageHistory
              <$> sessions (fireTimers net k st1).1 !! am_sessionId m
            = Some (s_messageHistory session1 ++ replicate k m)
            ∧ retries m (fireTimers net k st1).2 = k
            ∧ messageQueue (fireTimers net k st1).1 = [m]
            ∧ timers (fireTimers net k st1).1 = 1%nat) as Hloop.
  { induction k as [|k IH]; intros st1 session1 Hr1 Hs1 Hq1 Ht1.
    - simpl. rewrite Hs1, app_nil_r. done.
    - destruct (retry_fails net st1 m session1 error Hr1 Hs1 Hto Hnet
                  Hq1 Ht1)
        as (st2 & Hfire & Hr2 & (session2 & Hs2 & Hh2) & Hq2 & Ht2).
      cbn [fireTimers]. rewrite Hfire.
      destruct (IH st2 session2 Hr2 Hs2 Hq2 Ht2) as (Hh & Hn & Hqq & Htt).
      destruct (fireTimers net k st2) as [st3 events]. cbn [fst snd] in *.
      split; [|split; [|done]].
      + rewrite Hh, Hh2, <- app_assoc. done.
      + unfold retries in *. cbn [resent omap list_omap app].
        fold (resent events). rewrite filter_cons, decide_True by done.
        simpl. by rewrite Hn. }
  set (st1 := handleRoutingError (pushHistory st m) m).
  assert (∃ session1,
            sessions st1 !! am_sessionId m = Some session1
            ∧ s_messageHistory session1 = s_messageHistory session ++ [m])
    as (session1 & Hs1 & Hh1).
  { unfold st1, handleRoutingError, pushHistory. cbn [sessions].
    rewrite lookup_alter_eq, Hs. by eexists. }
  destruct (Hloop n st1 session1) as (Hh & Hn & Hqq & Htt); try done.
  - unfold st1. simpl. by rewrite Hq.
  - unfold st1. simpl. by rewrite Ht.
  - split; [|done]. rewrite Hh, Hh1, <- app_assoc. done.
Qed.

Lemma every_attempt_is_recorded_witness :
  messageQueue
    (fireTimers Samples.unreachable 3
       (routeMessage Samples.unreachable Samples.withSession
          (Samples.messageTo "analyzer-agent")).1).1
  = [Samples.messageTo "analyzer-agent"].
Proof.
  assert (∃ session,
            sessions Samples.withSession
              !! am_sessionId (Samples.messageTo "analyzer-agent")
            = Some session) as [session Hs]
    by (eexists; vm_compute; reflexivity).
  by apply (every_attempt_is_recorded Samples.unreachable
              Samples.withSession (Samples.messageTo "analyzer-agent")
              session "fetch failed" 3);
    [| |right| | |].
Defined.

(** *** createSession *)

Lemma route_direct net st m :
  routing st = true →
  is_Some (sessions st !! am_sessionId m) →
  let st' := (routeMessageBy (λ st _, (st, [])) net st m).1 in
  let events := (routeMessageBy (λ st _, (st, [])) net st m).2 in
  routing st' = true
  ∧ sessions st' = sessions (pushHistory st m)
  ∧ messageQueue st' = messageQueue st ++ failed events
  ∧ timers st' = (timers st + length (failed events))%nat
  ∧ (length (failed events) <= 1)%nat
  ∧ (am_to m = "frontend-agent" →
     events = [FrontendMessage m; MessageRouted m]).
Proof.
  intros Hr [session Hs] st' events. unfold st', events, routeMessageBy.
  rewrite Hs.
  destruct (String.eqb_spec (am_to m) "interviewer-agent") as [Ei|Ei];
    [|destruct (String.eqb_spec (am_to m) "analyzer-agent") as [Ea|Ea]];
    cbn [orb].
  1,2: destruct (net m) as [error|];
    [unfold emitRoutingError;
     change (routing (pushHistory st m)) with (routing st); rewrite Hr
    |];
    cbn [fst snd handleRoutingError routing sessions messageQueue timers
         pushHistory failed omap list_omap length];
    rewrite ?app_nil_r;
    (repeat split; try done; try lia); intros E; rewrite E in *; done.
  destruct (String.eqb_spec (am_to m) "frontend-agent") as [Ef|Ef].
  - cbn [fst snd routing sessions messageQueue timers pushHistory failed
         omap list_omap length].
    rewrite app_nil_r. repeat split; try done; lia.
  - destruct (String.eqb (am_to m) "all");
      cbn [fst snd routing sessions messageQueue timers pushHistory
           failed omap list_omap length app];
      rewrite app_nil_r; repeat split; try done; lia.
Qed.

(** X25. A session is announced to the three agents whatever the
    network does: [createSession] stores the session as [initialized]
    with its three participants, and its history then holds the three
    copies of the announcement, for the interviewer, the analyzer and
    the frontend, in that order. The frontend copy is always delivered;
    the copies that fail, two at most, are queued for a retry; no other
    session changes. *)
Theorem createSession_announces
    (net : Network) (now : Z) (generated config : string) (st : State) :
  routing st = true →
  let sid := "session-" +:+ generated in
  let m :=
    {| am_id := "msg-"; am_from := "master-agent"; am_to := "all";
       am_type := "command"; am_content := "session-created";
       am_sessionId := sid; am_timestamp := now |} in
  let st' := (createSession net now generated config st).1 in
  let events := (createSession net now generated config st).2 in
  (∃ session,
     sessions st' !! sid = Some session
     ∧ s_status session = "initialized"
     ∧ s_participants session
       = ["interviewer-agent"; "analyzer-agent"; "frontend-agent"]
     ∧ s_messageHistory session
       = [withTo m "interviewer-agent"; withTo m "analyzer-agent";
          withTo m "frontend-agent"])
  ∧ (∀ other, other ≠ sid → sessions st' !! other = sessions st !! other)
  ∧ FrontendMessage (withTo m "frontend-agent") ∈ events
  ∧ messageQueue st' = messageQueue st ++ failed events
  ∧ timers st' = (timers st + length (failed events))%nat
  ∧ (length (failed events) <= 2)%nat.
Proof.
  intros Hr sid m st' events.
  unfold st', events, createSession, broadcastMessage, broadcastMessageBy.
  fold sid. fold m.
  set (st0 := {| routing := routing st; agents := agents st;
                 sessions := <[sid := _]> (sessions st);
                 messageQueue := messageQueue st; timers := timers st |}).
  cbn [fold_left fst snd].
  set (route := routeMessageBy (λ st _, (st, [])) net).
  assert (∀ recipient, am_sessionId (withTo m recipient) = sid) as Hsid
    by done.
  assert (sessions st0 !! sid = Some
            {| s_id := sid; s_status := "initialized"; s_startTime := now;
               s_config := config;
               s_participants :=
                 ["interviewer-agent"; "analyzer-agent"; "frontend-agent"];
               s_messageHistory := [] |}) as Hs0
    by apply lookup_insert_eq.
  destruct (route_direct net st0 (withTo m "interviewer-agent") Hr)
    as (Hr1 & Hs1 & Hq1 & Ht1 & Hf1 & _); [by eexists|].
  fold route in Hr1, Hs1, Hq1, Ht1, Hf1.
  destruct (route st0 (withTo m "interviewer-agent")) as [st1 e1].
  cbn [fst snd] in *.
  destruct (route_direct net st1 (withTo m "analyzer-agent") Hr1)
    as (Hr2 & Hs2 & Hq2 & Ht2 & Hf2 & _).
  { rewrite Hs1. unfold pushHistory. cbn [sessions]. rewrite !Hsid.
    rewrite lookup_alter_eq, Hs0. by eexists. }
  fold route in Hr2, Hs2, Hq2, Ht2, Hf2.
  destruct (route st1 (withTo m "analyzer-agent")) as [st2 e2].
  cbn [fst snd] in *.
  destruct (route_direct net st2 (withTo m "frontend-agent") Hr2)
    as (Hr3 & Hs3 & Hq3 & Ht3 & Hf3 & He3).
  { rewrite Hs2. unfold pushHistory. cbn [sessions]. rewrite !Hsid.
    rewrite lookup_alter_eq, Hs1. unfold pushHistory. cbn [sessions].
    rewrite !Hsid, lookup_alter_eq, Hs0. by eexists. }
  fold route in Hr3, Hs3, Hq3, Ht3, Hf3, He3.
  destruct (route st2 (withTo m "frontend-agent")) as [st3 e3].
  cbn [fst snd] in *. specialize (He3 eq_refl). subst e3.
  assert (sessions st3
          = alter
              (λ s, {| s_id := s_id s; s_status := s_status s;
                       s_startTime := s_startTime s; s_config := s_config s;
                       s_participants := s_participants s;
                       s_messageHistory :=
                         s_messageHistory s ++ [withTo m "frontend-agent"] |})
              sid
              (alter
                 (λ s, {| s_id := s_id s; s_status := s_status s;
                          s_startTime := s_startTime s;
                          s_config := s_config s;
                          s_participants := s_participants s;
                          s_messageHistory :=
                            s_messageHistory s
                            ++ [withTo m "analyzer-agent"] |})
                 sid
                 (alter
                    (λ s, {| s_id := s_id s; s_status := s_status s;
                             s_startTime := s_startTime s;
                             s_config := s_config s;
                             s_participants := s_participants s;
                             s_messageHistory :=
                               s_messageHistory s
                               ++ [withTo m "interviewer-agent"] |})
                    sid (sessions st0)))) as Hsessions.
  { rewrite Hs3. unfold pushHistory at 1. cbn [sessions].
    rewrite Hs2. unfold pushHistory at 1. cbn [sessions].
    rewrite Hs1. unfold pushHistory. cbn [sessions]. by rewrite !Hsid. }
  split; [|split; [|split; [|split; [|split]]]].
  - rewrite Hsessions, !lookup_alter_eq, Hs0. by eexists.
  - intros other Hne. rewrite Hsessions, !lookup_alter_ne by done.
    by apply lookup_insert_ne.
  - apply elem_of_app. right. left.
  - rewrite Hq3, Hq2, Hq1. unfold failed. rewrite !omap_app, <- !app_assoc.
    done.
  - rewrite Ht3, Ht2, Ht1. unfold failed. rewrite !omap_app, !length_app.
    simpl. lia.
  - unfold failed in *. rewrite !omap_app, !length_app. simpl in *. lia.
Qed.


Lemma createSession_announces_witness :
  timers
    (createSession Samples.unreachable 1700000000000
       "1700000000000-k3j9x2m1q" "general" new).1
  = (0 + length
           (failed
              (createSession Samples.unreachable 1700000000000
                 "1700000000000-k3j9x2m1q" "general" new).2))%nat
  ∧ (length
       (failed
          (createSession Samples.unreachable 1700000000000
             "1700000000000-k3j9x2m1q" "general" new).2) <= 2)%nat.
Proof.
  destruct
    (createSession_announces Samples.unreachable 1700000000000
       "1700000000000-k3j9x2m1q" "general" new eq_refl)
    as (_ & _ & _ & _ & Htimers & Hfailed).
  split; [exact Htimers | exact Hfailed].
Defined.

End MasterAgentExtras.

(** ** The WebSocket client *)

Module WebSocketClientExtras.
Import WebSocketClient.

Lemma delays_app (events1 events2 : list Emitted) :
  delays (events1 ++ events2) = delays events1 ++ delays events2.
Proof. apply omap_app. Qed.

Lemma step_not_open (st : State) (op : Op) :
  isOpen op = false →
  (reconnectAttempts st <= maxReconnectAttempts)%nat →
  let abnormal := abnormalCloses [op] in
  let scheduled :=
    (Nat.min (reconnectAttempts st + abnormal) maxReconnectAttempts
     - reconnectAttempts st)%nat in
  reconnectAttempts (step st op).1
  = Nat.min (reconnectAttempts st + abnormal) maxReconnectAttempts
  ∧ delays (step st op).2
    = (λ k, reconnectDelay * 2 ^ Z.of_nat k)
      <$> seq (reconnectAttempts st) scheduled.
Proof.
  unfold maxReconnectAttempts, abnormalCloses. intros Hop Hle.
  destruct op as [| |code|[type|]| | |type|]; try discriminate Hop;
    cbn [step fst snd connect fire send disconnect List.filter length
         reconnectAttempts delays omap];
    try (rewrite Nat.add_0_r, Nat.min_l, Nat.sub_diag by lia; done).
  - unfold onclose, attemptReconnect. cbn [reconnectAttempts].
    destruct (negb (code =? 1000)) eqn:Hcode; cbn [andb length].
    + destruct (Nat.ltb_spec (reconnectAttempts st) maxReconnectAttempts)
        as [Hlt|Hge]; unfold maxReconnectAttempts in *;
        cbn [fst snd reconnectAttempts delays omap].
      * replace (Nat.min (reconnectAttempts st + 1) 5 - reconnectAttempts st)%nat
          with 1%nat by lia.
        split; [lia|]. cbn [seq fmap list_fmap list_omap].
        by replace (Z.of_nat (S (reconnectAttempts st)) - 1)
          with (Z.of_nat (reconnectAttempts st)) by lia.
      * replace (Nat.min (reconnectAttempts st + 1) 5 - reconnectAttempts st)%nat
          with 0%nat by lia.
        split; [lia|done].
    + cbn [fst snd reconnectAttempts delays omap].
      rewrite Nat.add_0_r, Nat.min_l, Nat.sub_diag by lia. done.
  - unfold fire, connect. destruct (timers st); cbn [reconnectAttempts];
      rewrite Nat.add_0_r, Nat.min_l, Nat.sub_diag by lia; done.
  - unfold send. destruct (ws st) as [[]|]; cbn [omap list_omap];
      rewrite Nat.add_0_r, Nat.min_l, Nat.sub_diag by lia; done.
  - unfold disconnect. destruct (ws st); cbn [reconnectAttempts];
      rewrite Nat.add_0_r, Nat.min_l, Nat.sub_diag by lia; done.
Qed.

Lemma step_attempts_bounded (st : State) (op : Op) :
  (reconnectAttempts st <= maxReconnectAttempts)%nat →
  (reconnectAttempts (step st op).1 <= maxReconnectAttempts)%nat.
Proof.
  intros Hle. destruct (isOpen op) eqn:Hop.
  - destruct op; try discriminate Hop. cbn. lia.
  - destruct (step_not_open st op Hop Hle) as [-> _]. lia.
Qed.

Lemma run_cons (st : State) (op : Op) (ops : list Op) :
  run st (op :: ops)
  = ((run (step st op).1 ops).1, (step st op).2 ++ (run (step st op).1 ops).2).
Proof.
  cbn [run]. destruct (step st op) as [st1 events1]. cbn [fst snd].
  by destruct (run st1 ops) as [st2 events2].
Qed.

Lemma abnormalCloses_cons (op : Op) (ops : list Op) :
  abnormalCloses (op :: ops) = (abnormalCloses [op] + abnormalCloses ops)%nat.
Proof.
  unfold abnormalCloses. cbn [List.filter].
  by destruct op as [| |code| | | | |]; try destruct (negb (code =? 1000)).
Qed.

(** X26.  As long as the socket is not opened, the client schedules
    one reconnection for each close that is not a normal one, with
    delays of 1000 ms doubling from attempt to attempt, and stops at
    the fifth attempt: later closes schedule nothing. *)
Theorem reconnection_backs_off_and_gives_up (st : State) (ops : list Op) :
  forallb (λ op, negb (isOpen op)) ops = true →
  (reconnectAttempts st <= maxReconnectAttempts)%nat →
  let attempts :=
    Nat.min (reconnectAttempts st + abnormalCloses ops) maxReconnectAttempts in
  reconnectAttempts (run st ops).1 = attempts
  ∧ delays (run st ops).2
    = (λ k, reconnectDelay * 2 ^ Z.of_nat k)
      <$> seq (reconnectAttempts st) (attempts - reconnectAttempts st).
Proof.
  revert st. induction ops as [|op ops IH]; intros st Hops Hle.
  - cbn [run fst snd delays omap]. unfold abnormalCloses. cbn [List.filter length].
    rewrite Nat.add_0_r, Nat.min_l, Nat.sub_diag by done. done.
  - cbn [forallb] in Hops. apply andb_prop in Hops as [Hop Hops].
    apply negb_true_iff in Hop.
    destruct (step_not_open st op Hop Hle) as [Hattempts Hdelays].
    specialize (IH (step st op).1 Hops (step_attempts_bounded st op Hle)).
    destruct IH as [IHattempts IHdelays].
    rewrite run_cons, abnormalCloses_cons. cbn [fst snd].
    rewrite delays_app, Hdelays, IHattempts, IHdelays, Hattempts.
    unfold maxReconnectAttempts in *.
    split; [lia|].
    set (a := reconnectAttempts st) in *.
    set (b := Nat.min (a + abnormalCloses [op]) 5) in *.
    rewrite <- fmap_app.
    replace (seq b (Nat.min (b + abnormalCloses ops) 5 - b))
      with (seq (a + (b - a)) (Nat.min (b + abnormalCloses ops) 5 - b))
      by (f_equal; lia).
    rewrite <- seq_app. f_equal. f_equal. lia.
Qed.

Lemma reconnection_backs_off_and_gives_up_witness :
  delays
    (run new [Connect; Close 1006; Fire; Close 1006; Fire; Fail; Close 1006;
              Fire; Close 1006; Fire; Close 1006; Fire; Close 1006;
              Close 1006]).2
  = [1000; 2000; 4000; 8000; 16000].
Proof.
  by destruct
    (reconnection_backs_off_and_gives_up new
       [Connect; Close 1006; Fire; Close 1006; Fire; Fail; Close 1006;
        Fire; Close 1006; Fire; Close 1006; Fire; Close 1006; Close 1006]
       eq_refl ltac:(vm_compute; lia)) as [_ ->].
Defined.

(** X27.  Whatever happens to a new client, it never counts more than
    five reconnection attempts, and every reconnection it schedules
    waits between 1 and 16 seconds. *)
Theorem reconnection_delay_bounds (ops : list Op) :
  (reconnectAttempts (run new ops).1 <= maxReconnectAttempts)%nat
  ∧ Forall (λ delay, 1000 <= delay <= 16000) (delays (run new ops).2).
Proof.
  assert (Hgen : ∀ st,
    (reconnectAttempts st <= maxReconnectAttempts)%nat →
    (reconnectAttempts (run st ops).1 <= maxReconnectAttempts)%nat
    ∧ Forall (λ delay, 1000 <= delay <= 16000) (delays (run st ops).2)).
  { induction ops as [|op ops IH]; intros st Hle.
    - split; [done|]. cbn. constructor.
    - rewrite run_cons. cbn [fst snd]. rewrite delays_app.
      destruct (IH _ (step_attempts_bounded st op Hle)) as [IH1 IH2].
      split; [done|]. apply Forall_app. split; [|done].
      destruct (isOpen op) eqn:Hop.
      + destruct op; try discriminate Hop. cbn. constructor.
      + destruct (step_not_open st op Hop Hle) as [_ ->].
        apply Forall_fmap, Forall_forall. intros k Hk.
        apply elem_of_seq in Hk. unfold maxReconnectAttempts, reconnectDelay in *.
        cbn beta.
        assert (Hk' : (k <= 4)%nat) by lia.
        assert (H1 : 2 ^ 0 <= 2 ^ Z.of_nat k)
          by (apply Z.pow_le_mono_r; lia).
        assert (H2 : 2 ^ Z.of_nat k <= 2 ^ 4)
          by (apply Z.pow_le_mono_r; lia).
        change (2 ^ 0) with 1 in H1. change (2 ^ 4) with 16 in H2.
        unfold compose. lia. }
  apply Hgen. cbn. unfold maxReconnectAttempts. lia.
Qed.

(** X28.  [disconnect] does not cancel a reconnection that a close has
    scheduled: when its timer runs, the client connects again, and is
    connected once that socket opens. *)
Theorem disconnect_keeps_scheduled_reconnection (st : State) (code : Z) :
  code ≠ 1000 →
  (reconnectAttempts st < maxReconnectAttempts)%nat →
  let closed := (onclose code st).1 in
  timers (disconnect closed)
  = timers st ++ [reconnectDelay * 2 ^ Z.of_nat (reconnectAttempts st)]
  ∧ isConnected (disconnect closed) = false
  ∧ send "submit-answer" (disconnect closed) = []
  ∧ isConnected (onopen (fire (disconnect closed))).1 = true.
Proof.
  intros Hcode Hlt. unfold onclose, attemptReconnect.
  cbn [reconnectAttempts].
  apply Z.eqb_neq in Hcode. rewrite Hcode.
  apply Nat.ltb_lt in Hlt. rewrite Hlt. cbn [negb andb fst].
  replace (Z.of_nat (S (reconnectAttempts st)) - 1)
    with (Z.of_nat (reconnectAttempts st)) by lia.
  unfold disconnect, send, isConnected, fire, onopen, connect.
  destruct (ws st) as [state|]; cbn [ws timers fmap option_fmap option_map fst];
    (destruct (timers st) as [|delay timers]; cbn [app ws fst fmap option_fmap option_map]);
    repeat split; try done.
Qed.

Lemma disconnect_keeps_scheduled_reconnection_witness :
  isConnected
    (onopen (fire (disconnect (onclose 1006 (onopen (connect new)).1).1))).1
  = true.
Proof.
  by destruct
    (disconnect_keeps_scheduled_reconnection (onopen (connect new)).1 1006
       ltac:(done) ltac:(vm_compute; lia)) as (_ & _ & _ & ?).
Defined.

End WebSocketClientExtras.

(** ** The Frontend agent: buffered messages *)

Module FrontendAgentExtras.
Import AnalyzeAnswer FrontendAgent.

Lemma forEachBuffered_socket
    (now : Z) (sessionId : string) (send : bool)
    (entries : list BackendMessage) (st : State) :
  activeConnections st !! sessionId = Some (Socket send) →
  Forall (λ v, nullish v = false) (bufferedContents entries) →
  forEachBuffered now sessionId entries st
  = (st, if send then Sent sessionId <$> bufferedContents entries else [],
     false).
Proof.
  intros Hconnection. unfold bufferedContents.
  induction entries as [|entry entries IH]; intros Hall.
  - cbn. by destruct send.
  - cbn [forEachBuffered List.filter] in *.
    destruct (String.eqb (bm_type entry) "buffered").
    + cbn [fmap list_fmap] in Hall. apply Forall_cons in Hall as [Hentry Hall].
      unfold sendToFrontend. rewrite Hconnection, Hentry, (IH Hall).
      by destruct send.
    + by apply IH.
Qed.

Lemma forEachBuffered_not_connected
    (now : Z) (sessionId : string) (entries : list BackendMessage)
    (st : State) :
  connected sessionId st = false →
  (forEachBuffered now sessionId entries st).1.2 = []
  ∧ (forEachBuffered now sessionId entries st).2 = false
  ∧ activeConnections (forEachBuffered now sessionId entries st).1.1
    = activeConnections st.
Proof.
  revert st. induction entries as [|entry entries IH]; intros st Hconnection.
  - done.
  - cbn [forEachBuffered].
    destruct (String.eqb (bm_type entry) "buffered"); [|by apply IH].
    unfold sendToFrontend. unfold connected in Hconnection.
    destruct (activeConnections st !! sessionId) as [[|send]|] eqn:Hlookup;
      try discriminate Hconnection.
    all: match goal with
         | IH : ∀ st, _ |- context [forEachBuffered ?time ?sid ?rest ?st1] =>
             specialize (IH st1); destruct IH as (IH1 & IH2 & IH3);
             [by unfold connected; cbn [push activeConnections];
                 match goal with H : _ !! _ = _ |- _ => rewrite H end|];
             destruct (forEachBuffered time sid rest st1)
               as [[st2 events2] thrown2]
         end.
    all: cbn [fst snd] in *; by subst.
Qed.

Lemma getMessageHistory_push
    (sessionId : string) (entry : BackendMessage) (st : State) :
  getMessageHistory sessionId (push sessionId entry st)
  = getMessageHistory sessionId st ++ [entry].
Proof.
  unfold getMessageHistory at 1. unfold push. cbn [messageBuffer].
  by rewrite lookup_insert_eq.
Qed.

Lemma sendAll_not_connected
    (sessionId : string) (messages : list (Z * JSValue)) (st : State) :
  connected sessionId st = false →
  activeConnections (sendAll sessionId messages st) = activeConnections st
  ∧ bufferedContents (getMessageHistory sessionId (sendAll sessionId messages st))
    = bufferedContents (getMessageHistory sessionId st) ++ messages.*2.
Proof.
  unfold sendAll. revert st.
  induction messages as [|[now message] messages IH]; intros st Hconnection.
  - cbn. by rewrite app_nil_r.
  - cbn [fold_left fst snd fmap list_fmap].
    assert (Hsend : (sendToFrontend now sessionId message st).1.1
      = push sessionId
          {| bm_id := "buffered-" +:+ pretty now; bm_from := "frontend-agent";
             bm_type := "buffered"; bm_content := message;
             bm_sessionId := sessionId; bm_timestamp := now |} st).
    { unfold sendToFrontend. unfold connected in Hconnection.
      by destruct (activeConnections st !! sessionId) as [[|send]|]. }
    rewrite Hsend.
    match goal with
    | |- context [fold_left _ messages ?st1] =>
        destruct (IH st1) as [IH1 IH2]; [exact Hconnection|]
    end.
    rewrite IH1, IH2. split; [done|].
    rewrite getMessageHistory_push.
    unfold bufferedContents. rewrite List.filter_app, fmap_app.
    by rewrite <- app_assoc.
Qed.

(** X29.  Messages for the frontend of a session that has no
    connection are kept, and sent when a connection with a [send]
    method is established: first what was kept before, then the
    messages in the order in which they were to be sent, each once.
    The buffer is empty afterwards, so the backend messages recorded in
    it are dropped. *)
Theorem buffered_messages_are_sent_on_connection
    (now : Z) (sessionId : string) (messages : list (Z * JSValue))
    (st : State) :
  connected sessionId st = false →
  Forall (λ v, nullish v = false)
    (bufferedContents (getMessageHistory sessionId st)) →
  Forall (λ message, nullish message.2 = false) messages →
  let result :=
    handleConnectionEstablished now sessionId (Socket true)
      (sendAll sessionId messages st) in
  result.1.2
  = Sent sessionId
    <$> (bufferedContents (getMessageHistory sessionId st) ++ messages.*2)
  ∧ result.2 = false
  ∧ getMessageHistory sessionId result.1.1 = []
  ∧ connected sessionId result.1.1 = true.
Proof.
  intros Hconnection Hold Hmessages.
  destruct (sendAll_not_connected sessionId messages st Hconnection)
    as [_ Hcontents].
  unfold handleConnectionEstablished.
  set (st1 := {| activeConnections := _; messageBuffer := _ |}).
  rewrite (forEachBuffered_socket now sessionId true _ st1).
  - change (getMessageHistory sessionId st1)
      with (getMessageHistory sessionId (sendAll sessionId messages st)).
    rewrite Hcontents. cbn [fst snd]. repeat split.
    + unfold getMessageHistory. cbn [messageBuffer].
      by rewrite lookup_insert_eq.
    + unfold connected. subst st1. cbn [activeConnections].
      by rewrite lookup_insert_eq.
  - subst st1. cbn [activeConnections]. by rewrite lookup_insert_eq.
  - change (getMessageHistory sessionId st1)
      with (getMessageHistory sessionId (sendAll sessionId messages st)).
    rewrite Hcontents. apply Forall_app. split; [done|].
    by apply Forall_fmap.
Qed.

Lemma buffered_messages_are_sent_on_connection_witness :
  (handleConnectionEstablished 1700000002000 "session-1" (Socket true)
     (sendAll "session-1"
        [(1700000000000, JObject [("type", JString "session-started")]);
         (1700000001000, JObject [("type", JString "answer-received")])]
        new)).1.2
  = [Sent "session-1" (JObject [("type", JString "session-started")]);
     Sent "session-1" (JObject [("type", JString "answer-received")])].
Proof.
  destruct
    (buffered_messages_are_sent_on_connection 1700000002000 "session-1"
       [(1700000000000, JObject [("type", JString "session-started")]);
        (1700000001000, JObject [("type", JString "answer-received")])]
       new)
    as (Hsent & _).
  - reflexivity.
  - constructor.
  - by repeat constructor.
  - exact Hsent.
Defined.

(** X30.  When the connection established for a session is a falsy
    value, or an object without a [send] method, nothing is sent, and
    the messages kept for the session are lost: the buffer is emptied,
    and no connection established later sends anything. *)
Theorem unusable_connection_loses_buffered_messages
    (now : Z) (sessionId : string) (connection : Connection) (st : State) :
  connection = Falsy
  ∨ (connection = Socket false
     ∧ Forall (λ v, nullish v = false)
         (bufferedContents (getMessageHistory sessionId st))) →
  let result := handleConnectionEstablished now sessionId connection st in
  result.1.2 = []
  ∧ result.2 = false
  ∧ getMessageHistory sessionId result.1.1 = []
  ∧ ∀ now' connection',
      (handleConnectionEstablished now' sessionId connection' result.1.1).1.2
      = [].
Proof.
  intros Hconnection.
  assert (Hfirst :
    (handleConnectionEstablished now sessionId connection st).1.2 = []
    ∧ (handleConnectionEstablished now sessionId connection st).2 = false
    ∧ getMessageHistory sessionId
        (handleConnectionEstablished now sessionId connection st).1.1 = []).
  { unfold handleConnectionEstablished.
    set (st1 := {| activeConnections := _; messageBuffer := _ |}).
    destruct Hconnection as [->|[-> Hall]].
    - destruct (forEachBuffered_not_connected now sessionId
                  (getMessageHistory sessionId st1) st1) as (H1 & H2 & _).
      { unfold connected. subst st1. cbn [activeConnections].
        by rewrite lookup_insert_eq. }
      destruct (forEachBuffered now sessionId _ st1) as [[st2 events] thrown].
      cbn [fst snd] in *. subst. cbn [fst snd]. repeat split.
      unfold getMessageHistory. cbn [messageBuffer].
      by rewrite lookup_insert_eq.
    - rewrite (forEachBuffered_socket now sessionId false _ st1).
      + cbn [fst snd]. repeat split.
        unfold getMessageHistory. cbn [messageBuffer].
        by rewrite lookup_insert_eq.
      + subst st1. cbn [activeConnections]. by rewrite lookup_insert_eq.
      + exact Hall. }
  destruct Hfirst as (Hevents & Hthrown & Hbuffer).
  repeat split; try done.
  intros now' connection'.
  unfold handleConnectionEstablished at 1.
  match goal with
  | |- context [getMessageHistory sessionId ?st1] =>
      change (getMessageHistory sessionId st1)
        with (getMessageHistory sessionId
                (handleConnectionEstablished now sessionId connection st).1.1)
  end.
  rewrite Hbuffer. done.
Qed.

Lemma unusable_connection_loses_buffered_messages_witness :
  (handleConnectionEstablished 1700000003000 "session-1" (Socket true)
     (handleConnectionEstablished 1700000002000 "session-1" Falsy
        (sendAll "session-1"
           [(1700000000000, JObject [("type", JString "session-started")])]
           new)).1.1).1.2
  = [].
Proof.
  destruct
    (unusable_connection_loses_buffered_messages 1700000002000 "session-1"
       Falsy
       (sendAll "session-1"
          [(1700000000000, JObject [("type", JString "session-started")])]
          new)
       (or_introl eq_refl))
    as (_ & _ & _ & Hlater).
  exact (Hlater 1700000003000 (Socket true)).
Defined.

End FrontendAgentExtras.
